(** * OnChainGS: the PLY splitter and group merger of [src/core/SplatProcesser.js]

    A shallow embedding of the [SplatProcesser] class (header parsing and
    rewriting, chunk sizing, splitting with its verification pass, chunk
    merging and grouping) and the properties of it that the specification
    states.

    Modelling conventions.
    - Text and buffers are lists of 8-bit characters ([text]): a [Buffer] is
      the list of its bytes.  On ASCII bytes the UTF-8 decoding done by
      [Buffer.toString('utf8')] keeps every character and every offset, and
      [Buffer.from] is its inverse; on other bytes an index into the decoded
      string is no longer an offset into the buffer.  The code cuts the
      buffer at an index found in the string, so the statements that relate
      a header to the payload behind it carry the hypothesis [asciiText] on
      the header.
    - Integer-valued JavaScript numbers are [number]s carrying a [Z]; this is
      exact up to 2^53, the bound that the statements about sums of counts
      and about byte offsets carry.  The chunk-sizing quotient and the byte
      offsets of the chunks ([byteIndex]) involve quotients that are not
      integers: they are evaluated in IEEE binary64 with the kernel's
      primitive floats, as Node evaluates them.
    - The chunk directory is a finite map from the index to the contents of
      the chunk file of that name ([chunk_000012.ply]), together with the
      names of its other entries ([otherChunkEntries]), which the listing of
      [createGroups] reads and sorts.  The group directory is a finite map
      from the index of the group.  The saved header information and the
      manifest [chunks_metadata.json] are kept as the objects that
      [JSON.stringify] serialises. *)

From Stdlib Require Import ZArith Ascii String List Floats Uint63 Zpower Lia.
From stdpp Require Import gmap list.

Open Scope Z_scope.

(** ** Strings *)

Definition text := list ascii.

Module Str.

Definition lit (s : string) : text := list_ascii_of_string s.

Definition nl : ascii := "010"%char.
Definition space : ascii := " "%char.

(** [s.startsWith(p)] *)
Fixpoint startsWith (p s : text) : bool :=
  match p, s with
  | [], _ => true
  | _ :: _, [] => false
  | a :: p', b :: s' => Ascii.eqb a b && startsWith p' s'
  end.

(** [s.endsWith(p)] *)
Definition endsWith (p s : text) : bool := startsWith (rev p) (rev s).

(** [s.indexOf(p)]; [None] stands for -1. *)
Fixpoint indexOf (p s : text) : option nat :=
  if startsWith p s then Some 0%nat
  else match s with
       | [] => None
       | _ :: s' => S <$> indexOf p s'
       end.

(** [s.includes(p)] *)
Definition includes (p s : text) : bool :=
  match indexOf p s with Some _ => true | None => false end.

(** [s.split(c)] for a one-character separator. *)
Fixpoint split (c : ascii) (s : text) : list text :=
  match s with
  | [] => [[]]
  | a :: s' =>
      if Ascii.eqb a c then [] :: split c s'
      else match split c s' with
           | l :: ls => (a :: l) :: ls
           | [] => [[a]]
           end
  end.

(** [ls.join(c)] *)
Fixpoint join (c : ascii) (ls : list text) : text :=
  match ls with
  | [] => []
  | l :: ls' =>
      match ls' with
      | [] => l
      | _ :: _ => l ++ c :: join c ls'
      end
  end.

(** White space and line terminators of ECMAScript, within ASCII. *)
Definition isWhite (a : ascii) : bool :=
  let n := nat_of_ascii a in
  ((9 <=? n)%nat && (n <=? 13)%nat) || (n =? 32)%nat.

Fixpoint trimStart (s : text) : text :=
  match s with
  | a :: s' => if isWhite a then trimStart s' else s
  | [] => []
  end.

(** [s.trim()] *)
Definition trim (s : text) : text := rev (trimStart (rev (trimStart s))).

Definition isDigit (a : ascii) : bool :=
  let n := nat_of_ascii a in (48 <=? n)%nat && (n <=? 57)%nat.

(** A byte that UTF-8 decodes to the character of the same code. *)
Definition isAscii (a : ascii) : bool := (nat_of_ascii a <? 128)%nat.

Definition digitVal (a : ascii) : Z := Z.of_nat (nat_of_ascii a) - 48.

(** The longest prefix of decimal digits, and what follows it. *)
Fixpoint spanDigits (s : text) : text * text :=
  match s with
  | a :: s' =>
      if isDigit a then let '(d, r) := spanDigits s' in (a :: d, r)
      else ([], s)
  | [] => ([], [])
  end.

(** The value of a run of decimal digits, most significant first. *)
Definition decimal (ds : text) : Z :=
  fold_left (fun acc a => 10 * acc + digitVal a) ds 0.

Definition hexVal (a : ascii) : option Z :=
  let n := nat_of_ascii a in
  if isDigit a then Some (Z.of_nat n - 48)
  else if (97 <=? n)%nat && (n <=? 102)%nat then Some (Z.of_nat n - 87)
  else if (65 <=? n)%nat && (n <=? 70)%nat then Some (Z.of_nat n - 55)
  else None.

(** The value of the longest prefix of hexadecimal digits of [s], started
    from [acc]; [seen] tells whether a digit was read. *)
Fixpoint hexPrefix (s : text) (acc : Z) (seen : bool) : option Z :=
  match s with
  | a :: s' =>
      match hexVal a with
      | Some v => hexPrefix s' (16 * acc + v) true
      | None => if seen then Some acc else None
      end
  | [] => if seen then Some acc else None
  end.

(** The decimal numeral of a natural number, least significant digit
    first, on [fuel] digits at most. *)
Fixpoint digitsRev (fuel : nat) (n : N) : text :=
  match fuel with
  | O => []
  | S fuel' =>
      let d := ascii_of_N (48 + n mod 10) in
      if (n <? 10)%N then [d] else d :: digitsRev fuel' (n / 10)
  end.

Definition ofN (n : N) : text := rev (digitsRev (S (N.to_nat (N.log2 n))) n).

(** [String(z)] for an integer [z]. *)
Definition ofZ (z : Z) : text :=
  match z with
  | Zneg p => "-"%char :: ofN (Npos p)
  | _ => ofN (Z.to_N z)
  end.

End Str.

(** ** Numbers *)

(** An integer-valued JavaScript number, or one of the three special values.
    Both zeros are [Num 0].  The integer is kept exact: [Num z] is the
    number of the code as long as [|z| <= 2^53], where every integer is a
    double. *)
Inductive number := NaN | PInf | NInf | Num (z : Z).

Module JS.

(** [parseInt(s)] with no radix: leading white space, a sign, a [0x]
    prefix, then the longest run of digits; [NaN] without a digit.  The
    value of the digits is kept exact, where [parseInt] rounds a value
    above 2^53 to a double. *)
Definition parseDigits (s : text) : option Z :=
  match s with
  | z :: x :: s' =>
      if Ascii.eqb z "0" && (Ascii.eqb x "x" || Ascii.eqb x "X")
      then Str.hexPrefix s' 0 false
      else match Str.spanDigits s with
           | ([], _) => None
           | (ds, _) => Some (Str.decimal ds)
           end
  | _ => match Str.spanDigits s with
         | ([], _) => None
         | (ds, _) => Some (Str.decimal ds)
         end
  end.

Definition parseInt (s : text) : number :=
  let s := Str.trimStart s in
  let '(neg, s) :=
    match s with
    | a :: s' =>
        if Ascii.eqb a "-" then (true, s')
        else if Ascii.eqb a "+" then (false, s') else (false, s)
    | [] => (false, s)
    end in
  match parseDigits s with
  | Some v => Num (if neg then - v else v)
  | None => NaN
  end.

(** [parseInt(x)] where [x] is an array element that may be [undefined]. *)
Definition parseIntOpt (x : option text) : number :=
  match x with Some s => parseInt s | None => NaN end.

(** [String(n)], as a template literal renders a number: every digit of
    the integer, as [String] prints an integer below 10^21 (from there on
    it prints an exponent). *)
Definition toString (n : number) : text :=
  match n with
  | NaN => Str.lit "NaN"
  | PInf => Str.lit "Infinity"
  | NInf => Str.lit "-Infinity"
  | Num z => Str.ofZ z
  end.

(** [a * b] *)
Definition mul (a b : number) : number :=
  match a, b with
  | NaN, _ | _, NaN => NaN
  | Num x, Num y => Num (x * y)
  | Num x, PInf | PInf, Num x =>
      if x =? 0 then NaN else if 0 <? x then PInf else NInf
  | Num x, NInf | NInf, Num x =>
      if x =? 0 then NaN else if 0 <? x then NInf else PInf
  | PInf, PInf | NInf, NInf => PInf
  | PInf, NInf | NInf, PInf => NInf
  end.

(** [a + b] *)
Definition add (a b : number) : number :=
  match a, b with
  | NaN, _ | _, NaN => NaN
  | Num x, Num y => Num (x + y)
  | PInf, NInf | NInf, PInf => NaN
  | PInf, _ | _, PInf => PInf
  | NInf, _ | _, NInf => NInf
  end.

Definition neg (a : number) : number :=
  match a with
  | NaN => NaN | PInf => NInf | NInf => PInf | Num x => Num (- x)
  end.

(** [a - b] *)
Definition sub (a b : number) : number := add a (neg b).

(** [Math.abs(a)] *)
Definition abs (a : number) : number :=
  match a with
  | NaN => NaN | PInf | NInf => PInf | Num x => Num (Z.abs x)
  end.

(** [a < b] *)
Definition lt (a b : number) : bool :=
  match a, b with
  | NaN, _ | _, NaN => false
  | Num x, Num y => x <? y
  | NInf, NInf | PInf, _ => false
  | NInf, _ => true
  | Num _, PInf => true
  | Num _, NInf => false
  end.

(** [Math.min(a, b)] *)
Definition min (a b : number) : number :=
  match a, b with
  | NaN, _ | _, NaN => NaN
  | _, _ => if lt b a then b else a
  end.

(** [Math.max(a, b)] *)
Definition max (a b : number) : number :=
  match a, b with
  | NaN, _ | _, NaN => NaN
  | _, _ => if lt a b then b else a
  end.

(** [Math.ceil(a / b)] on integer-valued operands; a zero divisor is the
    positive zero. *)
Definition ceilDiv (a b : number) : number :=
  match a, b with
  | NaN, _ | _, NaN => NaN
  | Num x, Num y =>
      if y =? 0 then (if x =? 0 then NaN else if 0 <? x then PInf else NInf)
      else Num (- ((- x) / y))
  | Num _, (PInf | NInf) => Num 0
  | (PInf | NInf), (PInf | NInf) => NaN
  | PInf, Num y => if 0 <=? y then PInf else NInf
  | NInf, Num y => if 0 <=? y then NInf else PInf
  end.

End JS.

(** ** Binary64 arithmetic of the chunk-sizing quotient *)

Module F64.

(** The double nearest to an integer (exact below 2^53; the conversion
    goes through a 63-bit integer). *)
Definition ofZ (z : Z) : float :=
  match z with
  | Z0 => PrimFloat.zero
  | Zpos _ => PrimFloat.of_uint63 (Uint63.of_Z z)
  | Zneg _ => PrimFloat.opp (PrimFloat.of_uint63 (Uint63.of_Z (- z)))
  end.

Definition ofNumber (n : number) : float :=
  match n with
  | NaN => PrimFloat.nan
  | PInf => PrimFloat.infinity
  | NInf => PrimFloat.neg_infinity
  | Num z => ofZ z
  end.

(** [Math.floor] read off the sign, mantissa and exponent of a double: the
    floor of [(-1)^s * m * 2^e] is an arithmetic shift of the signed
    mantissa. *)
Definition floorSF (x : spec_float) : number :=
  match x with
  | S754_nan => NaN
  | S754_infinity s => if s then NInf else PInf
  | S754_zero _ => Num 0
  | S754_finite s m e => Num (Z.shiftl (cond_Zopp s (Zpos m)) e)
  end.

Definition floor (x : float) : number := floorSF (Prim2SF x).

(** [Math.trunc]: the magnitude [m * 2^e] shifted, then signed. *)
Definition truncSF (x : spec_float) : number :=
  match x with
  | S754_nan => NaN
  | S754_infinity s => if s then NInf else PInf
  | S754_zero _ => Num 0
  | S754_finite s m e => Num (cond_Zopp s (Z.shiftl (Zpos m) e))
  end.

Definition trunc (x : float) : number := truncSF (Prim2SF x).

End F64.

(** ** The processer *)

Definition EXPECTED_COMPRESSION_RATE : float := 0x1.ccccccccccccdp-1%float.
Definition BASE64_OVERHEAD : float := 1.25%float.

(** The instance fields that the methods read and write. [propertyTypes] is a
    [Map]: an association list in insertion order, one entry per key. *)
Record SplatProcesser := mkProcesser {
  vertexCount : number;
  propertyTypes : list (text * text);
  maxShDegree : Z;
  originalHeader : text
}.

(** The fields as the constructor sets them. *)
Definition constructor : SplatProcesser :=
  {| vertexCount := Num 0; propertyTypes := []; maxShDegree := 0;
     originalHeader := [] |}.

(** [Map.prototype.set]: the value of an existing key is replaced in place, a
    new key is appended. *)
Fixpoint mapSet (k v : text) (m : list (text * text)) : list (text * text) :=
  match m with
  | [] => [(k, v)]
  | (k', v') :: m' =>
      if decide (k' = k) then (k, v) :: m' else (k', v') :: mapSet k v m'
  end.

(** What [typeSizes[typeName] || 4] evaluates to: a width, or, for the name of
    a member that the object literal inherits from [Object.prototype], that
    member (a function or an object, which is truthy). *)
Inductive typeSize := Width (n : Z) | Inherited.

Definition objectPrototypeMembers : list text :=
  map Str.lit
    ["constructor"; "__defineGetter__"; "__defineSetter__"; "hasOwnProperty";
     "__lookupGetter__"; "__lookupSetter__"; "isPrototypeOf";
     "propertyIsEnumerable"; "toString"; "valueOf"; "__proto__";
     "toLocaleString"]%string.

Definition typeSizes : list (text * Z) :=
  map (fun '(k, v) => (Str.lit k, v))
    [("float32", 4); ("float", 4); ("float64", 8);
     ("uint8", 1); ("uchar", 1);
     ("int32", 4); ("int", 4);
     ("uint32", 4)]%string.

Fixpoint assoc {A} (k : text) (m : list (text * A)) : option A :=
  match m with
  | [] => None
  | (k', v) :: m' => if decide (k' = k) then Some v else assoc k m'
  end.

Definition getTypeSize (typeName : text) : typeSize :=
  match assoc typeName typeSizes with
  | Some n => Width n
  | None =>
      if bool_decide (typeName ∈ objectPrototypeMembers) then Inherited
      else Width 4
  end.

(** The callback that [createChunkHeader] maps over the header lines. *)
Definition rewriteLine (numVertices : number) (line : text) : text :=
  if Str.includes (Str.lit "element vertex") line
  then Str.lit "element vertex " ++ JS.toString numVertices
  else line.

(** [createChunkHeader(numVertices)] *)
Definition createChunkHeader (st : SplatProcesser) (numVertices : number) : text :=
  let lines := Str.split Str.nl (originalHeader st) in
  let modifiedLines := map (rewriteLine numVertices) lines in
  let header := Str.join Str.nl modifiedLines in
  if Str.endsWith [Str.nl] header then header else header ++ [Str.nl].

(** The header terminator that [readPlyHeader] and [readChunkPly] look for. *)
Definition end_header : text := Str.lit "end_header" ++ [Str.nl].

(** [fileStr.indexOf('end_header\n') + 'end_header\n'.length], on the
    bytes of the file.  The code searches the decoded string; the two
    indices are the same when the bytes up to the end of the terminator are
    ASCII ([asciiText]). *)
Definition headerEnd (fileStr : text) : Z :=
  match Str.indexOf end_header fileStr with
  | Some i => Z.of_nat i + 11
  | None => -1 + 11
  end.

(** The loop body of [readPlyHeader]: the fields and the [extraFNames] array
    after one header line. *)
Definition readLine (acc : SplatProcesser * list text) (line : text)
  : SplatProcesser * list text :=
  let '(st, extraFNames) := acc in
  let trimmedLine := Str.trim line in
  match trimmedLine with
  | [] => acc
  | _ :: _ =>
      if Str.includes (Str.lit "element vertex") trimmedLine then
        (mkProcesser (JS.parseIntOpt (Str.split Str.space trimmedLine !! 2%nat))
           (propertyTypes st) (maxShDegree st) (originalHeader st),
         extraFNames)
      else if Str.startsWith (Str.lit "property") trimmedLine then
        let parts := Str.split Str.space trimmedLine in
        match parts !! 2%nat, parts !! 1%nat with
        | Some propName, Some propType =>
            (mkProcesser (vertexCount st)
               (mapSet propName propType (propertyTypes st))
               (maxShDegree st) (originalHeader st),
             if Str.startsWith (Str.lit "f_rest_") propName
             then extraFNames ++ [propName] else extraFNames)
        | _, _ => acc
        end
      else acc
  end.

(** The degree that the count of [f_rest_] names selects; other counts leave
    the field as it was. *)
Definition shDegree (count : nat) (previous : Z) : Z :=
  if (count =? 0)%nat then 0
  else if (count =? 9)%nat then 1
  else if (count =? 24)%nat then 2
  else if (count =? 45)%nat then 3
  else previous.

Record plyParts := mkParts { headerEndIndex : Z; vertexData : text }.

(** [readPlyHeader()] on the contents [data] of the input file.  The
    header text is cut from the decoded string and the payload from the
    buffer, both at [headerEndIndex]: on one list of bytes here, which is
    what the code does for a header of ASCII bytes. *)
Definition readPlyHeader (st : SplatProcesser) (data : text)
  : SplatProcesser * plyParts :=
  let fileStr := data in
  let headerEndIndex := headerEnd fileStr in
  let st := mkProcesser (vertexCount st) (propertyTypes st) (maxShDegree st)
              (take (Z.to_nat headerEndIndex) fileStr) in
  let headerLines := Str.split Str.nl (originalHeader st) in
  let '(st, extraFNames) := fold_left readLine headerLines (st, []) in
  let st := mkProcesser (vertexCount st) (propertyTypes st)
              (shDegree (length extraFNames) (maxShDegree st))
              (originalHeader st) in
  (st, {| headerEndIndex := headerEndIndex;
          vertexData := drop (Z.to_nat headerEndIndex) data |}).

(** The header text of a file: what [readPlyHeader] stores in
    [originalHeader]. *)
Definition headerText (data : text) : text :=
  take (Z.to_nat (headerEnd data)) data.

(** Whether the loop of [readPlyHeader] reads a header line as the vertex-count
    line. *)
Definition declaresVertexCount (line : text) : bool :=
  Str.includes (Str.lit "element vertex") (Str.trim line).

(** Whether the loop of [readPlyHeader] reads a header line as the declaration
    of a property whose name starts with "f_rest_". *)
Definition declaresRest (line : text) : bool :=
  let trimmedLine := Str.trim line in
  negb (Str.includes (Str.lit "element vertex") trimmedLine)
  && Str.startsWith (Str.lit "property") trimmedLine
  && match Str.split Str.space trimmedLine !! 2%nat with
     | Some propName => Str.startsWith (Str.lit "f_rest_") propName
     | None => false
     end.

(** The count of property names with the prefix in the header of a file. *)
Definition restCount (data : text) : nat :=
  length (filter (fun line => declaresRest line = true)
            (Str.split Str.nl (headerText data))).

(** ** Files *)

(** An entry of the [groups] array that [createGroups] builds. *)
Record groupMeta := mkGroupMeta {
  groupId : nat;
  groupVertexCount : Z;
  groupChunks : list nat
}.

Module Metadata.

(** The object that [createGroups] serialises into
    [outputs/chunks_metadata.json]. *)
Record t := mk {
  originalNodeCount : nat;
  totalGroups : number;
  groupSize : Z;
  nodesPerGroup : Z;
  successfulGroups : nat;
  failedGroups : list nat;
  groups : list groupMeta
}.

End Metadata.

(** The input file; the chunk directory, as the contents of its files
    [chunk_<index>.ply] by index and the names of its other entries; the
    group directory, by index; [outputs/header_info.json] and
    [outputs/chunks_metadata.json] (the object that each stores, when it
    exists). *)
Record files := mkFiles {
  inputFile : text;
  plyChunks : gmap nat text;
  plyGrouped : gmap nat text;
  headerInfo : option SplatProcesser;
  otherChunkEntries : list text;
  chunksMetadata : option Metadata.t
}.

(** The errors thrown: the mismatch of [split], the missing header
    information of [createGroups], a chunk file that cannot be read, and
    the [TypeError] of [a.match(/\d+/)[0]] on a name without digit. *)
Inductive error :=
| VertexCountMismatch (expected : number) (got : Z)
| HeaderInfoNotFound
| ENOENT (index : nat)
| NullMatch.

(** How a call ends: it returns, it throws, or its loop never ends. *)
Inductive outcome (A : Type) :=
| Returned (a : A)
| Thrown (e : error)
| Diverged.
Arguments Returned {A} a.
Arguments Thrown {A} e.
Arguments Diverged {A}.

(** ** Chunk sizing *)

(** The [reduce] over the schema's types: a sum of widths, or, once an
    inherited member was added to it, a string that is not a numeral. *)
Definition bytesPerVertex (st : SplatProcesser) : number :=
  fold_left
    (fun sum type =>
       match sum, getTypeSize type with
       | Num s, Width n => Num (s + n)
       | _, _ => NaN
       end)
    (map snd (propertyTypes st)) (Num 0).

Definition headerSize (st : SplatProcesser) : Z :=
  Z.of_nat (length (originalHeader st)).

Definition availableSize (st : SplatProcesser) (targetSizeBytes : Z) : Z :=
  targetSizeBytes - headerSize st.

(** [Math.max(1, Math.floor(availableSize / (bytesPerVertex *
    (1 - EXPECTED_COMPRESSION_RATE) * BASE64_OVERHEAD)))] *)
Definition verticesPerChunk (st : SplatProcesser) (targetSizeBytes : Z) : number :=
  JS.max (Num 1)
    (F64.floor
       (F64.ofZ (availableSize st targetSizeBytes) /
        (F64.ofNumber (bytesPerVertex st) * (1 - EXPECTED_COMPRESSION_RATE)
         * BASE64_OVERHEAD))%float).

(** ** Splitting *)

(** [idx * (len / count)], the product [startIdx * actualBytesPerVertex]
    of [split] evaluated in binary64, as [Buffer.slice] reads it: truncated
    to an integer. *)
Definition byteIndex (idx : number) (len : Z) (count : number) : number :=
  F64.trunc (F64.ofNumber idx * (F64.ofZ len / F64.ofNumber count))%float.

(** An offset of [Buffer.slice] within a buffer of [len] bytes: clamped, a
    negative one counted from the end. *)
Definition clampIndex (x : number) (len : nat) : nat :=
  match x with
  | NaN | NInf => 0%nat
  | PInf => len
  | Num z => if z <? 0 then Z.to_nat (Z.of_nat len + z)
             else Nat.min (Z.to_nat z) len
  end.

(** [buf.slice(startByte, endByte)] *)
Definition slice (buf : text) (startByte endByte : number) : text :=
  let s := clampIndex startByte (length buf) in
  let e := clampIndex endByte (length buf) in
  take (e - s)%nat (drop s buf).

(** The number of iterations of [for (let i = 0; i < n; i++)]; none when the
    bound is [Infinity]. *)
Definition iterations (n : number) : option nat :=
  match n with
  | Num z => Some (Z.to_nat z)
  | PInf => None
  | NaN | NInf => Some 0%nat
  end.

(** [writeChunkPly(outputFile, chunkData, numVertices)], the output file
    being chunk [i] of the chunk directory. *)
Definition writeChunkPly (st : SplatProcesser) (chunks : gmap nat text)
    (i : nat) (chunkData : text) (numVertices : number) : gmap nat text :=
  <[i := createChunkHeader st numVertices ++ chunkData]> chunks.

(** One iteration of the emission loop. *)
Definition emitChunk (st : SplatProcesser) (vertexData : text)
    (verticesPerChunk : number) (acc : gmap nat text * number) (i : nat)
  : gmap nat text * number :=
  let '(chunks, totalProcessedVertices) := acc in
  let len := Z.of_nat (length vertexData) in
  let startIdx := JS.mul (Num (Z.of_nat i)) verticesPerChunk in
  let endIdx := JS.min (JS.mul (Num (Z.of_nat i + 1)) verticesPerChunk)
                  (vertexCount st) in
  let numVertices := JS.sub endIdx startIdx in
  let startByte := byteIndex startIdx len (vertexCount st) in
  let endByte := byteIndex endIdx len (vertexCount st) in
  let chunkData := slice vertexData startByte endByte in
  (writeChunkPly st chunks i chunkData numVertices,
   JS.add totalProcessedVertices numVertices).

(** [content.match(/element vertex (\d+)/)]: the digits captured by the
    leftmost match. *)
Definition matchHere (s : text) : option text :=
  if Str.startsWith (Str.lit "element vertex ") s then
    match Str.spanDigits (drop 15 s) with
    | ([], _) => None
    | (ds, _) => Some ds
    end
  else None.

Fixpoint vertexMatch (s : text) : option text :=
  match matchHere s with
  | Some ds => Some ds
  | None => match s with
            | [] => None
            | _ :: s' => vertexMatch s'
            end
  end.

Inductive chunkError := NoVertexCountFound | ReadFailed.

(** One iteration of the verification loop. *)
Definition verifyStep (chunks : gmap nat text)
    (acc : Z * list (nat * chunkError)) (i : nat) : Z * list (nat * chunkError) :=
  let '(verifiedVertices, failedChunks) := acc in
  match chunks !! i with
  | Some chunkContent =>
      match vertexMatch chunkContent with
      | Some ds => (verifiedVertices + Str.decimal ds, failedChunks)
      | None => (verifiedVertices, failedChunks ++ [(i, NoVertexCountFound)])
      end
  | None => (verifiedVertices, failedChunks ++ [(i, ReadFailed)])
  end.

Record splitResult := mkSplitResult {
  numChunks : number;
  totalVertices : Z;
  processedVertices : number;
  failedChunks : list (nat * chunkError)
}.

(** The verification pass and what follows it in [split]. *)
Definition verifySplit (st : SplatProcesser) (fs : files) (n : nat)
    (numChunks totalProcessedVertices : number) : files * outcome splitResult :=
  let '(verifiedVertices, failedChunks) :=
    fold_left (verifyStep (plyChunks fs)) (seq 0 n) (0, []) in
  let vertexDiff := JS.abs (JS.sub (vertexCount st) (Num verifiedVertices)) in
  if JS.lt (Num 0) vertexDiff then
    (fs, Thrown (VertexCountMismatch (vertexCount st) verifiedVertices))
  else
    (mkFiles (inputFile fs) (plyChunks fs) (plyGrouped fs) (Some st)
       (otherChunkEntries fs) (chunksMetadata fs),
     Returned (mkSplitResult numChunks verifiedVertices totalProcessedVertices
                 failedChunks)).

(** [split(targetSizeBytes)] *)
Definition split (st : SplatProcesser) (fs : files) (targetSizeBytes : Z)
  : SplatProcesser * files * outcome splitResult :=
  let verticesPerChunk := verticesPerChunk st targetSizeBytes in
  let '(st, parts) := readPlyHeader st (inputFile fs) in
  let vertexData := vertexData parts in
  let numChunks := JS.ceilDiv (vertexCount st) verticesPerChunk in
  match iterations numChunks with
  | None => (st, fs, Diverged)
  | Some n =>
      let '(chunks, totalProcessedVertices) :=
        fold_left (emitChunk st vertexData verticesPerChunk) (seq 0 n)
          (plyChunks fs, Num 0) in
      let fs := mkFiles (inputFile fs) chunks (plyGrouped fs) (headerInfo fs)
                  (otherChunkEntries fs) (chunksMetadata fs) in
      let '(fs, r) := verifySplit st fs n numChunks totalProcessedVertices in
      (st, fs, r)
  end.

(** ** Merging *)

(** [readChunkPly(chunkPath)] on the contents of the chunk file; as for
    [readPlyHeader], the index found in the decoded string is the byte
    offset of the cut when the header is ASCII. *)
Definition readChunkPly (data : text) : plyParts :=
  let headerEndIndex := headerEnd data in
  {| headerEndIndex := headerEndIndex;
     vertexData := drop (Z.to_nat headerEndIndex) data |}.

(** The loop of [mergeChunks]: a chunk file that is missing makes
    [readFileSync] throw. *)
Fixpoint mergeLoop (chunks : gmap nat text) (chunkIndices : list nat)
    (totalVertices : Z) (mergedVertexData : text) : error + Z * text :=
  match chunkIndices with
  | [] => inr (totalVertices, mergedVertexData)
  | index :: rest =>
      match chunks !! index with
      | None => inl (ENOENT index)
      | Some data =>
          let mergedVertexData := mergedVertexData ++ vertexData (readChunkPly data) in
          let totalVertices :=
            match vertexMatch data with
            | Some ds => totalVertices + Str.decimal ds
            | None => totalVertices
            end in
          mergeLoop chunks rest totalVertices mergedVertexData
      end
  end.

(** [mergeChunks(chunkIndices, outputPath)], the output path being that of
    group [groupId]; it returns the summed vertex count. *)
Definition mergeChunks (st : SplatProcesser) (fs : files)
    (chunkIndices : list nat) (groupId : nat) : files * outcome Z :=
  match mergeLoop (plyChunks fs) chunkIndices 0 [] with
  | inl e => (fs, Thrown e)
  | inr (totalVertices, mergedVertexData) =>
      let mergedHeader := createChunkHeader st (Num totalVertices) in
      (mkFiles (inputFile fs) (plyChunks fs)
         (<[groupId := mergedHeader ++ mergedVertexData]> (plyGrouped fs))
         (headerInfo fs) (otherChunkEntries fs) (chunksMetadata fs),
       Returned totalVertices)
  end.

(** ** Grouping *)

(** The index lists that the loop [for (i = 0; i < length; i +=
    effectiveGroupSize)] builds, in order; [fuel] bounds the iterations. *)
Fixpoint groupsFrom (fuel i effectiveGroupSize len : nat) : list (list nat) :=
  match fuel with
  | O => []
  | S fuel' =>
      if (i <? len)%nat then
        seq i (Nat.min effectiveGroupSize (len - i))
          :: groupsFrom fuel' (i + effectiveGroupSize) effectiveGroupSize len
      else []
  end.

Definition effectiveGroupSize (groupSize : Z) (len : nat) : Z :=
  if groupSize =? -1 then Z.of_nat len else groupSize.

(** The groups of [createGroups(groupSize)] over [len] chunk files; the loop
    does not end when files exist and the step is not positive. *)
Definition groupIndices (groupSize : Z) (len : nat) : option (list (list nat)) :=
  let egs := effectiveGroupSize groupSize len in
  if (0 <? len)%nat && (egs <=? 0) then None
  else Some (groupsFrom len 0 (Z.to_nat egs) len).

Record groupsResult := mkGroupsResult {
  groups : list groupMeta;
  statsTotal : number;
  statsSuccess : nat;
  statsFailed : nat;
  failedGroups : list nat
}.

(** One iteration of the loop of [createGroups]: merge, then hand the merged
    file to the external loader [loadPly]. *)
Definition groupStep (loadPly : text -> bool) (st : SplatProcesser)
    (acc : files * list groupMeta * list nat) (g : nat * list nat)
  : files * list groupMeta * list nat :=
  let '(fs, groupsMetadata, failed) := acc in
  let '(groupId, indices) := g in
  match mergeChunks st fs indices groupId with
  | (fs', Returned vertexCount) =>
      let isValid :=
        match plyGrouped fs' !! groupId with
        | Some merged => loadPly merged
        | None => false
        end in
      if isValid
      then (fs', groupsMetadata ++ [mkGroupMeta groupId vertexCount indices], failed)
      else (fs', groupsMetadata, failed ++ [groupId])
  | (fs', _) => (fs', groupsMetadata, failed ++ [groupId])
  end.

(** [s.padStart(targetLength, pad)] for a one-character pad. *)
Definition padStart (targetLength : nat) (pad : ascii) (s : text) : text :=
  repeat pad (targetLength - length s) ++ s.

(** The name of chunk [index] in the chunk directory,
    [`chunk_${index.toString().padStart(6, '0')}.ply`]. *)
Definition chunkName (index : nat) : text :=
  Str.lit "chunk_" ++ padStart 6 "0" (Str.ofZ (Z.of_nat index))
  ++ Str.lit ".ply".

(** [readdirSync(this.dirs.plyChunks).filter(f => f.endsWith('.ply'))] *)
Definition plyEntries (fs : files) : list text :=
  filter (fun f => Str.endsWith (Str.lit ".ply") f = true)
    (map chunkName (map fst (map_to_list (plyChunks fs)))
     ++ otherChunkEntries fs).

(** Whether [a.match(/\d+/)] finds a match. *)
Definition hasDigit (name : text) : bool := existsb Str.isDigit name.

(** Whether the [sort] of [createGroups] throws.  The comparator is called
    as soon as there are two names, on every name at least once before the
    sort can end, and [a.match(/\d+/)[0]] throws a [TypeError] when the name
    has no digit. *)
Definition sortThrows (names : list text) : bool :=
  (2 <=? length names)%nat && negb (forallb hasDigit names).

(** [createGroups(groupSize)] *)
Definition createGroups (loadPly : text -> bool) (st : SplatProcesser)
    (fs : files) (groupSize : Z) : SplatProcesser * files * outcome groupsResult :=
  let loaded :=
    match originalHeader st with
    | [] => headerInfo fs
    | _ :: _ => Some st
    end in
  match loaded with
  | None => (st, fs, Thrown HeaderInfoNotFound)
  | Some st =>
      let files := plyEntries fs in
      if sortThrows files then (st, fs, Thrown NullMatch)
      else
        let len := length files in
        let egs := effectiveGroupSize groupSize len in
        let totalGroups := JS.ceilDiv (Num (Z.of_nat len)) (Num egs) in
        match groupIndices groupSize len with
        | None => (st, fs, Diverged)
        | Some gs =>
            let '(fs, groupsMetadata, failed) :=
              fold_left (groupStep loadPly st) (imap (fun k g => (k, g)) gs)
                (fs, [], []) in
            let metadata :=
              Metadata.mk len totalGroups groupSize egs
                (length groupsMetadata) failed groupsMetadata in
            (st,
             mkFiles (inputFile fs) (plyChunks fs) (plyGrouped fs)
               (headerInfo fs) (otherChunkEntries fs) (Some metadata),
             Returned (mkGroupsResult groupsMetadata totalGroups
                         (length groupsMetadata) (length failed) failed))
        end
  end.

(** ** The driver of [scripts/preprocess.js] *)

Definition runSplit (st : SplatProcesser) (fs : files) (targetSizeBytes : Z)
  : SplatProcesser * files * outcome splitResult :=
  let '(st, _) := readPlyHeader st (inputFile fs) in
  split st fs targetSizeBytes.

Definition runMerge (loadPly : text -> bool) (st : SplatProcesser) (fs : files)
    (groupSize : Z) : SplatProcesser * files * outcome groupsResult :=
  createGroups loadPly st fs groupSize.


(** ** The configuration and the driver *)

Module Config.

(** The configuration object of [configs/preprocess.config.js] with its
    [split] and [merge] sections.  A field is absent ([None], read as
    [undefined]) or has the type that the file documents: the operation and
    the paths are strings, the two sizes are integers. *)
Record splitSection := mkSplit {
  targetSizeBytes : option Z;
  inputFile : option text
}.

Record mergeSection := mkMerge {
  groupSize : option Z;
  inputDir : option text
}.

Record t := mk {
  operation : option text;
  split : option splitSection;
  merge : option mergeSection
}.

End Config.

(** The errors of [validateConfig], one per [throw] that such a
    configuration can reach (the check of [merge.inputDir] rejects a value
    that is not a string, which these fields cannot hold). *)
Inductive configError :=
| InvalidOperation
| SplitMissing
| InvalidTargetSizeBytes
| InvalidInputFile
| MergeMissing
| GroupSizeMissing
| InvalidGroupSize.

(** Truthiness of a field: [undefined], the empty string and 0 are falsy. *)
Definition truthyText (x : option text) : bool :=
  match x with Some (_ :: _) => true | _ => false end.

Definition truthyInt (x : option Z) : bool :=
  match x with Some z => negb (z =? 0) | None => false end.

(** [x <= 0]; [undefined <= 0] is false. *)
Definition notPositive (x : option Z) : bool :=
  match x with Some z => z <=? 0 | None => false end.

(** [config.operation === name] *)
Definition operationIs (config : Config.t) (name : string) : bool :=
  bool_decide (Config.operation config = Some (Str.lit name)).

(** [validateConfig(config)]: the error thrown, or the value returned. *)
Definition validateConfig (config : Config.t) : configError + bool :=
  if negb (truthyText (Config.operation config))
     || negb (operationIs config "split" || operationIs config "merge"
              || operationIs config "all")
  then inl InvalidOperation
  else
    let splitError :=
      if operationIs config "split" || operationIs config "all" then
        match Config.split config with
        | None => Some SplitMissing
        | Some section =>
            if negb (truthyInt (Config.targetSizeBytes section))
               || notPositive (Config.targetSizeBytes section)
            then Some InvalidTargetSizeBytes
            else if negb (truthyText (Config.inputFile section))
            then Some InvalidInputFile
            else None
        end
      else None in
    match splitError with
    | Some e => inl e
    | None =>
        if operationIs config "merge" || operationIs config "all" then
          match Config.merge config with
          | None => inl MergeMissing
          | Some section =>
              if negb (truthyInt (Config.groupSize section))
              then inl GroupSizeMissing
              else if negb (bool_decide (Config.groupSize section = Some (-1)))
                      && notPositive (Config.groupSize section)
              then inl InvalidGroupSize
              else inr true
          end
        else inr true
    end.

(** How the process of [scripts/preprocess.js] ends: [main] runs to its
    end, it calls [process.exit(1)] from its [catch], or a loop never
    ends. *)
Inductive exitStatus := Completed | Exited (code : Z) | Unfinished.

(** What an awaited operation means for [main]: a rejection is caught. *)
Definition caught {A} (o : outcome A) : option exitStatus :=
  match o with
  | Returned _ => None
  | Thrown _ => Some (Exited 1)
  | Diverged => Some Unfinished
  end.

(** [main()] on the configuration and the files.  Reading a field of a
    missing section throws a [TypeError], which is caught like any other
    error; a section without its size is not reached, [validateConfig]
    having thrown. *)
Definition main (loadPly : text -> bool) (config : Config.t) (fs : files)
  : files * exitStatus :=
  match validateConfig config with
  | inl _ => (fs, Exited 1)
  | inr _ =>
      let processer := constructor in
      let '(processer, fs, stopped) :=
        if operationIs config "split" || operationIs config "all" then
          match Config.split config ≫= Config.targetSizeBytes with
          | Some targetSizeBytes =>
              let '(processer, fs, result) :=
                runSplit processer fs targetSizeBytes in
              (processer, fs, caught result)
          | None => (processer, fs, Some (Exited 1))
          end
        else (processer, fs, None) in
      match stopped with
      | Some status => (fs, status)
      | None =>
          if operationIs config "merge" || operationIs config "all" then
            match Config.merge config ≫= Config.groupSize with
            | Some groupSize =>
                let '(_, fs, result) :=
                  runMerge loadPly processer fs groupSize in
                (fs, default Completed (caught result))
            | None => (fs, Exited 1)
            end
          else (fs, Completed)
      end
  end.

(** A [split] section with a positive size and a non-empty input path, and
    a [merge] section with a group size that is -1 or positive. *)
Definition splitSectionOk (config : Config.t) : Prop :=
  exists target file,
    Config.split config ≫= Config.targetSizeBytes = Some target
    /\ 0 < target
    /\ Config.split config ≫= Config.inputFile = Some file
    /\ file <> [].

Definition mergeSectionOk (config : Config.t) : Prop :=
  exists size,
    Config.merge config ≫= Config.groupSize = Some size
    /\ (size = -1 \/ 0 < size).

(** The configuration that the file exports. *)
Definition config : Config.t :=
  Config.mk (Some (Str.lit "all"))
    (Some (Config.mkSplit (Some 566) (Some (Str.lit "inputs/scene.ply"))))
    (Some (Config.mkMerge (Some 500)
             (Some (Str.lit "outputs/plysplit/chunks_decoded")))).


(** ** Vocabulary of the statements *)

(** The vertex count that a chunk file declares, when the pattern
    [/element vertex (\d+)/] finds one in its text. *)
Definition declaredCount (data : text) : option Z :=
  Str.decimal <$> vertexMatch data.

(** The payload of a chunk file: what follows its header terminator. *)
Definition chunkPayload (data : text) : text := vertexData (readChunkPly data).

(** The entry of [failedChunks] for chunk [i], if the verification pass
    cannot read its count. *)
Definition failureOf (chunks : gmap nat text) (i : nat) : list (nat * chunkError) :=
  match chunks !! i with
  | None => [(i, ReadFailed)]
  | Some data =>
      match declaredCount data with
      | None => [(i, NoVertexCountFound)]
      | Some _ => []
      end
  end.

(** The sum of the vertex counts that can be read from the chunks [0..n). *)
Definition readableSum (chunks : gmap nat text) (n : nat) : Z :=
  foldr Z.add 0
    (map (fun i => default 0 (chunks !! i ≫= declaredCount)) (seq 0 n)).

(** The header text made of the lines [hl] followed by the terminator
    line. *)
Definition headerOf (hl : list text) : text :=
  concat (map (fun l => l ++ [Str.nl]) hl) ++ end_header.

(** A header line that is not itself a terminator. *)
Definition plainLine (l : text) : Prop :=
  (Str.nl ∉ l) /\ Str.endsWith (Str.lit "end_header") l = false.

(** The first vertex of chunk [i] when [count] vertices are cut into chunks
    of [v], and its first byte when a vertex has [w] bytes. *)
Definition firstVertex (count v : Z) (i : nat) : Z :=
  Z.min (Z.of_nat i * v) count.
Definition firstByte (count v w : Z) (i : nat) : nat :=
  Z.to_nat (firstVertex count v i * w).

(** The file of chunk [i]: the header rewritten with the size of the chunk,
    then the bytes of its vertices. *)
Definition chunkFile (st : SplatProcesser) (vertexData : text) (count v w : Z)
    (i : nat) : text :=
  createChunkHeader st (Num (firstVertex count v (S i) - firstVertex count v i))
  ++ take (firstByte count v w (S i) - firstByte count v w i)
       (drop (firstByte count v w i) vertexData).

(** The number of chunks, [ceil(count / v)]. *)
Definition chunkTotal (count v : Z) : nat := Z.to_nat (- (- count / v)).

(** A normal binary64 number of sign [s] whose magnitude, the [k] with
    [2^(k-1) <= |x| < 2^k], lies between [lo] and [hi]. *)
Definition magnitudeIn (s : bool) (lo hi : Z) (x : spec_float) : Prop :=
  exists m e, x = S754_finite s m e
    /\ Zpos (digits2_pos m) = prec /\ lo <= prec + e <= hi.

(** The chunk size as the specification words it: the available size
    divided by the record width times 0.9 times 4/3. *)
Definition claimedVerticesPerChunk (st : SplatProcesser) (targetSizeBytes : Z)
  : number :=
  JS.max (Num 1)
    (F64.floor
       (F64.ofZ (availableSize st targetSizeBytes) /
        (F64.ofNumber (bytesPerVertex st) * EXPECTED_COMPRESSION_RATE
         * (4 / 3)))%float).

(** The state of the sizing scenario: 10,000 vertices of eight 4-byte
    properties behind a header of 120 bytes. *)
Definition scenario : SplatProcesser :=
  {| vertexCount := Num 10000;
     propertyTypes :=
       map (fun name => (Str.lit name, Str.lit "float"))
         ["x"; "y"; "z"; "nx"; "ny"; "nz"; "opacity"; "scale_0"]%string;
     maxShDegree := 0;
     originalHeader := repeat "x"%char 120 |}.

(** Whether the lines [ls] end with an empty line after at least one other
    line: the shape of a text that ends with the separator. *)
Fixpoint endsEmpty (ls : list text) : bool :=
  match ls with
  | [] => false
  | l :: ls' =>
      match ls' with
      | [] => false
      | [[]] => true
      | _ => endsEmpty ls'
      end
  end.

(** The number of vertices of chunk [i], as the emission loop of [split]
    computes it, and the file that the loop writes for it. *)
Definition chunkVertices (st : SplatProcesser) (verticesPerChunk : number)
    (i : nat) : number :=
  JS.sub
    (JS.min (JS.mul (Num (Z.of_nat i + 1)) verticesPerChunk) (vertexCount st))
    (JS.mul (Num (Z.of_nat i)) verticesPerChunk).

Definition emittedChunk (st : SplatProcesser) (vertexData : text)
    (verticesPerChunk : number) (i : nat) : text :=
  let len := Z.of_nat (length vertexData) in
  let startIdx := JS.mul (Num (Z.of_nat i)) verticesPerChunk in
  let endIdx := JS.min (JS.mul (Num (Z.of_nat i + 1)) verticesPerChunk)
                  (vertexCount st) in
  createChunkHeader st (chunkVertices st verticesPerChunk i)
  ++ slice vertexData (byteIndex startIdx len (vertexCount st))
       (byteIndex endIdx len (vertexCount st)).

(** The file that [mergeChunks] writes for the chunk indices [ids]; none when
    one of the chunk files is missing. *)
Definition mergedFile (st : SplatProcesser) (chunks : gmap nat text)
    (ids : list nat) : option text :=
  match mergeLoop chunks ids 0 [] with
  | inr (totalVertices, mergedVertexData) =>
      Some (createChunkHeader st (Num totalVertices) ++ mergedVertexData)
  | inl _ => None
  end.

(** The processer that [createGroups] works with: the caller's when it has
    read a header, else the one stored in [header_info.json]. *)
Definition loadedProcesser (st : SplatProcesser) (fs : files)
  : option SplatProcesser :=
  match originalHeader st with
  | [] => headerInfo fs
  | _ :: _ => Some st
  end.

(** Whether the group merged from the chunk indices [ids] ends in [groups]:
    its merge returns and the external loader accepts the merged file. *)
Definition groupSucceeds (loadPly : text -> bool) (st : SplatProcesser)
    (chunks : gmap nat text) (ids : list nat) : bool :=
  match mergedFile st chunks ids with
  | Some file => loadPly file
  | None => false
  end.

(** The vertex count that [mergeChunks] returns for the chunk indices
    [ids], and the metadata entry of a group that succeeds. *)
Definition mergedCount (chunks : gmap nat text) (ids : list nat) : Z :=
  match mergeLoop chunks ids 0 [] with
  | inr (totalVertices, _) => totalVertices
  | inl _ => 0
  end.

Definition metaOf (chunks : gmap nat text) (kg : nat * list nat) : groupMeta :=
  mkGroupMeta kg.1 (mergedCount chunks kg.2) kg.2.

(** The property that the loop of [readPlyHeader] records for a header
    line: its name and its type, when the line declares one. *)
Definition declaredProperty (line : text) : option (text * text) :=
  let trimmedLine := Str.trim line in
  if Str.includes (Str.lit "element vertex") trimmedLine then None
  else if Str.startsWith (Str.lit "property") trimmedLine then
    let parts := Str.split Str.space trimmedLine in
    match parts !! 2%nat, parts !! 1%nat with
    | Some propName, Some propType => Some (propName, propType)
    | _, _ => None
    end
  else None.

(** A sequence of [Map.prototype.set] calls. *)
Definition setAll (entries : list (text * text)) (m : list (text * text))
  : list (text * text) :=
  fold_left (fun m kv => mapSet kv.1 kv.2 m) entries m.

(** The type of the last declaration of the property [name] among the
    header lines. *)
Definition lastDeclared (name : text) (lines : list text) : option text :=
  snd <$> last (filter (fun kv => kv.1 = name) (omap declaredProperty lines)).

(** The number that a vertex-count line sets: [parseInt] of the third of
    its space-separated words. *)
Definition countOfLine (line : text) : number :=
  JS.parseIntOpt (Str.split Str.space (Str.trim line) !! 2%nat).

(** A count line, as [createChunkHeader] writes it. *)
Definition countLine (n : Z) : text := Str.lit "element vertex " ++ Str.ofZ n.

(** What a chunk file made of the header lines [hl], the terminator line
    and the bytes [payload] declares: the count of the first line of [hl]
    that holds the text "element vertex", when that line is a count line;
    nothing, when neither a line of [hl] nor [payload] holds the text. *)
Inductive chunkCount (hl : list text) (payload : text) : option Z -> Prop :=
| counted pre n post :
    hl = pre ++ countLine n :: post -> 0 <= n ->
    Forall (fun l => Str.includes (Str.lit "element vertex") l = false) pre ->
    chunkCount hl payload (Some n)
| uncounted :
    Forall (fun l => Str.includes (Str.lit "element vertex") l = false) hl ->
    Str.includes (Str.lit "element vertex") payload = false ->
    chunkCount hl payload None.

(** The parts of a chunk file: its header lines, its payload and the count
    that it declares. *)
Record chunkShape := mkShape {
  shapeLines : list text;
  shapePayload : text;
  shapeCount : option Z
}.

Definition shapeFile (c : chunkShape) : text :=
  headerOf (shapeLines c) ++ shapePayload c.

(** No entry of the chunk directory other than the chunk files ends in
    ".ply". *)
Definition noOtherPly (others : list text) : Prop :=
  Forall (fun f => Str.endsWith (Str.lit ".ply") f = false) others.

(** Text whose bytes are ASCII.  [toString('utf8')] decodes such bytes to
    the characters of the same codes, one per byte, and [Buffer.from] encodes
    them back; there an index into the decoded text is a byte offset. *)
Definition asciiText (s : text) : Prop :=
  Forall (fun a => Str.isAscii a = true) s.

(** The double [x] is the integer [z] of [0, 2^53): the positive zero, or a
    normal number whose mantissa is [z] shifted to 53 bits. *)
Definition holdsInteger (x : spec_float) (z : Z) : Prop :=
  (z = 0 /\ x = S754_zero false)
  \/ exists (m : positive) (e : Z),
       x = S754_finite false m e
       /\ Zpos (digits2_pos m) = prec /\ - (prec - 1) <= e <= 0
       /\ Zpos m = z * 2 ^ (- e).

(** The record [mrs] holds the exact value [N / D] shifted right by [k]
    bits: its mantissa is the integer part, its round bit tells whether the
    rest is at least one half, its sticky bit whether the rest is neither 0
    nor one half. *)
Definition shifted (N D k : Z) (mrs : shr_record) : Prop :=
  let R := N mod (2 ^ k * D) in
  shr_m mrs = N / (2 ^ k * D)
  /\ shr_r mrs = (2 ^ k * D <=? 2 * R)
  /\ shr_s mrs = negb (R =? 0) && negb (2 * R =? 2 ^ k * D).


(** ** Sample inputs *)

Definition commentedHeader : text :=
  Str.join Str.nl (map Str.lit
    ["ply"; "format binary_little_endian 1.0";
     "comment element vertex count follows"; "element vertex 2";
     "property float x"; "end_header"; ""]%string).

Definition noTerminator : text := Str.lit "ply element vertex 3 property float x".

Definition oneRest : text :=
  Str.join Str.nl (map Str.lit
    ["ply"; "element vertex 1"; "property float x"; "property float f_rest_0";
     "end_header"; ""]%string).

Definition chunkWithCount : text :=
  Str.lit "element vertex 2" ++ Str.nl :: end_header ++ Str.lit "aabb".
Definition chunkWithoutCount : text :=
  Str.lit "ply" ++ Str.nl :: end_header ++ Str.lit "cc".

(** A chunk file without count line whose payload holds a match of the
    pattern of the count. *)
Definition chunkCountInPayload : text :=
  Str.lit "ply" ++ Str.nl :: end_header ++ Str.lit "element vertex 7".

Definition emptyCloud : list text :=
  map Str.lit ["ply"; "element vertex 0"; "property float x"]%string.

Definition smallCloud : list text :=
  map Str.lit
    ["ply"; "format binary_little_endian 1.0"; "element vertex 3";
     "property float x"; "property float y"; "property uchar red"]%string.

Definition smallPayload : text := Str.lit "123456789abcdefghiABCDEFGHI".

(** Eleven vertices of one byte each declared over fifteen bytes. *)
Definition oddCloud : list text :=
  map Str.lit ["ply"; "element vertex 11"; "property uchar x"]%string.

Definition oddPayload : text := Str.lit "0123456789abcde".

(** A header whose vertex count is no numeral. *)
Definition unreadableCount : list text :=
  map Str.lit ["ply"; "element vertex many"; "property float x"]%string.

(** A header with a comment that mentions the vertex count after the line
    that declares it. *)
Definition trailingComment : text :=
  Str.join Str.nl (map Str.lit
    ["ply"; "element vertex 2"; "comment element vertex count is above";
     "property float x"; "end_header"; ""]%string).

(** A header with a property whose type is the name of an inherited
    member. *)
Definition inheritedType : list text :=
  map Str.lit ["ply"; "element vertex 3"; "property toString x"]%string.

(** * Properties *)

(** Closed decidable statements are settled by evaluation. *)
Ltac compute_decide := apply (bool_decide_unpack _); vm_compute; exact I.

(** ** Strings *)

Example split_lines :
  Str.split Str.nl (Str.lit "ab" ++ Str.nl :: Str.lit "c" ++ [Str.nl])
  = [Str.lit "ab"; Str.lit "c"; []].
Proof. reflexivity. Qed.

Example parseInt_values :
  JS.parseInt (Str.lit " -12ab") = Num (-12)
  /\ JS.parseInt (Str.lit "0x1f") = Num 31
  /\ JS.parseInt (Str.lit "x") = NaN
  /\ JS.parseInt (Str.lit "0x") = NaN.
Proof. vm_compute. done. Qed.

Section StrLemmas.

Implicit Types (c a : ascii) (s p l : text) (ls : list text).

Lemma ascii_eqb_true a b : Ascii.eqb a b = true <-> a = b.
Proof. apply Ascii.eqb_eq. Qed.

Lemma startsWith_spec p s : Str.startsWith p s = true <-> exists r, s = p ++ r.
Proof.
  revert s. induction p as [|a p IH]; intros s; simpl.
  - split; eauto.
  - destruct s as [|b s]; simpl.
    + split; [discriminate | intros [r Hr]; discriminate].
    + rewrite andb_true_iff, ascii_eqb_true, IH. split.
      * intros [-> [r ->]]. eauto.
      * intros [r Hr]. injection Hr as -> ->. eauto.
Qed.

Lemma startsWith_app p r : Str.startsWith p (p ++ r) = true.
Proof. apply startsWith_spec. eauto. Qed.

Lemma endsWith_spec p s : Str.endsWith p s = true <-> exists r, s = r ++ p.
Proof.
  unfold Str.endsWith. rewrite startsWith_spec. split.
  - intros [r Hr]. exists (rev r).
    rewrite <- (rev_involutive s), Hr, rev_app_distr, rev_involutive. done.
  - intros [r ->]. exists (rev r). apply rev_app_distr.
Qed.

Lemma endsWith_snoc c s : Str.endsWith [c] (s ++ [c]) = true.
Proof. apply endsWith_spec. eauto. Qed.

Lemma split_nonempty c s : Str.split c s <> [].
Proof.
  destruct s as [|a s]; simpl; [done|].
  destruct (Ascii.eqb a c); [done|]. destruct (Str.split c s); done.
Qed.

Lemma join_cons c l ls :
  ls <> [] -> Str.join c (l :: ls) = l ++ c :: Str.join c ls.
Proof. destruct ls; [done|]. reflexivity. Qed.

Lemma join_split c s : Str.join c (Str.split c s) = s.
Proof.
  induction s as [|a s IH]; simpl; [done|].
  destruct (Ascii.eqb a c) eqn:E.
  - apply ascii_eqb_true in E as ->.
    rewrite join_cons by apply split_nonempty. simpl. by rewrite IH.
  - pose proof (split_nonempty c s) as Hne.
    destruct (Str.split c s) as [|l ls]; [done|].
    rewrite <- IH. destruct ls; reflexivity.
Qed.

Lemma split_free c s : Forall (fun l => c ∉ l) (Str.split c s).
Proof.
  induction s as [|a s IH]; simpl.
  - repeat constructor. apply not_elem_of_nil.
  - destruct (Ascii.eqb a c) eqn:E.
    + constructor; [apply not_elem_of_nil | done].
    + destruct (Str.split c s) as [|l ls]; inversion IH; subst.
      * repeat constructor. rewrite list_elem_of_singleton. intros ->.
        by rewrite Ascii.eqb_refl in E.
      * constructor; [|done]. rewrite elem_of_cons. intros [->|?]; [|done].
        by rewrite Ascii.eqb_refl in E.
Qed.

Lemma split_app_free c l s :
  c ∉ l -> Str.split c (l ++ c :: s) = l :: Str.split c s.
Proof.
  induction l as [|a l IH]; intros Hl; simpl.
  - by rewrite Ascii.eqb_refl.
  - apply not_elem_of_cons in Hl as [Hac Hl].
    destruct (Ascii.eqb a c) eqn:E; [apply ascii_eqb_true in E; congruence|].
    by rewrite IH.
Qed.

Lemma split_free_id c l : c ∉ l -> Str.split c l = [l].
Proof.
  induction l as [|a l IH]; intros Hl; simpl; [done|].
  apply not_elem_of_cons in Hl as [Hac Hl].
  destruct (Ascii.eqb a c) eqn:E; [apply ascii_eqb_true in E; congruence|].
  by rewrite IH.
Qed.

Lemma split_join c ls :
  ls <> [] -> Forall (fun l => c ∉ l) ls -> Str.split c (Str.join c ls) = ls.
Proof.
  induction ls as [|l ls IH]; [done|]. intros _ Hf.
  inversion Hf as [|? ? Hl Hls]; subst.
  destruct ls as [|l2 ls].
  - simpl. by apply split_free_id.
  - rewrite join_cons by done. rewrite split_app_free by done.
    by rewrite IH.
Qed.

Lemma join_snoc_empty c ls :
  ls <> [] -> Str.join c (ls ++ [[]]) = Str.join c ls ++ [c].
Proof.
  induction ls as [|l ls IH]; [done|]. intros _.
  destruct ls as [|l2 ls].
  - reflexivity.
  - change ((l :: l2 :: ls) ++ [[]]) with (l :: ((l2 :: ls) ++ [[]])).
    rewrite join_cons by (by destruct ls).
    rewrite join_cons by done. rewrite IH by done.
    by rewrite <- app_assoc.
Qed.

Lemma join_nil_inv c ls : ls <> [] -> Str.join c ls = [] -> ls = [[]].
Proof.
  destruct ls as [|l [|l2 ls]]; [done| |]; intros _; simpl.
  - by intros ->.
  - intros H. by destruct l.
Qed.

Lemma startsWith1_app c x y :
  x <> [] -> Str.startsWith [c] (x ++ y) = Str.startsWith [c] x.
Proof. destruct x; [done|]. reflexivity. Qed.

Lemma endsWith_cons_sep c l s :
  Str.endsWith [c] (l ++ c :: s) =
  match s with [] => true | _ => Str.endsWith [c] s end.
Proof.
  destruct s as [|b s].
  - apply endsWith_snoc.
  - unfold Str.endsWith.
    change (l ++ c :: b :: s) with (l ++ [c] ++ (b :: s)).
    rewrite app_assoc, rev_app_distr. apply startsWith1_app.
    intros H%(f_equal length). rewrite length_rev in H. done.
Qed.

Lemma endsEmpty_cons l ls :
  endsEmpty ls = true -> endsEmpty (l :: ls) = true.
Proof. destruct ls as [|[|? ?] [|? ?]]; done. Qed.

Lemma endsWith_join c ls x :
  last ls = Some x -> c ∉ x ->
  Str.endsWith [c] (Str.join c ls) = true -> endsEmpty ls = true.
Proof.
  intros Hlast Hx. induction ls as [|l ls IH]; [done|].
  destruct ls as [|l2 ls].
  - simpl in *. injection Hlast as ->. intros [r ->]%endsWith_spec.
    exfalso. apply Hx. set_solver.
  - rewrite last_cons_cons in Hlast.
    rewrite join_cons by done. rewrite endsWith_cons_sep.
    destruct (Str.join c (l2 :: ls)) eqn:E.
    + apply join_nil_inv in E; [|done]. injection E as -> ->. done.
    + intros H. apply endsEmpty_cons, IH; done.
Qed.

Lemma endsEmpty_join c ls :
  endsEmpty ls = true -> Str.endsWith [c] (Str.join c ls) = true.
Proof.
  induction ls as [|l ls IH]; [done|].
  destruct ls as [|l2 ls]; [done|].
  rewrite join_cons by done. rewrite endsWith_cons_sep.
  destruct (Str.join c (l2 :: ls)) eqn:E; [done|].
  intros H. apply IH. simpl in H |- *.
  destruct l2, ls; done.
Qed.

End StrLemmas.

Section Numerals.

Lemma isDigit_digit (k : N) :
  (k < 10)%N -> Str.isDigit (ascii_of_N (48 + k)) = true.
Proof.
  intros Hk. unfold Str.isDigit, nat_of_ascii.
  rewrite N_ascii_embedding by lia.
  apply andb_true_iff. split; apply Nat.leb_le; lia.
Qed.

Lemma digitVal_digit (k : N) :
  (k < 10)%N -> Str.digitVal (ascii_of_N (48 + k)) = Z.of_N k.
Proof.
  intros Hk. unfold Str.digitVal, nat_of_ascii.
  rewrite N_ascii_embedding by lia. lia.
Qed.

Lemma digitsRev_digits fuel n :
  Forall (fun a => Str.isDigit a = true) (Str.digitsRev fuel n).
Proof.
  revert n. induction fuel as [|fuel IH]; intros n; simpl; [constructor|].
  assert (Hd : Str.isDigit (ascii_of_N (48 + n mod 10)) = true)
    by (apply isDigit_digit, N.mod_lt; done).
  destruct (n <? 10)%N; repeat constructor; auto.
Qed.

Lemma digitsRev_nonempty fuel n : Str.digitsRev (S fuel) n <> [].
Proof. simpl. destruct (n <? 10)%N; done. Qed.

Lemma ofN_digits n : Forall (fun a => Str.isDigit a = true) (Str.ofN n).
Proof.
  unfold Str.ofN. apply Forall_forall. intros a Ha.
  apply list_elem_of_In, in_rev, list_elem_of_In in Ha.
  revert a Ha. apply Forall_forall, digitsRev_digits.
Qed.

Lemma ofN_nonempty n : Str.ofN n <> [].
Proof.
  unfold Str.ofN. intros H%(f_equal length). rewrite length_rev in H.
  by apply (digitsRev_nonempty (N.to_nat (N.log2 n)) n), nil_length_inv.
Qed.

(** The value of a numeral given least significant digit first. *)
Lemma decimal_rev ds :
  Str.decimal (rev ds) =
  fold_right (fun a acc => 10 * acc + Str.digitVal a) 0 ds.
Proof.
  unfold Str.decimal. symmetry. rewrite <- (rev_involutive ds) at 1.
  by rewrite fold_left_rev_right.
Qed.

Lemma digitsRev_value fuel n :
  (n < 2 ^ N.of_nat fuel)%N ->
  fold_right (fun a acc => 10 * acc + Str.digitVal a) 0 (Str.digitsRev fuel n)
  = Z.of_N n.
Proof.
  revert n. induction fuel as [|fuel IH]; intros n Hn.
  - simpl in *. lia.
  - assert (Hlt : (n mod 10 < 10)%N) by (apply N.mod_lt; done).
    simpl. destruct (n <? 10)%N eqn:E; simpl.
    + apply N.ltb_lt in E. rewrite digitVal_digit by done.
      rewrite N.mod_small by done. lia.
    + rewrite digitVal_digit by done. rewrite IH.
      * pose proof (N.div_mod n 10). lia.
      * rewrite Nat2N.inj_succ, N.pow_succ_r' in Hn.
        apply N.Div0.div_lt_upper_bound. lia.
Qed.

Lemma decimal_ofN n : Str.decimal (Str.ofN n) = Z.of_N n.
Proof.
  unfold Str.ofN. rewrite decimal_rev. apply digitsRev_value.
  rewrite Nat2N.inj_succ, N2Nat.id.
  destruct n as [|p]; [done|]. apply N.log2_spec. done.
Qed.

Lemma toString_free n : Str.nl ∉ JS.toString n.
Proof.
  destruct n as [| | |z]; simpl;
    try (compute_decide).
  assert (Hn : forall m, Str.nl ∉ Str.ofN m).
  { intros m Hin. pose proof (ofN_digits m) as Hd.
    rewrite Forall_forall in Hd. by apply Hd in Hin. }
  destruct z; simpl; auto.
  rewrite not_elem_of_cons. split; [done|auto].
Qed.

End Numerals.

Section HeaderRewrite.

Implicit Types (st : SplatProcesser) (n : number) (l : text).

Lemma rewriteLine_free n l : Str.nl ∉ l -> Str.nl ∉ rewriteLine n l.
Proof.
  intros Hl. unfold rewriteLine.
  destruct (Str.includes _ l); [|done].
  rewrite elem_of_app. intros [H|H].
  - revert H. apply (bool_decide_unpack _). vm_compute. exact I.
  - by apply toString_free in H.
Qed.

Lemma rewriteLine_nil n l : rewriteLine n l = [] <-> l = [].
Proof.
  unfold rewriteLine. split.
  - destruct (Str.includes _ l); [discriminate|done].
  - by intros ->.
Qed.

Lemma endsEmpty_map n ls :
  endsEmpty (map (rewriteLine n) ls) = endsEmpty ls.
Proof.
  induction ls as [|l ls IH]; [done|].
  destruct ls as [|l2 ls]; [done|].
  change (map (rewriteLine n) (l :: l2 :: ls))
    with (rewriteLine n l :: map (rewriteLine n) (l2 :: ls)).
  destruct ls as [|l3 ls].
  - simpl. pose proof (rewriteLine_nil n l2) as [H1 H2].
    destruct (rewriteLine n l2), l2; try done.
    + by specialize (H1 eq_refl).
    + by specialize (H2 eq_refl).
  - transitivity (endsEmpty (map (rewriteLine n) (l2 :: l3 :: ls))).
    + simpl. by destruct (rewriteLine n l2).
    + rewrite IH. simpl. by destruct l2.
Qed.

Lemma endsWith_endsEmpty c s :
  Str.endsWith [c] s = endsEmpty (Str.split c s).
Proof.
  destruct (endsEmpty (Str.split c s)) eqn:E.
  - rewrite <- (join_split c s) at 1. by apply endsEmpty_join.
  - apply not_true_iff_false. intros H. apply not_true_iff_false in E.
    apply E. pose proof (split_nonempty c s) as Hne.
    pose proof (split_free c s) as Hf.
    destruct (last (Str.split c s)) as [x|] eqn:Hl.
    + apply (endsWith_join c _ x); [done| |by rewrite join_split].
      apply last_Some_elem_of in Hl. rewrite Forall_forall in Hf. auto.
    + apply last_None in Hl. done.
Qed.

Lemma rewritten_free n s :
  Forall (fun l => Str.nl ∉ l) (map (rewriteLine n) (Str.split Str.nl s)).
Proof.
  apply Forall_map. eapply Forall_impl; [apply split_free|].
  intros l. apply rewriteLine_free.
Qed.

(** The lines of a rewritten header. *)
Lemma createChunkHeader_lines st n :
  Str.split Str.nl (createChunkHeader st n) =
  map (rewriteLine n) (Str.split Str.nl (originalHeader st))
  ++ (if Str.endsWith [Str.nl] (originalHeader st) then [] else [[]]).
Proof.
  unfold createChunkHeader.
  set (ls := map (rewriteLine n) (Str.split Str.nl (originalHeader st))).
  assert (Hne : ls <> []).
  { unfold ls. intros H%map_eq_nil. by apply split_nonempty in H. }
  assert (Hf : Forall (fun l => Str.nl ∉ l) ls) by apply rewritten_free.
  assert (He : Str.endsWith [Str.nl] (Str.join Str.nl ls)
               = Str.endsWith [Str.nl] (originalHeader st)).
  { rewrite !endsWith_endsEmpty. rewrite split_join by done.
    apply endsEmpty_map. }
  rewrite He. destruct (Str.endsWith [Str.nl] (originalHeader st)).
  - rewrite app_nil_r. by apply split_join.
  - rewrite <- join_snoc_empty by done. apply split_join.
    + by destruct ls.
    + apply Forall_app. split; [done|]. repeat constructor.
      apply not_elem_of_nil.
Qed.

Lemma createChunkHeader_newline st n :
  Str.endsWith [Str.nl] (createChunkHeader st n) = true.
Proof.
  unfold createChunkHeader.
  destruct (Str.endsWith _ (Str.join _ _)) eqn:E; [done|].
  apply endsWith_snoc.
Qed.

End HeaderRewrite.

(** ** Header rewrite (C6) *)

(** C6, as stated, fails: [createChunkHeader] replaces every line that contains
    the text "element vertex", whole.  In this header, whose vertex-count line
    is line 3, the comment of line 2 is rewritten too. *)
Lemma createChunkHeader_rewrites_comment :
  let st := mkProcesser (Num 2) [] 0 commentedHeader in
  Str.split Str.nl (originalHeader st) !! 3%nat = Some (Str.lit "element vertex 2") /\
  Str.split Str.nl (originalHeader st) !! 2%nat
    = Some (Str.lit "comment element vertex count follows") /\
  Str.split Str.nl (createChunkHeader st (Num 5)) !! 2%nat
    = Some (Str.lit "element vertex 5").
Proof. vm_compute. done. Qed.

(** C6, amended: for every header text and every new vertex count, the
    rewritten header has the lines of the input in the same positions, where
    each line that contains "element vertex" is replaced by the whole line
    "element vertex <count>" and every other line is unchanged, byte for
    byte; one empty line is added when the input does not end with a newline,
    so that the result always ends with a newline. *)
Theorem createChunkHeader_spec (st : SplatProcesser) (n : number) :
  Str.split Str.nl (createChunkHeader st n) =
    map (fun line =>
           if Str.includes (Str.lit "element vertex") line
           then Str.lit "element vertex " ++ JS.toString n
           else line)
      (Str.split Str.nl (originalHeader st))
    ++ (if Str.endsWith [Str.nl] (originalHeader st) then [] else [[]])
  /\ Str.endsWith [Str.nl] (createChunkHeader st n) = true.
Proof.
  split; [apply createChunkHeader_lines | apply createChunkHeader_newline].
Qed.

(** ** Type widths (C8) *)

Lemma assoc_None {A} (k : text) (m : list (text * A)) :
  k ∉ m.*1 -> assoc k m = None.
Proof.
  induction m as [|[k' v] m IH]; [done|]. simpl.
  rewrite not_elem_of_cons. intros [Hne Hk].
  destruct (decide (k' = k)); [congruence|auto].
Qed.

(** The widths of the tokens of the table. *)
Lemma getTypeSize_table :
  map getTypeSize typeSizes.*1 = map Width typeSizes.*2.
Proof. vm_compute. reflexivity. Qed.

(** C8, as stated, fails: no error is raised for a token outside the table;
    "double" gets the width 4. *)
Lemma getTypeSize_double :
  (Str.lit "double" ∉ typeSizes.*1) /\ getTypeSize (Str.lit "double") = Width 4.
Proof. split; [apply (bool_decide_unpack _)|]; vm_compute; done. Qed.

(** C8, amended: for every type token that is not in the width table, the
    lookup raises no error: it returns the default width 4, except for a token
    that names a member inherited from [Object.prototype], for which the
    lookup returns that member. *)
Theorem getTypeSize_default (typeName : text) :
  typeName ∉ typeSizes.*1 ->
  getTypeSize typeName =
    if bool_decide (typeName ∈ objectPrototypeMembers) then Inherited
    else Width 4.
Proof. intros H. unfold getTypeSize. by rewrite (assoc_None _ _ H). Qed.

Lemma getTypeSize_default_witness :
  getTypeSize (Str.lit "short") = Width 4.
Proof.
  rewrite (getTypeSize_default (Str.lit "short")).
  - vm_compute. reflexivity.
  - apply (bool_decide_unpack _). vm_compute. exact I.
Defined.

(** ** Header parsing (C7, C9) *)

Section HeaderParse.

Implicit Types (st : SplatProcesser) (acc : SplatProcesser * list text)
  (line data : text).

Lemma readLine_fields acc line :
  maxShDegree (readLine acc line).1 = maxShDegree acc.1
  /\ originalHeader (readLine acc line).1 = originalHeader acc.1.
Proof.
  destruct acc as [st extra]. unfold readLine.
  destruct (Str.trim line); [done|].
  destruct (Str.includes _ _); [done|].
  destruct (Str.startsWith _ _); [|done].
  destruct (_ !! 2%nat); [|done]. destruct (_ !! 1%nat); done.
Qed.

Lemma readLine_vertexCount acc line :
  declaresVertexCount line = false ->
  vertexCount (readLine acc line).1 = vertexCount acc.1.
Proof.
  destruct acc as [st extra]. unfold readLine, declaresVertexCount.
  destruct (Str.trim line); [done|]. intros ->.
  destruct (Str.startsWith _ _); [|done].
  destruct (_ !! 2%nat); [|done]. destruct (_ !! 1%nat); done.
Qed.

Lemma lookup_2_1 {A} (l : list A) x :
  l !! 2%nat = Some x -> exists y, l !! 1%nat = Some y.
Proof. destruct l as [|a [|b l]]; [done..|]. eauto. Qed.

Lemma readLine_extra acc line :
  length (readLine acc line).2 =
  (length acc.2 + if declaresRest line then 1 else 0)%nat.
Proof.
  destruct acc as [st extra]. unfold readLine, declaresRest.
  destruct (Str.trim line) as [|a t] eqn:Et; [simpl; lia|].
  destruct (Str.includes _ _); [simpl; lia|].
  destruct (Str.startsWith _ (a :: t)); [|simpl; lia].
  destruct (_ !! 2%nat) as [propName|] eqn:E2; [|simpl; lia].
  pose proof E2 as [propType ->]%lookup_2_1. cbn [fst snd].
  destruct (Str.startsWith _ propName); cbn [negb andb]; [|lia].
  rewrite length_app. cbn [length]. lia.
Qed.

Lemma readLines_fields lines acc :
  maxShDegree (fold_left readLine lines acc).1 = maxShDegree acc.1
  /\ originalHeader (fold_left readLine lines acc).1 = originalHeader acc.1.
Proof.
  revert acc. induction lines as [|l lines IH]; intros acc; [done|].
  simpl. destruct (IH (readLine acc l)) as [-> ->]. apply readLine_fields.
Qed.

Lemma readLines_vertexCount lines acc :
  Forall (fun l => declaresVertexCount l = false) lines ->
  vertexCount (fold_left readLine lines acc).1 = vertexCount acc.1.
Proof.
  revert acc. induction lines as [|l lines IH]; intros acc Hf; [done|].
  inversion Hf; subst. simpl. rewrite IH by done.
  by apply readLine_vertexCount.
Qed.

Lemma readLines_extra lines acc :
  length (fold_left readLine lines acc).2 =
  (length acc.2
   + length (filter (fun line => declaresRest line = true) lines))%nat.
Proof.
  revert acc. induction lines as [|l lines IH]; intros acc; [simpl; lia|].
  cbn [fold_left]. rewrite IH, readLine_extra, filter_cons.
  destruct (declaresRest l).
  - rewrite decide_True by done. cbn [length]. lia.
  - rewrite decide_False by done. lia.
Qed.

(** What [readPlyHeader] returns and leaves in the fields. *)
Lemma readPlyHeader_unfold st data :
  let acc := fold_left readLine (Str.split Str.nl (headerText data))
               (mkProcesser (vertexCount st) (propertyTypes st)
                  (maxShDegree st) (headerText data), []) in
  readPlyHeader st data =
  (mkProcesser (vertexCount acc.1) (propertyTypes acc.1)
     (shDegree (length acc.2) (maxShDegree acc.1)) (originalHeader acc.1),
   mkParts (headerEnd data) (drop (Z.to_nat (headerEnd data)) data)).
Proof.
  unfold readPlyHeader, headerText. simpl.
  by destruct (fold_left _ _ _).
Qed.

Lemma readPlyHeader_parts st data :
  (readPlyHeader st data).2 =
  mkParts (headerEnd data) (drop (Z.to_nat (headerEnd data)) data)
  /\ originalHeader (readPlyHeader st data).1 = headerText data.
Proof.
  rewrite readPlyHeader_unfold. simpl. split; [done|].
  by destruct (readLines_fields (Str.split Str.nl (headerText data))
    (mkProcesser (vertexCount st) (propertyTypes st) (maxShDegree st)
       (headerText data), [])) as [_ ->].
Qed.

Lemma readPlyHeader_degree st data :
  maxShDegree (readPlyHeader st data).1 =
  shDegree (restCount data) (maxShDegree st).
Proof.
  rewrite readPlyHeader_unfold. simpl.
  rewrite readLines_extra. simpl. unfold restCount.
  by destruct (readLines_fields (Str.split Str.nl (headerText data))
    (mkProcesser (vertexCount st) (propertyTypes st) (maxShDegree st)
       (headerText data), [])) as [-> _].
Qed.

End HeaderParse.

(** C7, as stated, fails: a file without terminator line is parsed without
    any error; its first ten characters are taken as the header. *)
Lemma readPlyHeader_no_terminator :
  Str.indexOf end_header noTerminator = None /\
  readPlyHeader constructor noTerminator =
    (mkProcesser (Num 0) [] 0 (Str.lit "ply elemen"),
     mkParts 10 (Str.lit "t vertex 3 property float x")).
Proof. vm_compute. done. Qed.

(** C7, amended: header parsing never fails.  For every input whose header
    part is made of ASCII bytes: without terminator line it returns the
    offset 10 (-1 + 11), with the first ten characters as header text and
    the bytes from the tenth on as vertex payload; and when the header text
    has no vertex-count line it returns with the previous vertex count (0
    after construction) left in place. *)
Theorem readPlyHeader_malformed (st : SplatProcesser) (data : text) :
  asciiText (headerText data) ->
  (Str.indexOf end_header data = None ->
   (readPlyHeader st data).2 = mkParts 10 (drop 10 data)
   /\ originalHeader (readPlyHeader st data).1 = take 10 data)
  /\ (Forall (fun line => declaresVertexCount line = false)
        (Str.split Str.nl (headerText data)) ->
      vertexCount (readPlyHeader st data).1 = vertexCount st).
Proof.
  intros _. split.
  - intros Hnone. destruct (readPlyHeader_parts st data) as [-> ->].
    unfold headerText, headerEnd. rewrite Hnone. done.
  - intros Hf. rewrite readPlyHeader_unfold. simpl.
    by rewrite readLines_vertexCount.
Qed.

Lemma readPlyHeader_malformed_witness :
  (readPlyHeader constructor noTerminator).2
    = mkParts 10 (drop 10 noTerminator)
  /\ vertexCount (readPlyHeader constructor (Str.lit "ply" ++ end_header)).1
     = Num 0.
Proof.
  split.
  - apply (readPlyHeader_malformed constructor noTerminator).
    + compute_decide.
    + vm_compute. reflexivity.
  - apply (readPlyHeader_malformed constructor (Str.lit "ply" ++ end_header)).
    + compute_decide.
    + vm_compute. repeat constructor.
Defined.

(** C9, as stated, fails: with one prefixed property name, a count outside
    the table, parsing returns as usual and the degree 3 of an earlier parse
    is silently kept. *)
Lemma readPlyHeader_keeps_degree :
  restCount oneRest = 1%nat /\
  maxShDegree (readPlyHeader (mkProcesser (Num 0) [] 3 []) oneRest).1 = 3.
Proof. vm_compute. done. Qed.

(** C9, amended: for every input whose count of prefixed property names is
    not one of 0, 9, 24 and 45, header parsing returns normally and leaves the
    spherical-harmonics degree at its previous value (0 after construction);
    nothing is surfaced to the caller. *)
Theorem readPlyHeader_unresolved_degree (st : SplatProcesser) (data : text) :
  restCount data ∉ [0; 9; 24; 45]%nat ->
  maxShDegree (readPlyHeader st data).1 = maxShDegree st.
Proof.
  intros Hc. rewrite readPlyHeader_degree. unfold shDegree.
  repeat (destruct (_ =? _)%nat eqn:E;
          [apply Nat.eqb_eq in E; exfalso; apply Hc; rewrite E; set_solver
          |clear E]).
  done.
Qed.

Lemma readPlyHeader_unresolved_degree_witness :
  maxShDegree (readPlyHeader (mkProcesser (Num 0) [] 3 []) oneRest).1 = 3.
Proof.
  apply (readPlyHeader_unresolved_degree (mkProcesser (Num 0) [] 3 []) oneRest).
  apply (bool_decide_unpack _). vm_compute. exact I.
Defined.

(** The counts of the table select their degree. *)
Lemma readPlyHeader_table_degree (st : SplatProcesser) (data : text) :
  (restCount data = 0%nat -> maxShDegree (readPlyHeader st data).1 = 0)
  /\ (restCount data = 9%nat -> maxShDegree (readPlyHeader st data).1 = 1)
  /\ (restCount data = 24%nat -> maxShDegree (readPlyHeader st data).1 = 2)
  /\ (restCount data = 45%nat -> maxShDegree (readPlyHeader st data).1 = 3).
Proof. rewrite readPlyHeader_degree. repeat split; intros ->; done. Qed.

(** ** Grouping (C4) *)

Section Grouping.

Variables (egs len : nat).
Hypothesis egs_pos : (1 <= egs)%nat.

Lemma groupsFrom_done fuel i : (len <= i)%nat -> groupsFrom fuel i egs len = [].
Proof.
  intros Hi. destruct fuel; [done|]. simpl.
  by rewrite (proj2 (Nat.ltb_ge i len) Hi).
Qed.

Lemma groupsFrom_concat fuel i :
  (len - i <= fuel)%nat ->
  concat (groupsFrom fuel i egs len) = seq i (len - i).
Proof.
  revert i. induction fuel as [|fuel IH]; intros i Hf.
  - simpl. by replace (len - i)%nat with 0%nat by lia.
  - simpl. destruct (i <? len)%nat eqn:E.
    + apply Nat.ltb_lt in E. simpl. rewrite IH by lia.
      destruct (Nat.min_spec egs (len - i)) as [[? ->]|[? ->]].
      * rewrite <- seq_app. f_equal. lia.
      * replace (len - (i + egs))%nat with 0%nat by lia.
        by rewrite app_nil_r.
    + apply Nat.ltb_ge in E. by replace (len - i)%nat with 0%nat by lia.
Qed.

Lemma groupsFrom_lookup fuel i k g :
  (len - i <= fuel)%nat ->
  groupsFrom fuel i egs len !! k = Some g ->
  g = seq (i + k * egs) (Nat.min egs (len - (i + k * egs)))
  /\ (i + k * egs < len)%nat.
Proof.
  revert i k. induction fuel as [|fuel IH]; intros i k Hf; [done|].
  simpl. destruct (i <? len)%nat eqn:E; [|done].
  apply Nat.ltb_lt in E. destruct k as [|k]; simpl.
  - intros [= <-]. rewrite Nat.add_0_r. done.
  - intros Hk. apply IH in Hk; [|lia].
    replace (i + (egs + k * egs))%nat with (i + egs + k * egs)%nat by lia.
    done.
Qed.

End Grouping.

(** C4, as stated, fails for no chunk at all: with groupSize = -1 the loop
    bound and the step are both 0, and no group is made, not a single one. *)
Lemma groupIndices_none_of_nothing :
  groupIndices (-1) 0 = Some [] /\ ~ exists g, groupIndices (-1) 0 = Some [g].
Proof. split; [reflexivity|]. intros [g Hg]. discriminate. Qed.

(** C4, amended: for every chunkCount >= 0 and every groupSize that is -1 or
    >= 1, the grouping step ends and partitions the ascending sequence
    [0, chunkCount) into consecutive runs: the groups in order concatenate to
    the whole sequence (every index in exactly one group), group k is the
    non-empty ascending range that starts at k times the effective size, of
    at most that size, and every group but the last has exactly that size.
    With groupSize = -1 there is a single group with every chunk when
    chunkCount >= 1, and no group when chunkCount = 0. *)
Theorem groupIndices_partition (chunkCount : nat) (groupSize : Z) :
  groupSize = -1 \/ 1 <= groupSize ->
  exists gs : list (list nat),
    let e := Z.to_nat (effectiveGroupSize groupSize chunkCount) in
    groupIndices groupSize chunkCount = Some gs
    /\ concat gs = seq 0 chunkCount
    /\ (forall k g, gs !! k = Some g ->
          g = seq (k * e) (length g)
          /\ (1 <= length g <= e)%nat
          /\ (S k < length gs -> length g = e)%nat)
    /\ (groupSize = -1 ->
          gs = match chunkCount with O => [] | S _ => [seq 0 chunkCount] end).
Proof.
  intros Hg. destruct chunkCount as [|n].
  - exists []. unfold groupIndices. simpl. repeat split; try done.
  - set (len := S n).
    set (e := Z.to_nat (effectiveGroupSize groupSize len)).
    assert (He : (1 <= e)%nat).
    { unfold e, effectiveGroupSize. destruct (groupSize =? -1) eqn:E; lia. }
    exists (groupsFrom len 0 e len). cbv zeta. fold e.
    split; [|split; [|split]].
    + unfold groupIndices. fold e.
      replace (effectiveGroupSize groupSize len <=? 0) with false; [done|].
      symmetry. apply Z.leb_gt. unfold e in He. lia.
    + rewrite groupsFrom_concat by lia. by rewrite Nat.sub_0_r.
    + intros k g Hk.
      pose proof Hk as [-> Hlt]%groupsFrom_lookup; [|lia..].
      rewrite Nat.add_0_l in *. rewrite length_seq.
      split; [done|]. split; [lia|]. intros Hnext.
      assert (Hsome : is_Some (groupsFrom len 0 e len !! S k))
        by (apply lookup_lt_is_Some; lia).
      destruct Hsome as [g' Hg'].
      apply groupsFrom_lookup in Hg' as [_ Hlt']; [|lia..].
      rewrite Nat.add_0_l in Hlt'. cbn [Nat.mul] in Hlt'. lia.
    + intros ->.
      assert (e = len) as -> by (unfold e, effectiveGroupSize; simpl; lia).
      unfold len. cbn [groupsFrom].
      replace (0 <? S n)%nat with true by done.
      rewrite groupsFrom_done by lia.
      by rewrite Nat.sub_0_r, Nat.min_id.
Qed.

Lemma groupIndices_partition_witness :
  exists gs : list (list nat),
    groupIndices 3 10 = Some gs /\ concat gs = seq 0 10.
Proof.
  destruct (groupIndices_partition 10 3) as (gs & H1 & H2 & _); [right; lia|].
  exists gs. split; [exact H1|exact H2].
Defined.

(** ** The verification pass of split (C3) *)

Section Verification.

Implicit Types (chunks : gmap nat text) (st : SplatProcesser) (fs : files).

Lemma verifyStep_spec chunks acc i :
  verifyStep chunks acc i =
  (acc.1 + default 0 (chunks !! i ≫= declaredCount),
   acc.2 ++ failureOf chunks i).
Proof.
  destruct acc as [v f]. unfold verifyStep, failureOf, declaredCount.
  destruct (chunks !! i) as [data|]; simpl.
  - destruct (vertexMatch data); simpl; [|f_equal; lia].
    by rewrite app_nil_r.
  - f_equal. lia.
Qed.

Lemma verifyLoop_spec chunks l acc :
  fold_left (verifyStep chunks) l acc =
  (acc.1 + foldr Z.add 0
             (map (fun i => default 0 (chunks !! i ≫= declaredCount)) l),
   acc.2 ++ concat (map (failureOf chunks) l)).
Proof.
  revert acc. induction l as [|i l IH]; intros [v f].
  - simpl. rewrite app_nil_r. f_equal. lia.
  - cbn [fold_left]. rewrite IH, verifyStep_spec.
    cbn [fst snd map foldr concat]. rewrite <- app_assoc. f_equal. lia.
Qed.

Lemma mismatch_test (total sum : Z) :
  JS.lt (Num 0) (JS.abs (JS.sub (Num total) (Num sum))) =
  negb (sum =? total).
Proof.
  simpl. destruct (sum =? total) eqn:E; simpl.
  - apply Z.eqb_eq in E. apply Z.ltb_ge. lia.
  - apply Z.eqb_neq in E. apply Z.ltb_lt. lia.
Qed.

Lemma verifySplit_spec st fs n numChunks processed total :
  vertexCount st = Num total ->
  verifySplit st fs n numChunks processed =
  if readableSum (plyChunks fs) n =? total
  then (mkFiles (inputFile fs) (plyChunks fs) (plyGrouped fs) (Some st)
          (otherChunkEntries fs) (chunksMetadata fs),
        Returned (mkSplitResult numChunks (readableSum (plyChunks fs) n)
                    processed
                    (concat (map (failureOf (plyChunks fs)) (seq 0 n)))))
  else (fs, Thrown (VertexCountMismatch (Num total)
                      (readableSum (plyChunks fs) n))).
Proof.
  intros Hv. unfold verifySplit. rewrite verifyLoop_spec.
  cbn [fst snd]. rewrite Hv, Z.add_0_l, mismatch_test.
  fold (readableSum (plyChunks fs) n).
  by destruct (_ =? _).
Qed.

End Verification.




(** ** Merging (C10) *)

Section Merging.

Implicit Types (chunks : gmap nat text) (st : SplatProcesser) (fs : files).

Lemma mergeLoop_spec chunks indices datas total merged :
  Forall2 (fun i data => chunks !! i = Some data) indices datas ->
  mergeLoop chunks indices total merged =
  inr (total + foldr Z.add 0 (map (fun d => default 0 (declaredCount d)) datas),
       merged ++ concat (map chunkPayload datas)).
Proof.
  intros H. revert total merged.
  induction H as [|i d indices datas Hi _ IH]; intros total merged.
  - simpl. rewrite app_nil_r. do 2 f_equal. lia.
  - cbn [mergeLoop]. rewrite Hi, IH. cbn [map foldr concat].
    unfold chunkPayload at 2. rewrite <- app_assoc. do 2 f_equal.
    unfold declaredCount. destruct (vertexMatch d); simpl; lia.
Qed.


End Merging.

(** ** Locating the terminator *)

Section Terminator.

Variable body : text.
Hypothesis body_free : Str.nl ∉ body.
Hypothesis body_nonempty : body <> [].

Implicit Types (l s : text).

Lemma first_line_inj l b s r :
  Str.nl ∉ l -> Str.nl ∉ b -> l ++ Str.nl :: s = b ++ Str.nl :: r -> l = b.
Proof.
  revert b. induction l as [|a l IH]; intros [|c b] Hl Hb Hr; [done|..].
  - injection Hr as <- _. exfalso. apply Hb. by left.
  - injection Hr as -> _. exfalso. apply Hl. by left.
  - injection Hr as -> Hr.
    apply not_elem_of_cons in Hl as [_ Hl].
    apply not_elem_of_cons in Hb as [_ Hb].
    f_equal. by apply IH.
Qed.

Lemma startsWith_line l s :
  Str.nl ∉ l ->
  Str.startsWith (body ++ [Str.nl]) (l ++ Str.nl :: s) = bool_decide (l = body).
Proof.
  intros Hl. case_bool_decide as E.
  - subst. change (body ++ Str.nl :: s) with (body ++ [Str.nl] ++ s).
    rewrite app_assoc. apply startsWith_app.
  - apply not_true_iff_false. intros [r Hr]%startsWith_spec. apply E.
    rewrite <- app_assoc in Hr. by apply first_line_inj in Hr.
Qed.

Lemma endsWith_cons a l :
  Str.endsWith body (a :: l) =
  bool_decide (a :: l = body) || Str.endsWith body l.
Proof.
  apply eq_true_iff_eq. rewrite orb_true_iff, bool_decide_eq_true.
  rewrite !endsWith_spec. split.
  - intros [[|b r] Hr]; [left; done|]. right. injection Hr as -> ->. eauto.
  - intros [->|[r ->]]; [by exists []|]. by exists (a :: r).
Qed.

Lemma endsWith_length l :
  Str.endsWith body l = true -> (length body <= length l)%nat.
Proof. intros [r ->]%endsWith_spec. rewrite length_app. lia. Qed.

Lemma indexOf_unfold p s :
  Str.indexOf p s =
  if Str.startsWith p s then Some 0%nat
  else match s with
       | [] => None
       | _ :: s' => S <$> Str.indexOf p s'
       end.
Proof. by destruct s. Qed.

Lemma indexOf_line l s :
  Str.nl ∉ l ->
  Str.indexOf (body ++ [Str.nl]) (l ++ Str.nl :: s) =
  if Str.endsWith body l then Some (length l - length body)%nat
  else (fun k => length l + 1 + k)%nat <$> Str.indexOf (body ++ [Str.nl]) s.
Proof.
  induction l as [|a l IH]; intros Hl.
  - replace (Str.endsWith body []) with false.
    2:{ symmetry. apply not_true_iff_false. intros H%endsWith_length.
        destruct body; [done|]. simpl in H. lia. }
    rewrite indexOf_unfold.
    rewrite startsWith_line by done.
    rewrite bool_decide_false by done.
    cbn [app length]. by destruct (Str.indexOf _ s).
  - pose proof Hl as [Ha Hl']%not_elem_of_cons.
    rewrite indexOf_unfold.
    rewrite startsWith_line by done. rewrite endsWith_cons.
    destruct (decide (a :: l = body)) as [E|E].
    + rewrite !bool_decide_true by done.
      cbn [orb]. rewrite E. by rewrite Nat.sub_diag.
    + rewrite !bool_decide_false by done.
      cbn [orb app]. rewrite IH by done.
      destruct (Str.endsWith body l) eqn:Ee.
      * apply endsWith_length in Ee. cbn [fmap option_fmap option_map length].
        f_equal. lia.
      * by destruct (Str.indexOf _ s).
Qed.

End Terminator.

(** ** Headers made of plain lines and a terminator line *)

Section PlainHeaders.

Implicit Types (hl : list text) (l payload : text) (st : SplatProcesser).

Lemma end_header_body : end_header = Str.lit "end_header" ++ [Str.nl].
Proof. reflexivity. Qed.

Lemma headerOf_cons l hl : headerOf (l :: hl) = l ++ Str.nl :: headerOf hl.
Proof. unfold headerOf. simpl. by rewrite <- !app_assoc. Qed.

Lemma headerOf_length hl : (11 <= length (headerOf hl))%nat.
Proof. unfold headerOf. rewrite length_app. simpl. lia. Qed.

Lemma indexOf_headerOf hl payload :
  Forall plainLine hl ->
  Str.indexOf end_header (headerOf hl ++ payload)
  = Some (length (headerOf hl) - 11)%nat.
Proof.
  induction 1 as [|l hl [Hfree Hend] _ IH].
  - rewrite indexOf_unfold. unfold headerOf. simpl concat.
    rewrite app_nil_l, startsWith_app. done.
  - rewrite headerOf_cons. rewrite <- app_assoc. cbn [app].
    rewrite end_header_body, indexOf_line; [|compute_decide|done|done].
    rewrite Hend. rewrite <- end_header_body, IH. simpl.
    pose proof (headerOf_length hl). rewrite length_app. simpl.
    f_equal. lia.
Qed.

Lemma headerEnd_headerOf hl payload :
  Forall plainLine hl ->
  headerEnd (headerOf hl ++ payload) = Z.of_nat (length (headerOf hl)).
Proof.
  intros H. unfold headerEnd. rewrite indexOf_headerOf by done.
  pose proof (headerOf_length hl). lia.
Qed.

Lemma headerText_headerOf hl payload :
  Forall plainLine hl ->
  headerText (headerOf hl ++ payload) = headerOf hl
  /\ drop (Z.to_nat (headerEnd (headerOf hl ++ payload)))
       (headerOf hl ++ payload) = payload.
Proof.
  intros H. unfold headerText. rewrite headerEnd_headerOf by done.
  rewrite Nat2Z.id. split; [apply take_app_length | apply drop_app_length].
Qed.

Lemma split_headerOf hl :
  Forall (fun l => Str.nl ∉ l) hl ->
  Str.split Str.nl (headerOf hl) = hl ++ [Str.lit "end_header"; []].
Proof.
  induction 1 as [|l hl Hl _ IH]; [reflexivity|].
  rewrite headerOf_cons, split_app_free by done. by rewrite IH.
Qed.

Lemma join_headerOf hl :
  Str.join Str.nl (hl ++ [Str.lit "end_header"; []]) = headerOf hl.
Proof.
  induction hl as [|l hl IH]; [reflexivity|].
  change ((l :: hl) ++ [Str.lit "end_header"; []])
    with (l :: (hl ++ [Str.lit "end_header"; []])).
  rewrite join_cons by (by destruct hl). by rewrite IH, headerOf_cons.
Qed.

Lemma headerOf_newline hl : Str.endsWith [Str.nl] (headerOf hl) = true.
Proof.
  apply endsWith_spec. exists (concat (map (fun l => l ++ [Str.nl]) hl)
                               ++ Str.lit "end_header").
  unfold headerOf. by rewrite <- app_assoc.
Qed.

Lemma plainLine_free hl : Forall plainLine hl -> Forall (fun l => Str.nl ∉ l) hl.
Proof. intros H. eapply Forall_impl; [done|]. by intros l [? _]. Qed.

(** Rewriting a header of plain lines rewrites its lines. *)
Lemma createChunkHeader_headerOf st n hl :
  originalHeader st = headerOf hl -> Forall plainLine hl ->
  createChunkHeader st n = headerOf (map (rewriteLine n) hl).
Proof.
  intros Hh Hp. unfold createChunkHeader.
  rewrite Hh, split_headerOf by by apply plainLine_free.
  rewrite map_app. change (map (rewriteLine n) [Str.lit "end_header"; []])
    with [Str.lit "end_header"; []].
  by rewrite join_headerOf, headerOf_newline.
Qed.

Lemma endsWith_last p s a b :
  a <> b -> Str.endsWith (p ++ [a]) (s ++ [b]) = false.
Proof.
  intros Hab. apply not_true_iff_false. intros [r Hr]%endsWith_spec.
  rewrite app_assoc in Hr. apply app_inj_tail in Hr as [_ ->]. done.
Qed.

Lemma ofN_snoc n :
  exists ds d, Str.ofN n = ds ++ [d] /\ Str.isDigit d = true.
Proof.
  pose proof (ofN_nonempty n) as Hne. pose proof (ofN_digits n) as Hd.
  destruct (Str.ofN n) as [|a t] using rev_ind; [done|].
  apply Forall_app in Hd as [_ Hd]. inversion Hd; subst. eauto.
Qed.

Lemma rewriteLine_plain z l : plainLine l -> plainLine (rewriteLine (Num z) l).
Proof.
  intros [Hfree Hend]. split; [by apply rewriteLine_free|].
  unfold rewriteLine. destruct (Str.includes _ l); [|done].
  assert (Hn : forall m x, Str.endsWith (Str.lit "end_header") (x ++ Str.ofN m)
                           = false).
  { intros m x. destruct (ofN_snoc m) as (ds & d & -> & Hd).
    rewrite app_assoc.
    change (Str.lit "end_header") with (Str.lit "end_heade" ++ ["r"%char]).
    apply endsWith_last. intros <-. done. }
  destruct z; simpl JS.toString; unfold Str.ofZ; try apply Hn.
  change ("-"%char :: Str.ofN (N.pos p)) with (["-"%char] ++ Str.ofN (N.pos p)).
  rewrite app_assoc. apply Hn.
Qed.

Lemma rewriteLines_plain z hl :
  Forall plainLine hl -> Forall plainLine (map (rewriteLine (Num z)) hl).
Proof.
  intros H. apply Forall_map. eapply Forall_impl; [done|].
  intros l. apply rewriteLine_plain.
Qed.

(** The payload of a file written as a rewritten header and some data. *)
Lemma chunkPayload_chunk st z hl chunkData :
  originalHeader st = headerOf hl -> Forall plainLine hl ->
  chunkPayload (createChunkHeader st (Num z) ++ chunkData) = chunkData.
Proof.
  intros Hh Hp. rewrite (createChunkHeader_headerOf st _ hl) by done.
  unfold chunkPayload, readChunkPly. simpl vertexData.
  by apply headerText_headerOf, rewriteLines_plain.
Qed.

End PlainHeaders.

(** ** The vertex-count pattern in a rewritten header *)

Section CountPattern.

Implicit Types (l s p : text) (hl : list text).

Lemma includes_spec p s :
  Str.includes p s = true <-> exists pre post, s = pre ++ p ++ post.
Proof.
  unfold Str.includes. split.
  - destruct (Str.indexOf p s) as [k|] eqn:E; [intros _|done].
    revert k E. induction s as [|a s IH]; intros k; rewrite indexOf_unfold.
    + destruct (Str.startsWith p []) eqn:Es; [|done].
      apply startsWith_spec in Es as [r ->]. by exists [], r.
    + destruct (Str.startsWith p (a :: s)) eqn:Es.
      * apply startsWith_spec in Es as [r ->]. by exists [], r.
      * destruct (Str.indexOf p s) as [j|]; [|done]. intros _.
        destruct (IH j eq_refl) as (pre & post & ->). by exists (a :: pre), post.
  - intros (pre & post & ->). induction pre as [|a pre IH].
    + rewrite indexOf_unfold. cbn [app]. by rewrite startsWith_app.
    + rewrite indexOf_unfold. destruct (Str.startsWith _ _); [done|].
      cbn [app]. by destruct (Str.indexOf p (pre ++ p ++ post)).
Qed.

Lemma trimStart_suffix s : exists a, s = a ++ Str.trimStart s.
Proof.
  induction s as [|c s [a IH]]; [by exists []|]. simpl.
  destruct (Str.isWhite c); [|by exists []].
  exists (c :: a). simpl. by rewrite <- IH.
Qed.

Lemma trim_infix s : exists a b, s = a ++ Str.trim s ++ b.
Proof.
  destruct (trimStart_suffix s) as [a Ha].
  destruct (trimStart_suffix (rev (Str.trimStart s))) as [b Hb].
  exists a, (rev b). unfold Str.trim.
  rewrite <- rev_app_distr, <- Hb, rev_involutive. done.
Qed.

Lemma includes_trim p s :
  Str.includes p (Str.trim s) = true -> Str.includes p s = true.
Proof.
  rewrite !includes_spec. intros (pre & post & E).
  destruct (trim_infix s) as (a & b & Hs). rewrite E in Hs.
  exists (a ++ pre), (post ++ b). rewrite Hs. by rewrite <- !app_assoc.
Qed.

Lemma matchHere_line l s :
  Str.nl ∉ l -> Str.includes (Str.lit "element vertex") l = false ->
  matchHere (l ++ Str.nl :: s) = None.
Proof.
  intros Hfree Hinc. unfold matchHere.
  destruct (Str.startsWith _ _) eqn:E; [|done]. exfalso.
  apply startsWith_spec in E as [r Hr].
  change (Str.lit "element vertex ")
    with (Str.lit "element vertex" ++ [Str.space]) in Hr.
  rewrite <- app_assoc in Hr.
  apply app_eq_inv in Hr as [(k & Hl & _)|(k & Hp & Hk)].
  - apply not_true_iff_false in Hinc. apply Hinc, includes_spec.
    exists [], k. by rewrite Hl.
  - assert (Hin : Str.nl ∈ Str.lit "element vertex").
    { rewrite Hp. destruct k as [|c k].
      - rewrite app_nil_r in Hp. apply not_true_iff_false in Hinc.
        exfalso. apply Hinc, includes_spec. exists [], []. rewrite <- Hp.
        by rewrite app_nil_r.
      - injection Hk as <- _. set_solver. }
    revert Hin. compute_decide.
Qed.

Lemma includes_tail p a s :
  Str.includes p (a :: s) = false -> Str.includes p s = false.
Proof.
  intros H. apply not_true_iff_false. intros (pre & post & ->)%includes_spec.
  apply not_true_iff_false in H. apply H, includes_spec.
  by exists (a :: pre), post.
Qed.

Lemma vertexMatch_unfold s :
  vertexMatch s =
  match matchHere s with
  | Some ds => Some ds
  | None => match s with [] => None | _ :: s' => vertexMatch s' end
  end.
Proof. by destruct s. Qed.

(** A line without the text "element vertex" has no match. *)
Lemma vertexMatch_skip l s :
  Str.nl ∉ l -> Str.includes (Str.lit "element vertex") l = false ->
  vertexMatch (l ++ Str.nl :: s) = vertexMatch s.
Proof.
  induction l as [|a l IH]; intros Hfree Hinc.
  - rewrite vertexMatch_unfold. by rewrite (matchHere_line [] s).
  - rewrite vertexMatch_unfold, matchHere_line by done.
    apply not_elem_of_cons in Hfree as [_ Hfree].
    apply includes_tail in Hinc. cbn [app]. by apply IH.
Qed.

Lemma spanDigits_app ds s :
  Forall (fun a => Str.isDigit a = true) ds ->
  Str.spanDigits (ds ++ Str.nl :: s) = (ds, Str.nl :: s).
Proof.
  induction 1 as [|a ds Ha _ IH]; [reflexivity|].
  simpl. by rewrite Ha, IH.
Qed.

(** The line that the rewrite writes matches, with its numeral. *)
Lemma vertexMatch_hit z s :
  0 <= z ->
  vertexMatch (Str.lit "element vertex " ++ Str.ofZ z ++ Str.nl :: s)
  = Some (Str.ofZ z).
Proof.
  intros Hz. rewrite vertexMatch_unfold. unfold matchHere.
  rewrite startsWith_app.
  change (drop 15 (Str.lit "element vertex " ++ Str.ofZ z ++ Str.nl :: s))
    with (Str.ofZ z ++ Str.nl :: s).
  assert (Str.ofZ z = Str.ofN (Z.to_N z)) as -> by (by destruct z).
  rewrite spanDigits_app by apply ofN_digits.
  pose proof (ofN_nonempty (Z.to_N z)). by destruct (Str.ofN _).
Qed.

Lemma decimal_ofZ z : 0 <= z -> Str.decimal (Str.ofZ z) = z.
Proof.
  intros Hz. assert (Str.ofZ z = Str.ofN (Z.to_N z)) as -> by (by destruct z).
  rewrite decimal_ofN. lia.
Qed.

(** The count that a chunk file declares is the count it was written
    with, as soon as one header line carries the text. *)
Lemma declaredCount_chunk hl z data :
  Forall plainLine hl ->
  Exists (fun l => Str.includes (Str.lit "element vertex") l = true) hl ->
  0 <= z ->
  declaredCount (headerOf (map (rewriteLine (Num z)) hl) ++ data) = Some z.
Proof.
  intros Hp Hex Hz. unfold declaredCount.
  enough (vertexMatch (headerOf (map (rewriteLine (Num z)) hl) ++ data)
          = Some (Str.ofZ z)) as -> by (simpl; by rewrite decimal_ofZ).
  induction Hp as [|l hl [Hfree _] Hp IH]; [by inversion Hex|].
  cbn [map]. rewrite headerOf_cons, <- app_assoc. cbn [app].
  unfold rewriteLine at 1.
  destruct (Str.includes _ l) eqn:E.
  - cbn [JS.toString]. rewrite <- app_assoc. by apply vertexMatch_hit.
  - rewrite vertexMatch_skip by done. apply IH.
    inversion Hex; subst; [congruence|done].
Qed.

End CountPattern.

(** ** Merging (C10) *)

Section MergedParts.

Implicit Types (hl : list text) (l s payload : text) (c : chunkShape).

Lemma vertexMatch_none s :
  Str.includes (Str.lit "element vertex") s = false -> vertexMatch s = None.
Proof.
  induction s as [|a s IH]; intros Hinc.
  - reflexivity.
  - rewrite vertexMatch_unfold.
    assert (Hm : matchHere (a :: s) = None).
    { unfold matchHere. destruct (Str.startsWith _ _) eqn:E; [|done].
      exfalso. apply startsWith_spec in E as [r Hr].
      apply not_true_iff_false in Hinc. apply Hinc, includes_spec.
      exists [], (Str.space :: r). rewrite Hr.
      change (Str.lit "element vertex ")
        with (Str.lit "element vertex" ++ [Str.space]).
      by rewrite <- app_assoc. }
    rewrite Hm. apply IH. by apply includes_tail in Hinc.
Qed.

Lemma vertexMatch_lines hl s :
  Forall plainLine hl ->
  Forall (fun l => Str.includes (Str.lit "element vertex") l = false) hl ->
  vertexMatch (concat (map (fun l => l ++ [Str.nl]) hl) ++ s) = vertexMatch s.
Proof.
  induction 1 as [|l hl [Hfree _] _ IH]; intros Hinc; [done|].
  inversion Hinc; subst. cbn [map concat]. rewrite <- !app_assoc. cbn [app].
  rewrite vertexMatch_skip by done. by apply IH.
Qed.

(** The count that the merge reads from a chunk file of known parts. *)
Lemma declaredCount_shape hl payload n :
  Forall plainLine hl -> chunkCount hl payload n ->
  declaredCount (headerOf hl ++ payload) = n.
Proof.
  intros Hp Hc. unfold declaredCount, headerOf. rewrite <- app_assoc.
  destruct Hc as [pre n post -> Hn Hpre|Hhl Hpayload].
  - apply Forall_app in Hp as [Hp _].
    rewrite map_app, concat_app, <- app_assoc.
    rewrite vertexMatch_lines by done. cbn [map concat].
    unfold countLine. rewrite <- !app_assoc. cbn [app].
    rewrite vertexMatch_hit by done. cbn. by rewrite decimal_ofZ.
  - rewrite vertexMatch_lines by done.
    change end_header with (Str.lit "end_header" ++ [Str.nl]).
    rewrite <- app_assoc. cbn [app].
    rewrite vertexMatch_skip; [|compute_decide|reflexivity].
    by rewrite vertexMatch_none.
Qed.

Lemma mergeLoop_shapes (chunks : gmap nat text) indices (shapes : list chunkShape)
    total merged :
  Forall2 (fun i c =>
             chunks !! i = Some (shapeFile c)
             /\ Forall plainLine (shapeLines c)
             /\ chunkCount (shapeLines c) (shapePayload c) (shapeCount c))
    indices shapes ->
  mergeLoop chunks indices total merged =
  inr (total + foldr Z.add 0 (map (fun c => default 0 (shapeCount c)) shapes),
       merged ++ concat (map shapePayload shapes)).
Proof.
  intros H. revert total merged.
  induction H as [|i c indices shapes (Hi & Hp & Hn) _ IH]; intros total merged.
  - simpl. rewrite app_nil_r. do 2 f_equal. lia.
  - cbn [mergeLoop]. rewrite Hi, IH. cbn [map foldr concat]. unfold shapeFile.
    pose proof (declaredCount_shape _ _ _ Hp Hn) as Hd.
    unfold declaredCount in Hd. unfold readChunkPly. cbn [vertexData].
    rewrite (proj2 (headerText_headerOf _ (shapePayload c) Hp)).
    rewrite <- app_assoc. f_equal. f_equal.
    destruct (vertexMatch _); cbn in Hd; rewrite <- Hd; cbn; lia.
Qed.

End MergedParts.

(** A merge whose declared vertex count, 2, is smaller than the three
    two-byte records of its payload: the second chunk has no count line. *)
Example mergeChunks_undercounts :
  let st := mkProcesser (Num 3) [] 0 (Str.lit "element vertex 3" ++ Str.nl :: end_header) in
  let fs := mkFiles [] {[0%nat := chunkWithCount; 1%nat := chunkWithoutCount]}
              ∅ None [] None in
  (mergeChunks st fs [0; 1]%nat 0).2 = Returned 2
  /\ plyGrouped (mergeChunks st fs [0; 1]%nat 0).1 !! 0%nat
     = Some (Str.lit "element vertex 2" ++ Str.nl :: end_header
             ++ Str.lit "aabbcc").
Proof. vm_compute. done. Qed.

(** C10, as stated, fails: a chunk whose header has no "element vertex"
    line does not always add 0 to the count.  The pattern is searched in
    the text of the whole file, payload included; the second chunk here has
    no count line and a payload that holds a match, and the merge adds its
    7 to the 2 of the first chunk. *)
Lemma mergeChunks_counts_payload :
  let st := mkProcesser (Num 3) [] 0 (Str.lit "element vertex 3" ++ Str.nl :: end_header) in
  let fs := mkFiles [] {[0%nat := chunkWithCount; 1%nat := chunkCountInPayload]}
              ∅ None [] None in
  chunkCountInPayload = headerOf [Str.lit "ply"] ++ Str.lit "element vertex 7"
  /\ Str.includes (Str.lit "element vertex") (Str.lit "ply") = false
  /\ mergeChunks st fs [0; 1]%nat 0
     = (mkFiles [] (plyChunks fs)
          {[0%nat := Str.lit "element vertex 9" ++ Str.nl :: end_header
                     ++ Str.lit "aabb" ++ Str.lit "element vertex 7"]}
          None [] None,
        Returned 9).
Proof. vm_compute. done. Qed.

(** C10, amended: a group merge over chunk files that exist, each made of
    ASCII header lines, the terminator line and a payload, returns without
    error and writes a header followed by the payloads of all the listed
    chunks, in order; the header has the lines of the header of the
    processer, each line that contains "element vertex" replaced by the
    count line of the summed count (and one empty line more when that
    header does not end with a newline).  A
    chunk whose first line with the text "element vertex" is a count line
    adds the count of that line; a chunk whose header has no such line adds
    0 as long as its payload does not hold the text either (the pattern is
    searched in the whole file), and its payload is merged all the same, so
    that the declared count can be smaller than the number of records in
    the payload.  Counts add up exactly up to 2^53. *)
Theorem mergeChunks_spec (st : SplatProcesser) (fs : files)
    (chunkIndices : list nat) (shapes : list chunkShape) (groupId : nat) :
  asciiText (originalHeader st) ->
  Forall2 (fun i c =>
             plyChunks fs !! i = Some (shapeFile c)
             /\ Forall asciiText (shapeLines c)
             /\ Forall plainLine (shapeLines c)
             /\ chunkCount (shapeLines c) (shapePayload c) (shapeCount c))
    chunkIndices shapes ->
  let total := foldr Z.add 0 (map (fun c => default 0 (shapeCount c)) shapes) in
  total <= 2 ^ 53 ->
  exists mergedHeader : text,
    mergeChunks st fs chunkIndices groupId =
    (mkFiles (inputFile fs) (plyChunks fs)
       (<[groupId := mergedHeader ++ concat (map shapePayload shapes)]>
          (plyGrouped fs))
       (headerInfo fs) (otherChunkEntries fs) (chunksMetadata fs),
     Returned total)
    /\ Str.split Str.nl mergedHeader
       = map (fun line =>
                if Str.includes (Str.lit "element vertex") line
                then countLine total
                else line)
           (Str.split Str.nl (originalHeader st))
         ++ (if Str.endsWith [Str.nl] (originalHeader st) then [] else [[]]).
Proof.
  intros _ H total _. exists (createChunkHeader st (Num total)). split.
  - unfold mergeChunks. rewrite (mergeLoop_shapes _ _ shapes).
    + by rewrite Z.add_0_l.
    + eapply Forall2_impl; [exact H|]. by intros i c (Hi & _ & Hp & Hc).
  - apply createChunkHeader_lines.
Qed.

Lemma mergeChunks_spec_witness :
  let st := mkProcesser (Num 3) [] 0 (Str.lit "element vertex 3" ++ Str.nl :: end_header) in
  let fs := mkFiles [] {[0%nat := chunkWithCount; 1%nat := chunkWithoutCount]}
              ∅ None [] None in
  mergeChunks st fs [0; 1]%nat 0
  = (mkFiles [] (plyChunks fs)
       {[0%nat := Str.lit "element vertex 2" ++ Str.nl :: end_header
                  ++ Str.lit "aabbcc"]}
       None [] None,
     Returned 2).
Proof.
  intros st fs.
  destruct (mergeChunks_spec st fs [0; 1]%nat
              [mkShape [countLine 2] (Str.lit "aabb") (Some 2);
               mkShape [Str.lit "ply"] (Str.lit "cc") None] 0)
    as (mergedHeader & Hm & Hl);
    [..|rewrite Hm, <- (join_split Str.nl mergedHeader), Hl; reflexivity].
  - compute_decide.
  - constructor; [|constructor; [|constructor]].
    + split; [reflexivity|]. split; [compute_decide|].
      split; [repeat constructor; compute_decide|].
      apply (counted _ _ [] 2 []); [reflexivity|lia|constructor].
    + split; [reflexivity|]. split; [compute_decide|].
      split; [repeat constructor; compute_decide|].
      apply uncounted; [repeat constructor|reflexivity].
  - vm_compute. discriminate.
Defined.

(** ** Rounding in binary64 *)

Section Rounding.

Implicit Types (m e n k : Z) (mrs : shr_record) (p : positive).

Lemma digits2_size p : digits2_pos p = Pos.size p.
Proof. induction p; simpl; congruence. Qed.

Lemma Zdigits2_log2 p : Zdigits2 (Zpos p) = Z.log2 (Zpos p) + 1.
Proof.
  simpl. rewrite digits2_size. destruct p; simpl; try lia.
Qed.

Lemma digits_bounds p :
  2 ^ (Zpos (digits2_pos p) - 1) <= Zpos p < 2 ^ Zpos (digits2_pos p).
Proof.
  pose proof (Zdigits2_log2 p) as H. cbn [Zdigits2] in H. rewrite H.
  pose proof (Z.log2_spec (Zpos p) ltac:(lia)) as Hs.
  replace (Z.log2 (Z.pos p) + 1 - 1) with (Z.log2 (Z.pos p)) by lia.
  replace (Z.log2 (Z.pos p) + 1) with (Z.succ (Z.log2 (Z.pos p))) by lia.
  exact Hs.
Qed.

Lemma digits_unique p d :
  2 ^ (d - 1) <= Zpos p < 2 ^ d -> Zpos (digits2_pos p) = d.
Proof.
  intros Hb. pose proof (Zdigits2_log2 p) as H. cbn [Zdigits2] in H. rewrite H.
  assert (0 < d).
  { destruct (Z.le_gt_cases d 0) as [Hd|]; [|lia].
    assert (2 ^ d <= 2 ^ 0) by (apply Z.pow_le_mono_r; lia). simpl in *. lia. }
  rewrite (Z.log2_unique (Zpos p) (d - 1)); [lia|lia|].
  replace (Z.succ (d - 1)) with d by lia. exact Hb.
Qed.

Lemma shr_1_m mrs : 0 <= shr_m mrs -> shr_m (shr_1 mrs) = shr_m mrs / 2.
Proof.
  destruct mrs as [m r s]. cbn [shr_m]. intros Hm.
  rewrite <- Z.div2_div. destruct m as [|[q|q|]|q]; try reflexivity. lia.
Qed.

Lemma shr_1_nonneg mrs : 0 <= shr_m mrs -> 0 <= shr_m (shr_1 mrs).
Proof. intros H. rewrite shr_1_m by done. apply Z.div_pos; lia. Qed.

Lemma pow2_xO p : 2 ^ Zpos p~0 = 2 ^ Zpos p * 2 ^ Zpos p.
Proof.
  assert (Zpos p~0 = Zpos p + Zpos p) as -> by lia.
  apply Z.pow_add_r; lia.
Qed.

Lemma pow2_xI p : 2 ^ Zpos p~1 = 2 * (2 ^ Zpos p * 2 ^ Zpos p).
Proof.
  assert (Zpos p~1 = 1 + (Zpos p + Zpos p)) as -> by lia.
  rewrite !Z.pow_add_r by lia. done.
Qed.

Lemma iter_shr_m p mrs :
  0 <= shr_m mrs ->
  shr_m (SpecFloat.iter_pos shr_1 p mrs) = shr_m mrs / 2 ^ Zpos p.
Proof.
  revert mrs. induction p as [p IH|p IH|]; intros mrs Hm;
    cbn [SpecFloat.iter_pos].
  - assert (H1 : 0 <= shr_m (shr_1 mrs)) by by apply shr_1_nonneg.
    assert (H2 : 0 <= shr_m (SpecFloat.iter_pos shr_1 p (shr_1 mrs))).
    { rewrite IH by done. apply Z.div_pos; lia. }
    rewrite IH, IH, shr_1_m by done.
    rewrite !Z.div_div by lia. by rewrite pow2_xI.
  - assert (H2 : 0 <= shr_m (SpecFloat.iter_pos shr_1 p mrs)).
    { rewrite IH by done. apply Z.div_pos; lia. }
    rewrite IH, IH by done. rewrite Z.div_div by lia. by rewrite pow2_xO.
  - rewrite shr_1_m by done. done.
Qed.

Lemma shr_spec mrs e n :
  0 <= shr_m mrs ->
  shr_m (shr mrs e n).1 = shr_m mrs / 2 ^ Z.max 0 n
  /\ (shr mrs e n).2 = e + Z.max 0 n.
Proof.
  intros Hm. destruct n as [|p|p]; simpl.
  - rewrite Z.div_1_r. lia.
  - rewrite iter_shr_m by done. split; [done|lia].
  - rewrite Z.div_1_r. lia.
Qed.

Lemma shr_record_of_loc_m m l : shr_m (shr_record_of_loc m l) = m.
Proof. destruct l as [|[]]; done. Qed.

Lemma rne_bounds m l :
  m <= round_nearest_even m l <= m + 1.
Proof. destruct l as [|[]]; simpl; try destruct (Z.even m); lia. Qed.

Lemma pow2_pos k : 0 < 2 ^ k \/ k < 0.
Proof. destruct (Z.le_gt_cases 0 k); [left; by apply Z.pow_pos_nonneg|by right]. Qed.

(** Dividing a number of [d] bits by [2^(d - q)] leaves [q] bits. *)
Lemma shift_bounds m d q :
  0 < q <= d -> 2 ^ (d - 1) <= m < 2 ^ d ->
  2 ^ (q - 1) <= m / 2 ^ (d - q) < 2 ^ q.
Proof.
  intros Hq [Hlo Hhi].
  assert (Hk : 0 < 2 ^ (d - q)) by (apply Z.pow_pos_nonneg; lia).
  split.
  - apply Z.div_le_lower_bound; [done|].
    rewrite <- Z.pow_add_r by lia. by replace (d - q + (q - 1)) with (d - 1) by lia.
  - apply Z.div_lt_upper_bound; [done|].
    rewrite <- Z.pow_add_r by lia. by replace (d - q + q) with d by lia.
Qed.

Lemma fexp_normal x : emin <= x - prec -> fexp prec emax x = x - prec.
Proof. unfold fexp. lia. Qed.

(** Rounding a mantissa of at least [prec] bits whose magnitude is in the
    range of the normal numbers gives a normal number, of the same magnitude
    or the next one. *)
Lemma binary_round_aux_normal s p e l :
  let d := Zpos (digits2_pos p) in
  prec <= d -> emin <= d + e - prec -> d + e + 1 <= emax ->
  magnitudeIn s (d + e) (d + e + 1) (binary_round_aux prec emax s (Zpos p) e l).
Proof.
  intros d Hd Hlo Hhi. unfold binary_round_aux, shr_fexp.
  cbn [Zdigits2]. fold d. rewrite fexp_normal by done.
  pose proof (shr_spec (shr_record_of_loc (Zpos p) l) e (d + e - prec - e))
    as [Hm1 He1]; [by rewrite shr_record_of_loc_m|].
  destruct (shr _ e _) as [mrs1 e1]. cbn [fst snd] in Hm1, He1.
  rewrite shr_record_of_loc_m in Hm1.
  replace (Z.max 0 (d + e - prec - e)) with (d - prec) in Hm1, He1 by lia.
  pose proof (shift_bounds (Zpos p) d prec ltac:(unfold prec in *; lia)
                (digits_bounds p)) as Hb1.
  rewrite <- Hm1 in Hb1.
  pose proof (rne_bounds (shr_m mrs1) (loc_of_shr_record mrs1)) as Hr.
  set (m1 := round_nearest_even (shr_m mrs1) (loc_of_shr_record mrs1)) in *.
  assert (Hm1pos : 0 < m1).
  { assert (0 < 2 ^ (prec - 1)) by (apply Z.pow_pos_nonneg; unfold prec; lia). lia. }
  destruct m1 as [|p1|p1] eqn:Ep1; [lia| |lia].
  cbn [Zdigits2].
  assert (Hd1 : Zpos (digits2_pos p1) = prec /\ Zpos p1 < 2 ^ prec
                \/ Zpos (digits2_pos p1) = prec + 1 /\ Zpos p1 = 2 ^ prec).
  { destruct (Z.lt_ge_cases (Zpos p1) (2 ^ prec)) as [Hlt|Hge].
    - left. split; [|done]. apply digits_unique. lia.
    - right. assert (Zpos p1 = 2 ^ prec) as Heq by lia. split; [|done].
      apply digits_unique. rewrite Heq.
      replace (prec + 1 - 1) with prec by lia. split; [lia|].
      apply Z.pow_lt_mono_r; unfold prec; lia. }
  pose proof (shr_spec (shr_record_of_loc (Zpos p1) loc_Exact) e1
                (fexp prec emax (Zpos (digits2_pos p1) + e1) - e1))
    as [Hm2 He2]; [by rewrite shr_record_of_loc_m|].
  destruct (shr _ e1 _) as [mrs2 e2]. cbn [fst snd] in Hm2, He2.
  rewrite shr_record_of_loc_m in Hm2.
  destruct Hd1 as [[Hd1 Hlt]|[Hd1 Heq]]; rewrite Hd1 in Hm2, He2;
    rewrite fexp_normal in Hm2, He2 by lia.
  - replace (Z.max 0 (prec + e1 - prec - e1)) with 0 in Hm2, He2 by lia.
    rewrite Z.pow_0_r, Z.div_1_r in Hm2. rewrite Hm2.
    replace (e2 <=? emax - prec) with true by (symmetry; apply Z.leb_le; lia).
    exists p1, e2. split; [done|]. split; [done|lia].
  - replace (Z.max 0 (prec + 1 + e1 - prec - e1)) with 1 in Hm2, He2 by lia.
    rewrite Heq in Hm2. change (2 ^ prec / 2 ^ 1) with (2 ^ (prec - 1)) in Hm2.
    rewrite Hm2. change (2 ^ (prec - 1)) with (Zpos (Z.to_pos (2 ^ (prec - 1)))).
    cbv iota.
    replace (e2 <=? emax - prec) with true by (symmetry; apply Z.leb_le; lia).
    eexists _, e2. split; [done|]. split; [reflexivity|lia].
Qed.

Lemma magnitudeIn_weaken s lo hi lo' hi' x :
  magnitudeIn s lo hi x -> lo' <= lo -> hi <= hi' -> magnitudeIn s lo' hi' x.
Proof. intros (m' & e' & -> & Hd & Hb) ? ?. exists m', e'. repeat split; lia. Qed.

Lemma normal_bounds p :
  Zpos (digits2_pos p) = prec -> 2 ^ (prec - 1) <= Zpos p < 2 ^ prec.
Proof. intros <-. apply digits_bounds. Qed.

(** The product of two normal numbers. *)
Lemma SFmul_normal sx sy lx hx ly hy x y :
  magnitudeIn sx lx hx x -> magnitudeIn sy ly hy y ->
  emin + prec <= lx + ly - 1 -> hx + hy + 1 <= emax ->
  magnitudeIn (xorb sx sy) (lx + ly - 1) (hx + hy + 1) (SFmul prec emax x y).
Proof.
  intros (mx & ex & -> & Hdx & Hbx) (my & ey & -> & Hdy & Hby) Hlo Hhi.
  cbn [SFmul]. pose proof (normal_bounds mx Hdx) as Hmx.
  pose proof (normal_bounds my Hdy) as Hmy.
  change (Z.pos (mx * my)) with (Zpos mx * Zpos my).
  set (d := Zpos (digits2_pos (mx * my))).
  assert (Hd : d = 2 * prec - 1 \/ d = 2 * prec).
  { unfold d.
    assert (H2 : 2 ^ (2 * prec - 2) <= Zpos mx * Zpos my < 2 ^ (2 * prec)).
    { change (2 ^ (2 * prec - 2)) with (2 ^ (prec - 1) * 2 ^ (prec - 1)).
      change (2 ^ (2 * prec)) with (2 ^ prec * 2 ^ prec).
      assert (0 < 2 ^ (prec - 1)) by done. nia. }
    destruct (Z.lt_ge_cases (Zpos mx * Zpos my) (2 ^ (2 * prec - 1))).
    - left. apply digits_unique. rewrite Pos2Z.inj_mul.
      replace (2 * prec - 1 - 1) with (2 * prec - 2) by lia. lia.
    - right. apply digits_unique. rewrite Pos2Z.inj_mul. lia. }
  eapply magnitudeIn_weaken.
  - apply binary_round_aux_normal; fold d; unfold prec, emax, emin in *; lia.
  - fold d. unfold prec in *. lia.
  - fold d. unfold prec in *. lia.
Qed.

(** The quotient of two normal numbers. *)
Lemma SFdiv_normal sx sy lx hx ly hy x y :
  magnitudeIn sx lx hx x -> magnitudeIn sy ly hy y ->
  emin + prec <= lx - hy -> hx - ly + 2 <= emax ->
  magnitudeIn (xorb sx sy) (lx - hy) (hx - ly + 2) (SFdiv prec emax x y).
Proof.
  intros (mx & ex & -> & Hdx & Hbx) (my & ey & -> & Hdy & Hby) Hlo Hhi.
  cbn [SFdiv]. unfold SFdiv_core_binary. cbn [Zdigits2].
  rewrite Hdx, Hdy.
  replace (prec + ex - (prec + ey)) with (ex - ey) by lia.
  rewrite fexp_normal by (unfold prec, emin, emax in *; lia).
  replace (Z.min (ex - ey - prec) (ex - ey)) with (ex - ey - prec)
    by (unfold prec; lia).
  replace (ex - ey - (ex - ey - prec)) with prec by lia.
  change (match prec with Z0 => Zpos mx | Zpos _ => Z.shiftl (Zpos mx) prec
          | Zneg _ => 0 end) with (Z.shiftl (Zpos mx) prec).
  rewrite Z.shiftl_mul_pow2 by done.
  pose proof (normal_bounds mx Hdx) as Hmx.
  pose proof (normal_bounds my Hdy) as Hmy.
  destruct (Z.div_eucl (Zpos mx * 2 ^ prec) (Zpos my)) as [q r] eqn:Eq.
  assert (Hq : q = Zpos mx * 2 ^ prec / Zpos my)
    by (unfold Z.div; by rewrite Eq).
  assert (Hqb : 2 ^ (prec - 1) <= q < 2 ^ (prec + 1)).
  { rewrite Hq. split.
    - apply Z.div_le_lower_bound; [lia|].
      change (2 ^ prec) with (2 * 2 ^ (prec - 1)) in *.
      assert (0 < 2 ^ (prec - 1)) by done. nia.
    - apply Z.div_lt_upper_bound; [lia|].
      change (2 ^ (prec + 1)) with (2 * 2 ^ prec) in *.
      change (2 ^ prec) with (2 * 2 ^ (prec - 1)) in *.
      assert (0 < 2 ^ (prec - 1)) by done. nia. }
  assert (0 < 2 ^ (prec - 1)) by done.
  destruct q as [|pq|pq]; [lia| |lia].
  set (d := Zpos (digits2_pos pq)).
  assert (Hd : d = prec \/ d = prec + 1).
  { unfold d. destruct (Z.lt_ge_cases (Zpos pq) (2 ^ prec)).
    - left. apply digits_unique. lia.
    - right. apply digits_unique.
      replace (prec + 1 - 1) with prec by lia. lia. }
  eapply magnitudeIn_weaken.
  - apply binary_round_aux_normal; fold d; unfold prec, emax, emin in *; lia.
  - fold d. unfold prec in *. lia.
  - fold d. unfold prec in *. lia.
Qed.

Lemma shl_align_digits p e e' :
  let '(mz, ez) := shl_align p e e' in
  Zpos (digits2_pos mz) + ez = Zpos (digits2_pos p) + e
  /\ ez = Z.min e e'.
Proof.
  unfold shl_align. destruct (e' - e) as [|k|k] eqn:E; [lia|lia|].
  split; [|lia].
  change (Pos.iter xO p k) with (shift_pos k p).
  assert (Hd : Zpos (digits2_pos (shift_pos k p)) = Zpos (digits2_pos p) + Zpos k).
  { apply digits_unique. rewrite shift_pos_correct, Z.pow_pos_fold.
    pose proof (digits_bounds p) as [Hl Hh].
    assert (0 < 2 ^ Zpos k) by (apply Z.pow_pos_nonneg; lia).
    replace (Zpos (digits2_pos p) + Zpos k - 1)
      with (Zpos k + (Zpos (digits2_pos p) - 1)) by lia.
    rewrite (Z.add_comm (Zpos (digits2_pos p))).
    rewrite !Z.pow_add_r by lia. nia. }
  lia.
Qed.

(** The double nearest to a positive integer below 2^63. *)
Lemma of_pos_normal p :
  Zpos p < 2 ^ 63 ->
  magnitudeIn false 1 64 (binary_normalize prec emax (Zpos p) 0 false).
Proof.
  intros Hp. cbn [binary_normalize]. unfold binary_round.
  pose proof (shl_align_digits p 0 (fexp prec emax (Zpos (digits2_pos p) + 0)))
    as Ha.
  destruct (shl_align p 0 _) as [mz ez]. destruct Ha as [Hd He].
  assert (Hdp : 1 <= Zpos (digits2_pos p) <= 63).
  { split; [lia|]. destruct (Z.le_gt_cases (Zpos (digits2_pos p)) 63); [done|].
    pose proof (digits_bounds p) as [Hl _].
    assert (2 ^ 63 <= 2 ^ (Zpos (digits2_pos p) - 1))
      by (apply Z.pow_le_mono_r; lia). lia. }
  rewrite fexp_normal in He by (unfold prec, emin, emax; lia).
  eapply magnitudeIn_weaken.
  - apply binary_round_aux_normal; unfold prec, emax, emin in *; lia.
  - lia.
  - lia.
Qed.

Lemma SFopp_normal s lo hi x :
  magnitudeIn s lo hi x -> magnitudeIn (negb s) lo hi (SFopp x).
Proof. intros (m' & e' & -> & ? & ?). by exists m', e'. Qed.

End Rounding.

(** ** Chunk sizing (C1, C5) *)

Section Sizing.

Implicit Types (st : SplatProcesser) (z b target : Z).

Lemma bytesPerVertex_fold types widths acc :
  map getTypeSize types = map Width widths ->
  fold_left
    (fun sum type =>
       match sum, getTypeSize type with
       | Num s, Width n => Num (s + n)
       | _, _ => NaN
       end) types (Num acc)
  = Num (acc + foldr Z.add 0 widths).
Proof.
  revert widths acc. induction types as [|t types IH]; intros [|n widths] acc H;
    try discriminate.
  - simpl. f_equal. lia.
  - cbn [map] in H. injection H as Ht H. cbn [fold_left foldr].
    rewrite Ht, (IH widths) by done. f_equal. lia.
Qed.

(** The record width is the sum of the widths of the schema's types. *)
Lemma bytesPerVertex_widths st widths :
  map getTypeSize (map snd (propertyTypes st)) = map Width widths ->
  bytesPerVertex st = Num (foldr Z.add 0 widths).
Proof.
  intros H. unfold bytesPerVertex.
  rewrite (bytesPerVertex_fold _ widths 0) by done. f_equal.
Qed.

Lemma ofZ_pos z :
  0 < z < 2 ^ 63 -> magnitudeIn false 1 64 (Prim2SF (F64.ofZ z)).
Proof.
  intros Hz. destruct z as [|p|p]; [lia| |lia]. cbn [F64.ofZ].
  rewrite FloatAxioms.of_uint63_spec, Uint63.of_Z_spec.
  rewrite Z.mod_small by (change wB with (2 ^ 63); lia).
  apply of_pos_normal. lia.
Qed.

Lemma ofZ_neg z :
  - 2 ^ 63 < z < 0 -> magnitudeIn true 1 64 (Prim2SF (F64.ofZ z)).
Proof.
  intros Hz. destruct z as [|p|p]; [lia|lia|]. cbn [F64.ofZ Z.opp].
  rewrite FloatAxioms.opp_spec, FloatAxioms.of_uint63_spec, Uint63.of_Z_spec.
  rewrite Z.mod_small by (change wB with (2 ^ 63); lia).
  apply (SFopp_normal false), of_pos_normal. lia.
Qed.

Lemma rate_normal :
  magnitudeIn false (-3) (-3) (Prim2SF (1 - EXPECTED_COMPRESSION_RATE)%float).
Proof.
  eexists _, _. split; [vm_compute; reflexivity|].
  split; [done|unfold prec; lia].
Qed.

Lemma overhead_normal :
  magnitudeIn false 1 1 (Prim2SF BASE64_OVERHEAD).
Proof.
  eexists _, _. split; [vm_compute; reflexivity|].
  split; [done|unfold prec; lia].
Qed.

(** The divisor of the sizing quotient is a normal positive number. *)
Lemma divisor_normal b :
  1 <= b < 2 ^ 63 ->
  magnitudeIn false (-3) 66
    (Prim2SF (F64.ofNumber (Num b) * (1 - EXPECTED_COMPRESSION_RATE)
              * BASE64_OVERHEAD)%float).
Proof.
  intros Hb. rewrite !FloatAxioms.mul_spec. cbn [F64.ofNumber].
  pose proof (SFmul_normal false false 1 64 (-3) (-3) _ _
                (ofZ_pos b ltac:(lia)) rate_normal) as H1.
  pose proof (SFmul_normal false false _ _ 1 1 _ _
                (H1 ltac:(unfold emin, prec, emax; lia)
                    ltac:(unfold emax; lia)) overhead_normal) as H2.
  eapply magnitudeIn_weaken;
    [apply H2; unfold emin, prec, emax; lia|lia|lia].
Qed.

Lemma floorSF_sign s lo hi x :
  magnitudeIn s lo hi x ->
  exists z, F64.floorSF x = Num z /\ if s then z < 0 else 0 <= z.
Proof.
  intros (m & e & -> & _ & _). eexists. split; [reflexivity|].
  destruct s; cbn [cond_Zopp Z.opp].
  - apply Z.nle_gt. rewrite Z.shiftl_nonneg. lia.
  - apply Z.shiftl_nonneg. lia.
Qed.

(** With a positive record width the chunk size is an integer: 1 when
    nothing is available, at least 1 otherwise. *)
Lemma verticesPerChunk_sized st target b :
  bytesPerVertex st = Num b -> 1 <= b < 2 ^ 63 ->
  - 2 ^ 63 < availableSize st target < 2 ^ 63 ->
  (availableSize st target <= 0 -> verticesPerChunk st target = Num 1)
  /\ (0 < availableSize st target ->
      exists z, 1 <= z /\ verticesPerChunk st target = Num z).
Proof.
  intros Hb Hrange Ha. unfold verticesPerChunk, F64.floor.
  rewrite Hb, FloatAxioms.div_spec. unfold SF64div.
  pose proof (divisor_normal b Hrange) as Hd.
  set (d := Prim2SF (_ * _ * _)%float) in *.
  set (a := availableSize st target) in *.
  destruct (Z.lt_trichotomy a 0) as [Hneg|[Hzero|Hpos]].
  - split; [intros _|lia].
    pose proof (SFdiv_normal true false 1 64 (-3) 66 _ _
                  (ofZ_neg a ltac:(lia)) Hd
                  ltac:(unfold emin, prec, emax; lia)
                  ltac:(unfold emax; lia)) as Hq.
    apply floorSF_sign in Hq as (z & -> & Hz). cbn in Hz |- *.
    by rewrite (proj2 (Z.ltb_ge 1 z)) by lia.
  - split; [intros _|lia]. rewrite Hzero.
    destruct Hd as (m & e & -> & _ & _). reflexivity.
  - split; [lia|intros _].
    pose proof (SFdiv_normal false false 1 64 (-3) 66 _ _
                  (ofZ_pos a ltac:(lia)) Hd
                  ltac:(unfold emin, prec, emax; lia)
                  ltac:(unfold emax; lia)) as Hq.
    apply floorSF_sign in Hq as (z & -> & Hz). cbn in Hz |- *.
    destruct (1 <? z) eqn:E.
    + apply Z.ltb_lt in E. exists z. split; [lia|done].
    + exists 1. done.
Qed.

End Sizing.

(** C1, as stated, fails: the code divides by the record width times
    (1 - 0.9) times 1.25, not times 0.9 times 4/3.  In the scenario of the
    claim (32 bytes per vertex, a header of 120 bytes, a target of 566) the
    claimed formula gives 11 and the code computes 111, hence 91 chunks over
    10,000 vertices, the last one of 10 vertices. *)
Lemma verticesPerChunk_scenario :
  bytesPerVertex scenario = Num 32 /\ headerSize scenario = 120
  /\ claimedVerticesPerChunk scenario 566 = Num 11
  /\ verticesPerChunk scenario 566 = Num 111
  /\ JS.ceilDiv (vertexCount scenario) (verticesPerChunk scenario 566) = Num 91.
Proof. vm_compute. done. Qed.

(** C1, amended: for every schema of types with a width, every header text
    and every target byte budget, the chunk-sizing computation in [split]
    returns max(1, floor((targetSizeBytes - headerSize) / (rawBytesPerVertex
    * (1 - 0.9) * 1.25))), evaluated in double precision, where
    rawBytesPerVertex is the sum of the schema's per-type widths and
    headerSize is the length of the header text; in particular, for 32 bytes
    per vertex, a header of 120 bytes and targetSizeBytes = 566 it returns
    111, giving 91 chunks over 10,000 vertices with 10 vertices in the last
    chunk. *)
Theorem verticesPerChunk_formula (st : SplatProcesser) (target : Z)
    (widths : list Z) :
  map getTypeSize (map snd (propertyTypes st)) = map Width widths ->
  verticesPerChunk st target =
    JS.max (Num 1)
      (F64.floor
         (F64.ofZ (target - Z.of_nat (length (originalHeader st))) /
          (F64.ofZ (foldr Z.add 0%Z widths) * (1 - EXPECTED_COMPRESSION_RATE)
           * BASE64_OVERHEAD))%float)
  /\ (foldr Z.add 0 widths = 32 -> length (originalHeader st) = 120%nat ->
      target = 566 ->
      verticesPerChunk st target = Num 111
      /\ JS.ceilDiv (Num 10000) (verticesPerChunk st target) = Num 91
      /\ firstVertex 10000 111 91 - firstVertex 10000 111 90 = 10).
Proof.
  intros Hw.
  assert (Hf : verticesPerChunk st target =
    JS.max (Num 1)
      (F64.floor
         (F64.ofZ (target - Z.of_nat (length (originalHeader st))) /
          (F64.ofZ (foldr Z.add 0%Z widths) * (1 - EXPECTED_COMPRESSION_RATE)
           * BASE64_OVERHEAD))%float)).
  { unfold verticesPerChunk. by rewrite (bytesPerVertex_widths st widths Hw). }
  split; [exact Hf|]. intros H32 H120 ->. rewrite Hf, H32, H120.
  vm_compute. done.
Qed.

Lemma verticesPerChunk_formula_witness :
  verticesPerChunk scenario 566 = Num 111.
Proof.
  apply (verticesPerChunk_formula scenario 566 [4; 4; 4; 4; 4; 4; 4; 4]);
    vm_compute; reflexivity.
Defined.

(** C5, as stated, fails: there is no SizeBudgetError.  With a target of 100
    bytes under the 120 bytes of the header the computation returns 1; and
    with an empty schema and a target above the header size it returns
    Infinity, which is not an integer. *)
Lemma verticesPerChunk_under_budget :
  availableSize scenario 100 = -20
  /\ verticesPerChunk scenario 100 = Num 1
  /\ bytesPerVertex constructor = Num 0
  /\ availableSize constructor 566 = 566
  /\ verticesPerChunk constructor 566 = PInf.
Proof. vm_compute. done. Qed.

(** C5, amended: for every header text, every schema whose record width is
    positive and every integer target budget (all below 2^53), the
    chunk-size computation does not fail: for targetSizeBytes <= headerSize
    (availableSize <= 0) it returns 1, and for every targetSizeBytes >
    headerSize it returns an integer >= 1. *)
Theorem verticesPerChunk_no_budget_error (st : SplatProcesser)
    (target width : Z) :
  bytesPerVertex st = Num width -> 1 <= width < 2 ^ 53 ->
  - 2 ^ 53 < target - headerSize st < 2 ^ 53 ->
  (target <= headerSize st -> verticesPerChunk st target = Num 1)
  /\ (headerSize st < target ->
      exists n, 1 <= n /\ verticesPerChunk st target = Num n).
Proof.
  intros Hb Hw Ha.
  destruct (verticesPerChunk_sized st target width Hb) as [H1 H2];
    [lia|unfold availableSize; lia|].
  unfold availableSize in *. split; intros H; [apply H1|apply H2]; lia.
Qed.

Lemma verticesPerChunk_no_budget_error_witness :
  verticesPerChunk scenario 100 = Num 1.
Proof.
  apply (verticesPerChunk_no_budget_error scenario 100 32).
  - vm_compute. reflexivity.
  - lia.
  - vm_compute. done.
  - vm_compute. discriminate.
Defined.

(** ** Rounding to the nearest double *)

Section Nearest.

Implicit Types (m e n k N D : Z) (mrs : shr_record) (p : positive).

Lemma shr_1_bits m r s :
  0 <= m ->
  shr_1 (Build_shr_record m r s) = Build_shr_record (m / 2) (Z.odd m) (r || s).
Proof.
  intros Hm. rewrite <- Z.div2_div.
  destruct m as [|[q|q|]|q]; try reflexivity. lia.
Qed.

Lemma shifted_step N D k mrs :
  0 <= N -> 0 < D -> 0 <= k ->
  shifted N D k mrs -> shifted N D (k + 1) (shr_1 mrs).
Proof.
  intros HN HD Hk (Hm & Hr & Hs). destruct mrs as [m r s].
  cbn [shr_m shr_r shr_s] in *.
  assert (HP : 0 < 2 ^ k * D) by (apply Z.mul_pos_pos; [by apply Z.pow_pos_nonneg|done]).
  set (P := 2 ^ k * D) in *.
  assert (Hm0 : 0 <= m) by (subst m; by apply Z.div_pos).
  rewrite shr_1_bits by done. unfold shifted. cbn [shr_m shr_r shr_s].
  replace (2 ^ (k + 1) * D) with (2 * P)
    by (unfold P; rewrite Z.pow_add_r by lia; lia).
  pose proof (Z.div_mod N P ltac:(lia)) as HNP.
  pose proof (Z.mod_pos_bound N P HP) as HRP.
  pose proof (Z.div_mod m 2 ltac:(lia)) as Hm2.
  pose proof (Z.mod_pos_bound m 2 ltac:(lia)) as Hb2.
  set (R := N mod P) in *. rewrite <- Hm in HNP.
  assert (Hq : N / (2 * P) = m / 2 /\ N mod (2 * P) = (m mod 2) * P + R).
  { apply (Z.div_mod_unique (2 * P) _ _ (N mod (2 * P)) ((m mod 2) * P + R)).
    - left. apply Z.mod_pos_bound. lia.
    - left. nia.
    - rewrite <- (Z.div_mod N (2 * P)) by lia. rewrite HNP at 1. nia. }
  destruct Hq as [Hq1 Hq2]. rewrite Hq1, Hq2. split; [done|].
  rewrite Hr, Hs, Zmod_odd. clear Hq1 Hq2 Hm2 Hb2.
  destruct (Z.odd m).
  - replace (1 * P + R) with (P + R) by lia. split.
    + symmetry. apply Z.leb_le. lia.
    + destruct (P <=? 2 * R) eqn:E1, (R =? 0) eqn:E2, (2 * R =? P) eqn:E3,
        (P + R =? 0) eqn:E4, (2 * (P + R) =? 2 * P) eqn:E5; cbn; try done;
        repeat match goal with
               | H : (_ <=? _) = true |- _ => apply Z.leb_le in H
               | H : (_ <=? _) = false |- _ => apply Z.leb_gt in H
               | H : (_ =? _) = true |- _ => apply Z.eqb_eq in H
               | H : (_ =? _) = false |- _ => apply Z.eqb_neq in H
               end; lia.
  - replace (0 * P + R) with R by lia. split.
    + symmetry. apply Z.leb_gt. lia.
    + destruct (P <=? 2 * R) eqn:E1, (R =? 0) eqn:E2, (2 * R =? P) eqn:E3,
        (2 * R =? 2 * P) eqn:E4; cbn; try done;
        repeat match goal with
               | H : (_ <=? _) = true |- _ => apply Z.leb_le in H
               | H : (_ <=? _) = false |- _ => apply Z.leb_gt in H
               | H : (_ =? _) = true |- _ => apply Z.eqb_eq in H
               | H : (_ =? _) = false |- _ => apply Z.eqb_neq in H
               end; lia.
Qed.

Lemma shifted_iter N D k p mrs :
  0 <= N -> 0 < D -> 0 <= k ->
  shifted N D k mrs ->
  shifted N D (k + Zpos p) (SpecFloat.iter_pos shr_1 p mrs).
Proof.
  intros HN HD. revert k mrs.
  induction p as [p IH|p IH|]; intros k mrs Hk Hs; cbn [SpecFloat.iter_pos].
  - replace (k + Zpos p~1) with (k + 1 + Zpos p + Zpos p) by lia.
    apply IH; [lia|]. apply IH; [lia|]. by apply shifted_step.
  - replace (k + Zpos p~0) with (k + Zpos p + Zpos p) by lia.
    apply IH; [lia|]. by apply IH.
  - by apply shifted_step.
Qed.

(** Rounding to nearest is within half a unit of the exact value. *)
Lemma rne_nearest N D k mrs :
  0 <= N -> 0 < D -> 0 <= k ->
  shifted N D k mrs ->
  let m := round_nearest_even (shr_m mrs) (loc_of_shr_record mrs) in
  2 * Z.abs (m * (2 ^ k * D) - N) <= 2 ^ k * D.
Proof.
  intros HN HD Hk (Hm & Hr & Hs). destruct mrs as [m r s].
  cbn [shr_m shr_r shr_s] in *.
  assert (HP : 0 < 2 ^ k * D) by (apply Z.mul_pos_pos; [by apply Z.pow_pos_nonneg|done]).
  set (P := 2 ^ k * D) in *.
  pose proof (Z.div_mod N P ltac:(lia)) as HNP.
  pose proof (Z.mod_pos_bound N P HP) as HRP.
  set (R := N mod P) in *. rewrite <- Hm in HNP.
  cbv zeta. unfold loc_of_shr_record, round_nearest_even.
  destruct r, s; symmetry in Hr, Hs;
    repeat match goal with
           | H : (_ <=? _) = true |- _ => apply Z.leb_le in H
           | H : (_ <=? _) = false |- _ => apply Z.leb_gt in H
           | H : _ && _ = true |- _ => apply andb_prop in H as [? ?]
           | H : negb _ = true |- _ => apply negb_true_iff in H
           | H : (_ =? _) = true |- _ => apply Z.eqb_eq in H
           | H : (_ =? _) = false |- _ => apply Z.eqb_neq in H
           end.
  - nia.
  - destruct (Z.even m); nia.
  - nia.
  - apply andb_false_iff in Hs as [Hs|Hs]; apply negb_false_iff in Hs;
      apply Z.eqb_eq in Hs; nia.
Qed.

Lemma rne_exact N D k mrs :
  0 <= N -> 0 < D -> 0 <= k ->
  shifted N D k mrs -> N mod (2 ^ k * D) = 0 ->
  round_nearest_even (shr_m mrs) (loc_of_shr_record mrs) * (2 ^ k * D) = N.
Proof.
  intros HN HD Hk (Hm & Hr & Hs) H0. destruct mrs as [m r s].
  cbn [shr_m shr_r shr_s] in *.
  assert (HP : 0 < 2 ^ k * D) by (apply Z.mul_pos_pos; [by apply Z.pow_pos_nonneg|done]).
  pose proof (Z.div_mod N (2 ^ k * D) ltac:(lia)) as HNP.
  rewrite H0 in Hr, Hs, HNP. rewrite <- Hm in HNP.
  rewrite (proj2 (Z.leb_gt _ _)) in Hr by lia. cbn in Hs. subst r s.
  cbn. lia.
Qed.

Lemma shifted_loc N D m l :
  0 <= N -> 0 < D ->
  m = N / D ->
  l = (if N mod D =? 0 then loc_Exact
       else loc_Inexact (2 * (N mod D) ?= D)) ->
  shifted N D 0 (shr_record_of_loc m l).
Proof.
  intros HN HD -> ->. unfold shifted. rewrite Z.pow_0_r, Z.mul_1_l.
  pose proof (Z.mod_pos_bound N D HD) as HR. set (R := N mod D) in *.
  destruct (R =? 0) eqn:E0.
  - apply Z.eqb_eq in E0. cbn. rewrite E0. cbn.
    split; [done|]. split; [|done]. symmetry. apply Z.leb_gt. lia.
  - apply Z.eqb_neq in E0. destruct (2 * R ?= D) eqn:Ec; cbn.
    + apply Z.compare_eq in Ec. split; [done|]. split.
      * symmetry. apply Z.leb_le. lia.
      * rewrite (proj2 (Z.eqb_eq (2 * R) D)) by done. done.
    + rewrite Z.compare_lt_iff in Ec. split; [done|]. split.
      * symmetry. apply Z.leb_gt. lia.
      * by rewrite (proj2 (Z.eqb_neq (2 * R) D)) by lia.
    + rewrite Z.compare_gt_iff in Ec. split; [done|]. split.
      * symmetry. apply Z.leb_le. lia.
      * by rewrite (proj2 (Z.eqb_neq (2 * R) D)) by lia.
Qed.

End Nearest.

Section NearestRounding.

Implicit Types (m e n k N D : Z) (mrs : shr_record) (p : positive).

Lemma shr_shifted N D mrs e n :
  0 <= N -> 0 < D -> 0 <= n ->
  shifted N D 0 mrs ->
  shifted N D n (shr mrs e n).1 /\ (shr mrs e n).2 = e + n.
Proof.
  intros HN HD Hn Hs. destruct n as [|q|q]; [|cbn [shr fst snd]|lia].
  - cbn. split; [done|lia].
  - split; [|done]. by apply (shifted_iter N D 0 q).
Qed.

(** Rounding a mantissa of at least [prec] bits in the range of the normal
    numbers gives the normal number nearest to the exact value [N / D] (in
    units of the last place of the input): the result is within half a unit
    of its own last place. *)
Lemma binary_round_aux_nearest s p e l N D :
  let d := Zpos (digits2_pos p) in
  prec <= d -> emin <= d + e - prec -> d + e + 1 <= emax ->
  0 <= N -> 0 < D ->
  shifted N D 0 (shr_record_of_loc (Zpos p) l) ->
  exists (m : positive) (e' k : Z),
    binary_round_aux prec emax s (Zpos p) e l = S754_finite s m e'
    /\ Zpos (digits2_pos m) = prec
    /\ e' = e + k /\ d - prec <= k <= d - prec + 1
    /\ 2 * Z.abs (Zpos m * (2 ^ k * D) - N) <= 2 ^ k * D
    /\ (N mod (2 ^ (d - prec) * D) = 0 -> Zpos m * (2 ^ k * D) = N).
Proof.
  intros d Hd Hlo Hhi HN HD Hs0. unfold binary_round_aux, shr_fexp.
  cbn [Zdigits2]. fold d. rewrite fexp_normal by done.
  replace (d + e - prec - e) with (d - prec) by lia.
  destruct (shr_shifted N D (shr_record_of_loc (Zpos p) l) e (d - prec)
              HN HD ltac:(lia) Hs0) as [Hs1 He1].
  pose proof (shr_spec (shr_record_of_loc (Zpos p) l) e (d - prec))
    as [Hm1 _]; [by rewrite shr_record_of_loc_m|].
  destruct (shr _ e _) as [mrs1 e1]. cbn [fst snd] in Hs1, He1, Hm1.
  rewrite shr_record_of_loc_m in Hm1.
  replace (Z.max 0 (d - prec)) with (d - prec) in Hm1 by lia.
  pose proof (shift_bounds (Zpos p) d prec ltac:(unfold prec in *; lia)
                (digits_bounds p)) as Hb1.
  rewrite <- Hm1 in Hb1.
  pose proof (rne_bounds (shr_m mrs1) (loc_of_shr_record mrs1)) as Hr.
  pose proof (rne_nearest N D (d - prec) mrs1 HN HD ltac:(lia) Hs1) as Hnear.
  pose proof (rne_exact N D (d - prec) mrs1 HN HD ltac:(lia) Hs1) as Hexact.
  cbv zeta in Hnear.
  set (m1 := round_nearest_even (shr_m mrs1) (loc_of_shr_record mrs1)) in *.
  assert (Hpow : 0 < 2 ^ (prec - 1)) by done.
  assert (HP : 0 < 2 ^ (d - prec) * D)
    by (apply Z.mul_pos_pos; [apply Z.pow_pos_nonneg; lia|done]).
  destruct m1 as [|p1|p1] eqn:Ep1; [lia| |lia].
  cbn [Zdigits2].
  assert (Hd1 : Zpos (digits2_pos p1) = prec /\ Zpos p1 < 2 ^ prec
                \/ Zpos (digits2_pos p1) = prec + 1 /\ Zpos p1 = 2 ^ prec).
  { destruct (Z.lt_ge_cases (Zpos p1) (2 ^ prec)) as [Hlt|Hge].
    - left. split; [|done]. apply digits_unique. lia.
    - right. assert (Zpos p1 = 2 ^ prec) as Heq by lia. split; [|done].
      apply digits_unique. rewrite Heq.
      replace (prec + 1 - 1) with prec by lia. split; [lia|].
      apply Z.pow_lt_mono_r; unfold prec; lia. }
  pose proof (shr_spec (shr_record_of_loc (Zpos p1) loc_Exact) e1
                (fexp prec emax (Zpos (digits2_pos p1) + e1) - e1))
    as [Hm2 He2]; [by rewrite shr_record_of_loc_m|].
  destruct (shr _ e1 _) as [mrs2 e2]. cbn [fst snd] in Hm2, He2.
  rewrite shr_record_of_loc_m in Hm2.
  destruct Hd1 as [[Hd1 Hlt]|[Hd1 Heq]]; rewrite Hd1 in Hm2, He2;
    rewrite fexp_normal in Hm2, He2 by lia.
  - replace (Z.max 0 (prec + e1 - prec - e1)) with 0 in Hm2, He2 by lia.
    rewrite Z.pow_0_r, Z.div_1_r in Hm2. rewrite Hm2.
    replace (e2 <=? emax - prec) with true by (symmetry; apply Z.leb_le; lia).
    exists p1, e2, (d - prec). split; [done|]. split; [done|].
    split; [lia|]. split; [lia|]. split; [done|done].
  - replace (Z.max 0 (prec + 1 + e1 - prec - e1)) with 1 in Hm2, He2 by lia.
    rewrite Heq in Hm2. change (2 ^ prec / 2 ^ 1) with (2 ^ (prec - 1)) in Hm2.
    rewrite Hm2. change (2 ^ (prec - 1)) with (Zpos (Z.to_pos (2 ^ (prec - 1)))).
    cbv iota.
    replace (e2 <=? emax - prec) with true by (symmetry; apply Z.leb_le; lia).
    eexists _, e2, (d - prec + 1). split; [done|]. split; [reflexivity|].
    split; [lia|]. split; [lia|].
    change (Zpos (Z.to_pos (2 ^ (prec - 1)))) with (2 ^ (prec - 1)).
    rewrite Z.pow_add_r by lia. rewrite Heq in Hnear, Hexact.
    change (2 ^ prec) with (2 * 2 ^ (prec - 1)) in Hnear, Hexact.
    replace (2 ^ (prec - 1) * (2 ^ (d - prec) * 2 ^ 1 * D))
      with (2 * 2 ^ (prec - 1) * (2 ^ (d - prec) * D)) by lia.
    split; [lia|done].
Qed.

(** The product of two normal numbers, to the nearest; it is exact when
    the bits that the rounding drops are zeros. *)
Lemma SFmul_rounded sx sy mx ex my ey :
  Zpos (digits2_pos mx) = prec -> Zpos (digits2_pos my) = prec ->
  emin + prec <= prec + ex + (prec + ey) - 1 ->
  prec + ex + (prec + ey) + 1 <= emax ->
  exists (m : positive) (e k : Z),
    SFmul prec emax (S754_finite sx mx ex) (S754_finite sy my ey)
    = S754_finite (xorb sx sy) m e
    /\ Zpos (digits2_pos m) = prec
    /\ e = ex + ey + k /\ prec - 1 <= k <= prec + 1
    /\ 2 * Z.abs (Zpos m * 2 ^ k - Zpos mx * Zpos my) <= 2 ^ k
    /\ ((Zpos mx * Zpos my) mod 2 ^ (Zpos (digits2_pos (mx * my)) - prec) = 0 ->
        Zpos m * 2 ^ k = Zpos mx * Zpos my).
Proof.
  intros Hdx Hdy Hlo Hhi. cbn [SFmul].
  pose proof (normal_bounds mx Hdx) as Hmx.
  pose proof (normal_bounds my Hdy) as Hmy.
  set (d := Zpos (digits2_pos (mx * my))).
  assert (Hd : d = 2 * prec - 1 \/ d = 2 * prec).
  { unfold d.
    assert (H2 : 2 ^ (2 * prec - 2) <= Zpos mx * Zpos my < 2 ^ (2 * prec)).
    { change (2 ^ (2 * prec - 2)) with (2 ^ (prec - 1) * 2 ^ (prec - 1)).
      change (2 ^ (2 * prec)) with (2 ^ prec * 2 ^ prec).
      assert (0 < 2 ^ (prec - 1)) by done. nia. }
    destruct (Z.lt_ge_cases (Zpos mx * Zpos my) (2 ^ (2 * prec - 1))).
    - left. apply digits_unique. rewrite Pos2Z.inj_mul.
      replace (2 * prec - 1 - 1) with (2 * prec - 2) by lia. lia.
    - right. apply digits_unique. rewrite Pos2Z.inj_mul. lia. }
  destruct (binary_round_aux_nearest (xorb sx sy) (mx * my) (ex + ey) loc_Exact
              (Zpos mx * Zpos my) 1)
    as (m & e & k & Hr & Hdm & He & Hk & Hnear & Hexact);
    fold d; try (unfold prec, emax, emin in *; lia).
  { apply shifted_loc; [lia|lia|by rewrite Z.div_1_r|].
    by rewrite Z.mod_1_r. }
  exists m, e, k. split; [done|]. split; [done|]. split; [done|].
  split; [fold d in Hk; unfold prec in *; lia|].
  rewrite !Z.mul_1_r in Hnear. split; [exact Hnear|].
  intros Hz. rewrite <- (Z.mul_1_r (2 ^ k)). apply Hexact.
  by rewrite Z.mul_1_r.
Qed.

(** The product of two normal numbers, to the nearest. *)
Lemma SFmul_nearest sx sy mx ex my ey :
  Zpos (digits2_pos mx) = prec -> Zpos (digits2_pos my) = prec ->
  emin + prec <= prec + ex + (prec + ey) - 1 ->
  prec + ex + (prec + ey) + 1 <= emax ->
  exists (m : positive) (e k : Z),
    SFmul prec emax (S754_finite sx mx ex) (S754_finite sy my ey)
    = S754_finite (xorb sx sy) m e
    /\ Zpos (digits2_pos m) = prec
    /\ e = ex + ey + k /\ prec - 1 <= k <= prec + 1
    /\ 2 * Z.abs (Zpos m * 2 ^ k - Zpos mx * Zpos my) <= 2 ^ k.
Proof.
  intros Hdx Hdy Hlo Hhi.
  destruct (SFmul_rounded sx sy mx ex my ey Hdx Hdy Hlo Hhi)
    as (m & e & k & H1 & H2 & H3 & H4 & H5 & _).
  by exists m, e, k.
Qed.

(** The quotient of two normal numbers, to the nearest; it is exact when
    the divisor divides and the quotient is even. *)
Lemma SFdiv_rounded sx sy mx ex my ey :
  Zpos (digits2_pos mx) = prec -> Zpos (digits2_pos my) = prec ->
  emin + prec <= prec + ex - (prec + ey) - 1 ->
  prec + ex - (prec + ey) + 2 <= emax ->
  exists (m : positive) (e k : Z),
    SFdiv prec emax (S754_finite sx mx ex) (S754_finite sy my ey)
    = S754_finite (xorb sx sy) m e
    /\ Zpos (digits2_pos m) = prec
    /\ e = ex - ey - prec + k /\ 0 <= k <= 2
    /\ 2 * Z.abs (Zpos m * (2 ^ k * Zpos my) - Zpos mx * 2 ^ prec)
       <= 2 ^ k * Zpos my
    /\ ((Zpos mx * 2 ^ prec) mod (2 * Zpos my) = 0 ->
        Zpos m * (2 ^ k * Zpos my) = Zpos mx * 2 ^ prec).
Proof.
  intros Hdx Hdy Hlo Hhi. cbn [SFdiv]. unfold SFdiv_core_binary.
  cbn [Zdigits2]. rewrite Hdx, Hdy.
  replace (prec + ex - (prec + ey)) with (ex - ey) by lia.
  rewrite fexp_normal by (unfold prec, emin, emax in *; lia).
  replace (Z.min (ex - ey - prec) (ex - ey)) with (ex - ey - prec)
    by (unfold prec; lia).
  replace (ex - ey - (ex - ey - prec)) with prec by lia.
  change (match prec with Z0 => Zpos mx | Zpos _ => Z.shiftl (Zpos mx) prec
          | Zneg _ => 0 end) with (Z.shiftl (Zpos mx) prec).
  rewrite Z.shiftl_mul_pow2 by done.
  pose proof (normal_bounds mx Hdx) as Hmx.
  pose proof (normal_bounds my Hdy) as Hmy.
  destruct (Z.div_eucl (Zpos mx * 2 ^ prec) (Zpos my)) as [q r] eqn:Eq.
  assert (Hq : q = Zpos mx * 2 ^ prec / Zpos my)
    by (unfold Z.div; by rewrite Eq).
  assert (Hrm : r = (Zpos mx * 2 ^ prec) mod Zpos my)
    by (unfold Z.modulo; by rewrite Eq).
  assert (Hqb : 2 ^ (prec - 1) <= q < 2 ^ (prec + 1)).
  { rewrite Hq. split.
    - apply Z.div_le_lower_bound; [lia|].
      change (2 ^ prec) with (2 * 2 ^ (prec - 1)) in *.
      assert (0 < 2 ^ (prec - 1)) by done. nia.
    - apply Z.div_lt_upper_bound; [lia|].
      change (2 ^ (prec + 1)) with (2 * 2 ^ prec) in *.
      change (2 ^ prec) with (2 * 2 ^ (prec - 1)) in *.
      assert (0 < 2 ^ (prec - 1)) by done. nia. }
  assert (0 < 2 ^ (prec - 1)) by done.
  destruct q as [|pq|pq]; [lia| |lia].
  set (d := Zpos (digits2_pos pq)).
  assert (Hd : d = prec \/ d = prec + 1).
  { unfold d. destruct (Z.lt_ge_cases (Zpos pq) (2 ^ prec)).
    - left. apply digits_unique. lia.
    - right. apply digits_unique.
      replace (prec + 1 - 1) with prec by lia. lia. }
  destruct (binary_round_aux_nearest (xorb sx sy) pq (ex - ey - prec)
              (new_location (Zpos my) r) (Zpos mx * 2 ^ prec) (Zpos my))
    as (m & e & k & Hr & Hdm & He & Hk & Hnear & Hexact);
    fold d; try (unfold prec, emax, emin in *; lia).
  { apply shifted_loc; [lia|lia|done|].
    rewrite <- Hrm. pose proof (Z.mod_pos_bound (Zpos mx * 2 ^ prec) (Zpos my)
                                  ltac:(lia)) as Hrb.
    rewrite <- Hrm in Hrb. unfold new_location, new_location_even,
      new_location_odd.
    change IntDef.Z.even with Z.even.
    destruct (Z.even (Zpos my)) eqn:Ev; cbn beta;
      destruct (r =? 0) eqn:E0; try done.
    apply Z.eqb_neq in E0. f_equal.
    assert (Hodd : Z.odd (Zpos my) = true)
      by (by rewrite <- Z.negb_even, Ev).
    apply Z.odd_spec in Hodd as [h Hh].
    destruct (2 * r + 1 ?= Zpos my) eqn:E1, (2 * r ?= Zpos my) eqn:E2;
      try done;
      rewrite ?Z.compare_eq_iff, ?Z.compare_lt_iff, ?Z.compare_gt_iff in *;
      lia. }
  exists m, e, k. split; [done|]. split; [done|]. split; [done|].
  split; [fold d in Hk; unfold prec in *; lia|]. split; [done|].
  intros Hev. apply Hexact. fold d.
  set (N := Zpos mx * 2 ^ prec) in *.
  destruct Hd as [-> | ->].
  - rewrite Z.sub_diag, Z.pow_0_r, Z.mul_1_l.
    apply Z.mod_divide in Hev; [|lia]. destruct Hev as [c Hc].
    apply Z.mod_divide; [lia|]. exists (c * 2). lia.
  - replace (prec + 1 - prec) with 1 by lia. by rewrite Z.pow_1_r.
Qed.

(** The quotient of two normal numbers, to the nearest. *)
Lemma SFdiv_nearest sx sy mx ex my ey :
  Zpos (digits2_pos mx) = prec -> Zpos (digits2_pos my) = prec ->
  emin + prec <= prec + ex - (prec + ey) - 1 ->
  prec + ex - (prec + ey) + 2 <= emax ->
  exists (m : positive) (e k : Z),
    SFdiv prec emax (S754_finite sx mx ex) (S754_finite sy my ey)
    = S754_finite (xorb sx sy) m e
    /\ Zpos (digits2_pos m) = prec
    /\ e = ex - ey - prec + k /\ 0 <= k <= 2
    /\ 2 * Z.abs (Zpos m * (2 ^ k * Zpos my) - Zpos mx * 2 ^ prec)
       <= 2 ^ k * Zpos my.
Proof.
  intros Hdx Hdy Hlo Hhi.
  destruct (SFdiv_rounded sx sy mx ex my ey Hdx Hdy Hlo Hhi)
    as (m & e & k & H1 & H2 & H3 & H4 & H5 & _).
  by exists m, e, k.
Qed.

End NearestRounding.

Section ExactSizing.

Implicit Types (z a b : Z) (p : positive).

Lemma shl_align_value p e e' :
  let '(mz, ez) := shl_align p e e' in
  Zpos mz = Zpos p * 2 ^ (e - ez) /\ ez <= e.
Proof.
  unfold shl_align. destruct (e' - e) as [|k|k] eqn:E.
  - rewrite Z.sub_diag. cbn. lia.
  - rewrite Z.sub_diag. cbn. lia.
  - change (Pos.iter xO p k) with (shift_pos k p).
    rewrite shift_pos_correct, Z.pow_pos_fold.
    replace (e - e') with (Zpos k) by lia. lia.
Qed.

(** The double of a positive integer below 2^53 is that integer. *)
Lemma ofZ_exact z :
  1 <= z < 2 ^ prec ->
  exists (m : positive) (e : Z),
    Prim2SF (F64.ofZ z) = S754_finite false m e
    /\ Zpos (digits2_pos m) = prec /\ - (prec - 1) <= e <= 0
    /\ Zpos m = z * 2 ^ (- e).
Proof.
  intros Hz. destruct z as [|p|p]; [lia| |lia]. cbn [F64.ofZ].
  rewrite FloatAxioms.of_uint63_spec, Uint63.of_Z_spec.
  rewrite Z.mod_small
    by (change wB with (2 ^ 63); change (2 ^ prec) with (2 ^ 53) in Hz; lia).
  cbn [binary_normalize]. unfold binary_round.
  assert (Hdp : 1 <= Zpos (digits2_pos p) <= prec).
  { split; [lia|].
    destruct (Z.le_gt_cases (Zpos (digits2_pos p)) prec); [done|].
    pose proof (digits_bounds p) as [Hl _].
    assert (2 ^ prec <= 2 ^ (Zpos (digits2_pos p) - 1))
      by (apply Z.pow_le_mono_r; lia). lia. }
  rewrite Z.add_0_r, fexp_normal by (unfold prec, emin, emax in *; lia).
  pose proof (shl_align_digits p 0 (Zpos (digits2_pos p) - prec)) as Ha.
  pose proof (shl_align_value p 0 (Zpos (digits2_pos p) - prec)) as Hv.
  destruct (shl_align p 0 _) as [mz ez]. destruct Ha as [Hd He].
  destruct Hv as [Hv _].
  assert (Hez : ez = Zpos (digits2_pos p) - prec) by lia.
  assert (Hdz : Zpos (digits2_pos mz) = prec) by lia.
  assert (Hs : shifted (Zpos mz) 1 0 (shr_record_of_loc (Zpos mz) loc_Exact)).
  { apply shifted_loc; [lia|lia|by rewrite Z.div_1_r|].
    by rewrite Z.mod_1_r. }
  destruct (binary_round_aux_nearest false mz ez loc_Exact (Zpos mz) 1
              ltac:(rewrite Hdz; lia)
              ltac:(rewrite Hdz; unfold prec, emax, emin in *; lia)
              ltac:(rewrite Hdz; unfold prec, emax, emin in *; lia)
              ltac:(lia) ltac:(lia) Hs)
    as (m & e & k & Hr & Hdm & Hee & Hk & _ & Hex).
  rewrite Hdz in Hk, Hex. rewrite Z.sub_diag in Hex.
  specialize (Hex ltac:(by rewrite Z.mod_1_r)).
  pose proof (normal_bounds m Hdm) as Hmb.
  pose proof (normal_bounds mz Hdz) as Hmzb.
  assert (Hk0 : k = 0).
  { destruct (Z.eq_dec k 0) as [|Hne]; [done|]. assert (k = 1) as -> by lia.
    change (2 ^ 1) with 2 in Hex.
    change (2 ^ prec) with (2 * 2 ^ (prec - 1)) in Hmzb. lia. }
  subst k. rewrite Z.pow_0_r in Hex.
  exists m, e. split; [done|]. split; [done|]. split; [unfold prec in *; lia|].
  replace (- e) with (0 - ez) by lia. lia.
Qed.

Lemma rate_value :
  Prim2SF (1 - EXPECTED_COMPRESSION_RATE)%float
  = S754_finite false 7205759403792792 (-56).
Proof. vm_compute. reflexivity. Qed.

Lemma overhead_value :
  Prim2SF BASE64_OVERHEAD = S754_finite false 5629499534213120 (-52).
Proof. vm_compute. reflexivity. Qed.

End ExactSizing.

(** ** Integers in binary64 *)

Section Integers.

Implicit Types (x y : spec_float) (z a b q c : Z).

Lemma ofZ_holds z : 0 <= z < 2 ^ prec -> holdsInteger (Prim2SF (F64.ofZ z)) z.
Proof.
  intros Hz. destruct (Z.eq_dec z 0) as [->|Hne].
  - left. split; reflexivity.
  - right. apply ofZ_exact. lia.
Qed.

Lemma holds_bounds x z : holdsInteger x z -> 0 <= z < 2 ^ prec.
Proof.
  intros [[-> _]|(m & e & _ & Hd & He & Hm)]; [done|].
  pose proof (normal_bounds m Hd) as Hb.
  pose proof (Z.pow_pos_nonneg 2 (- e) ltac:(lia) ltac:(lia)) as Hp.
  split; [nia|]. assert (z * 1 <= z * 2 ^ (- e)); [|lia].
  apply Z.mul_le_mono_nonneg_l; nia.
Qed.

(** [Math.trunc] of an integer is that integer. *)
Lemma truncSF_holds x z : holdsInteger x z -> F64.truncSF x = Num z.
Proof.
  intros [[-> ->]|(m & e & -> & Hd & He & Hm)]; [done|].
  cbn [F64.truncSF cond_Zopp]. f_equal.
  replace e with (- (- e)) by lia.
  rewrite Z.shiftl_opp_r, Z.shiftr_div_pow2 by lia.
  rewrite Hm. apply Z.div_mul.
  pose proof (Z.pow_pos_nonneg 2 (- e) ltac:(lia) ltac:(lia)). lia.
Qed.

(** The product of two integers is exact when it is below 2^53. *)
Lemma SFmul_holds x y a b :
  holdsInteger x a -> holdsInteger y b -> a * b < 2 ^ prec ->
  holdsInteger (SFmul prec emax x y) (a * b).
Proof.
  intros Hx Hy Hab.
  pose proof (holds_bounds x a Hx) as Ha. pose proof (holds_bounds y b Hy) as Hb.
  destruct Hx as [[-> ->]|(mx & ex & -> & Hdx & Hex & Hmx)].
  { left. split; [lia|].
    destruct Hy as [[_ ->]|(my & ey & -> & _)]; reflexivity. }
  destruct Hy as [[-> ->]|(my & ey & -> & Hdy & Hey & Hmy)].
  { left. split; [lia|reflexivity]. }
  right.
  destruct (SFmul_rounded false false mx ex my ey Hdx Hdy
              ltac:(unfold prec, emin, emax in *; lia)
              ltac:(unfold prec, emin, emax in *; lia))
    as (m & e & k & Hr & Hdm & He & Hk & _ & Hexact).
  pose proof (normal_bounds mx Hdx) as Hbx.
  pose proof (normal_bounds my Hdy) as Hby.
  pose proof (normal_bounds m Hdm) as Hbm.
  pose proof (Z.pow_pos_nonneg 2 (- ex) ltac:(lia) ltac:(lia)) as Hpx.
  pose proof (Z.pow_pos_nonneg 2 (- ey) ltac:(lia) ltac:(lia)) as Hpy.
  assert (Ha1 : 1 <= a) by (destruct (Z.eq_dec a 0) as [->|]; lia).
  assert (Hb1 : 1 <= b) by (destruct (Z.eq_dec b 0) as [->|]; lia).
  set (t := - ex - ey).
  assert (Hprod : Zpos mx * Zpos my = a * b * 2 ^ t).
  { rewrite Hmx, Hmy. unfold t.
    replace (- ex - ey) with (- ex + - ey) by lia.
    rewrite Z.pow_add_r by lia. lia. }
  assert (Hpt : 0 < 2 ^ t) by (apply Z.pow_pos_nonneg; unfold t; lia).
  assert (Hab1 : 1 <= a * b) by nia.
  set (d := Zpos (digits2_pos (mx * my))) in *.
  pose proof (digits_bounds (mx * my)) as Hdb. fold d in Hdb.
  rewrite Pos2Z.inj_mul, Hprod in Hdb.
  assert (Hdt : d - prec <= t).
  { destruct (Z.le_gt_cases (d - prec) t) as [|Hgt]; [done|exfalso].
    assert (2 ^ (prec + t) <= 2 ^ (d - 1))
      by (apply Z.pow_le_mono_r; lia).
    rewrite Z.pow_add_r in H by (unfold prec, t in *; lia).
    assert (a * b * 2 ^ t < 2 ^ prec * 2 ^ t)
      by (apply Z.mul_lt_mono_pos_r; lia).
    lia. }
  assert (Hd0 : 0 <= d - prec).
  { destruct (Z.le_gt_cases prec d) as [|Hlt]; [lia|exfalso].
    assert (2 ^ d <= 2 ^ (prec - 1))
      by (apply Z.pow_le_mono_r; unfold prec in *; lia).
    assert (2 ^ (prec - 1) * 2 ^ (prec - 1) <= Zpos mx * Zpos my)
      by (apply Z.mul_le_mono_nonneg; lia).
    rewrite Hprod in H0.
    assert (2 ^ (prec - 1) <= 2 ^ (prec - 1) * 2 ^ (prec - 1))
      by (change (2 ^ (prec - 1)) with 4503599627370496; lia).
    lia. }
  specialize (Hexact ltac:(
    rewrite Hprod;
    replace t with (t - (d - prec) + (d - prec)) by lia;
    rewrite Z.pow_add_r, Z.mul_assoc by lia;
    apply Z.mod_mul; apply Z.pow_nonzero; lia)).
  rewrite Hprod in Hexact.
  assert (Hkt : k <= t).
  { destruct (Z.le_gt_cases k t) as [|Hgt]; [done|exfalso].
    assert (2 ^ (t + 1) <= 2 ^ k) by (apply Z.pow_le_mono_r; lia).
    rewrite Z.pow_add_r, Z.pow_1_r in H by (unfold t; lia).
    assert (2 ^ (prec - 1) * 2 ^ k <= Zpos m * 2 ^ k)
      by (apply Z.mul_le_mono_nonneg_r; lia).
    assert (2 ^ (prec - 1) * (2 ^ t * 2) <= 2 ^ (prec - 1) * 2 ^ k)
      by (apply Z.mul_le_mono_nonneg_l; lia).
    assert (a * b * 2 ^ t < 2 ^ prec * 2 ^ t)
      by (apply Z.mul_lt_mono_pos_r; lia).
    change (2 ^ prec) with (2 ^ (prec - 1) * 2) in H2. lia. }
  assert (Hm : Zpos m = a * b * 2 ^ (t - k)).
  { replace t with (t - k + k) in Hexact at 1 by lia.
    rewrite Z.pow_add_r, Z.mul_assoc in Hexact by lia.
    apply Z.mul_cancel_r in Hexact; [done|].
    apply Z.pow_nonzero; lia. }
  exists m, e. split; [exact Hr|]. split; [done|].
  replace (- e) with (t - k) by (unfold t; lia). split; [|done].
  split; [|unfold t; lia].
  destruct (Z.le_gt_cases (t - k) (prec - 1)) as [|Hgt]; [unfold t in *; lia|].
  exfalso. assert (2 ^ prec <= 2 ^ (t - k)) by (apply Z.pow_le_mono_r; lia).
  assert (1 * 2 ^ (t - k) <= a * b * 2 ^ (t - k))
    by (apply Z.mul_le_mono_nonneg_r; lia).
  lia.
Qed.

(** The quotient of an integer by one of its divisors is exact. *)
Lemma SFdiv_holds x y q c :
  holdsInteger x (q * c) -> holdsInteger y c -> 1 <= c -> 0 <= q ->
  holdsInteger (SFdiv prec emax x y) q.
Proof.
  intros Hx Hy Hc Hq.
  pose proof (holds_bounds x _ Hx) as Hqc.
  destruct Hy as [[-> _]|(my & ey & -> & Hdy & Hey & Hmy)]; [lia|].
  destruct Hx as [[Hz ->]|(mx & ex & -> & Hdx & Hex & Hmx)].
  { left. split; [nia|reflexivity]. }
  right.
  destruct (SFdiv_rounded false false mx ex my ey Hdx Hdy
              ltac:(unfold prec, emin, emax in *; lia)
              ltac:(unfold prec, emin, emax in *; lia))
    as (m & e & k & Hr & Hdm & He & Hk & _ & Hexact).
  pose proof (normal_bounds mx Hdx) as Hbx.
  pose proof (normal_bounds my Hdy) as Hby.
  pose proof (normal_bounds m Hdm) as Hbm.
  pose proof (Z.pow_pos_nonneg 2 (- ex) ltac:(lia) ltac:(lia)) as Hpx.
  pose proof (Z.pow_pos_nonneg 2 (- ey) ltac:(lia) ltac:(lia)) as Hpy.
  assert (Hq1 : 1 <= q) by (destruct (Z.eq_dec q 0) as [->|]; lia).
  set (s := prec - ex + ey - 1).
  assert (Hs : 0 <= s) by (unfold s, prec in *; lia).
  assert (Hps : 0 < 2 ^ s) by (apply Z.pow_pos_nonneg; lia).
  assert (HN : Zpos mx * 2 ^ prec = q * 2 ^ s * (2 * Zpos my)).
  { assert (Hpow : 2 ^ (- ex) * 2 ^ prec = 2 ^ s * 2 * 2 ^ (- ey)).
    { transitivity (2 ^ (s + 1 + - ey)).
      - rewrite <- Z.pow_add_r by (unfold prec; lia). f_equal. unfold s. lia.
      - rewrite !Z.pow_add_r by lia. by rewrite Z.pow_1_r. }
    rewrite Hmx, Hmy, <- (Z.mul_assoc (q * c)), Hpow. ring. }
  specialize (Hexact ltac:(rewrite HN; apply Z.mod_mul; lia)).
  rewrite HN in Hexact.
  assert (Hmk : Zpos m * 2 ^ k = q * 2 ^ (s + 1)).
  { rewrite Z.pow_add_r, Z.pow_1_r by lia.
    apply (Z.mul_cancel_r _ _ (Zpos my)); lia. }
  assert (Hks : k <= s + 1).
  { destruct (Z.le_gt_cases k (s + 1)) as [|Hgt]; [done|exfalso].
    assert (2 ^ (s + 2) <= 2 ^ k) by (apply Z.pow_le_mono_r; lia).
    replace (s + 2) with (s + 1 + 1) in H by lia.
    rewrite (Z.pow_add_r 2 (s + 1) 1), Z.pow_1_r in H by lia.
    assert (0 < 2 ^ (s + 1)) by (apply Z.pow_pos_nonneg; lia).
    assert (2 ^ (prec - 1) * 2 ^ k <= Zpos m * 2 ^ k)
      by (apply Z.mul_le_mono_nonneg_r; lia).
    assert (2 ^ (prec - 1) * (2 ^ (s + 1) * 2) <= 2 ^ (prec - 1) * 2 ^ k)
      by (apply Z.mul_le_mono_nonneg_l; lia).
    assert (q * 1 <= q * c) by (apply Z.mul_le_mono_nonneg_l; lia).
    assert (q * 2 ^ (s + 1) < 2 ^ prec * 2 ^ (s + 1))
      by (apply Z.mul_lt_mono_pos_r; lia).
    change (2 ^ prec) with (2 ^ (prec - 1) * 2) in H4. lia. }
  assert (Hm : Zpos m = q * 2 ^ (s + 1 - k)).
  { replace (s + 1) with (s + 1 - k + k) in Hmk by lia.
    rewrite Z.pow_add_r, Z.mul_assoc in Hmk by lia.
    apply Z.mul_cancel_r in Hmk; [done|].
    apply Z.pow_nonzero; lia. }
  exists m, e. split; [exact Hr|]. split; [done|].
  replace (- e) with (s + 1 - k) by (unfold s; lia). split; [|done].
  split; [|unfold s; lia].
  destruct (Z.le_gt_cases (s + 1 - k) (prec - 1)) as [|Hgt];
    [unfold s in *; lia|].
  exfalso. assert (2 ^ prec <= 2 ^ (s + 1 - k)) by (apply Z.pow_le_mono_r; lia).
  assert (1 * 2 ^ (s + 1 - k) <= q * 2 ^ (s + 1 - k))
    by (apply Z.mul_le_mono_nonneg_r; lia).
  lia.
Qed.

(** Below 2^53 the offset of [idx] records of [w] bytes is computed
    exactly, the length of the buffer being [w * count]. *)
Lemma byteIndex_records idx w count :
  0 <= idx <= count -> 1 <= count < 2 ^ 53 -> 0 <= w -> w * count < 2 ^ 53 ->
  byteIndex (Num idx) (w * count) (Num count) = Num (idx * w).
Proof.
  intros Hi Hc Hw Hl. unfold byteIndex, F64.trunc. cbn [F64.ofNumber].
  rewrite FloatAxioms.mul_spec, FloatAxioms.div_spec.
  apply truncSF_holds, SFmul_holds.
  - apply ofZ_holds. unfold prec. lia.
  - apply (SFdiv_holds _ _ w count); [| |lia|lia];
      apply ofZ_holds; unfold prec; lia.
  - unfold prec. assert (idx * w <= count * w)
      by (apply Z.mul_le_mono_nonneg_r; lia). lia.
Qed.

End Integers.

(** ** Emission of the chunks *)

Lemma sum_telescope (f : nat -> Z) (a n : nat) :
  foldr Z.add 0 (map (fun i => f (S i) - f i) (seq a n)) = f (a + n)%nat - f a.
Proof.
  revert a. induction n as [|n IH]; intros a.
  - simpl. rewrite Nat.add_0_r. lia.
  - cbn [seq map foldr]. rewrite IH.
    replace (S a + n)%nat with (a + S n)%nat by lia. lia.
Qed.

Lemma concat_slices (A : Type) (l : list A) (o : nat -> nat) (n : nat) :
  (forall i, o i <= o (S i))%nat ->
  concat (map (fun i => take (o (S i) - o i) (drop (o i) l)) (seq 0 n))
  = take (o n - o 0%nat) (drop (o 0%nat) l).
Proof.
  intros Hmono. induction n as [|n IH].
  - simpl. by rewrite Nat.sub_diag.
  - rewrite seq_S, map_app, concat_app, IH. cbn [map concat Nat.add].
    rewrite app_nil_r.
    assert (Hle : (o 0 <= o n)%nat).
    { clear IH. induction n as [|n IHn]; [done|]. specialize (Hmono n). lia. }
    replace (drop (o n) l) with (drop (o n - o 0%nat) (drop (o 0%nat) l))
      by (rewrite drop_drop; f_equal; lia).
    rewrite take_take_drop. f_equal. specialize (Hmono n). lia.
Qed.

Section Cutting.

Variables (count v : Z).
Hypothesis count_pos : 1 <= count.
Hypothesis v_pos : 1 <= v.

Local Abbreviation vertexAt := (firstVertex count v).
Local Abbreviation total := (chunkTotal count v).

Lemma chunkTotal_spec :
  (Z.of_nat total - 1) * v < count <= Z.of_nat total * v
  /\ (1 <= total)%nat.
Proof.
  unfold chunkTotal.
  pose proof (Z.div_mod (- count) v ltac:(lia)) as Hdm.
  pose proof (Z.mod_pos_bound (- count) v ltac:(lia)) as Hb.
  assert (1 <= - (- count / v)) by nia.
  rewrite Z2Nat.id by lia. split; [nia|lia].
Qed.

Lemma ceilDiv_chunkTotal :
  JS.ceilDiv (Num count) (Num v) = Num (Z.of_nat total).
Proof.
  unfold JS.ceilDiv. rewrite (proj2 (Z.eqb_neq v 0)) by lia.
  pose proof chunkTotal_spec. unfold chunkTotal in *.
  pose proof (Z.div_mod (- count) v ltac:(lia)) as Hdm.
  pose proof (Z.mod_pos_bound (- count) v ltac:(lia)) as Hb.
  rewrite Z2Nat.id by nia. done.
Qed.

Lemma firstVertex_mono i : vertexAt i <= vertexAt (S i).
Proof. unfold firstVertex. nia. Qed.

Lemma firstVertex_bounds i : 0 <= vertexAt i <= count.
Proof. unfold firstVertex. nia. Qed.

Lemma firstVertex_inner i :
  (i < total)%nat -> vertexAt i = Z.of_nat i * v.
Proof. pose proof chunkTotal_spec. unfold firstVertex. nia. Qed.

Lemma firstVertex_last : vertexAt total = count.
Proof. pose proof chunkTotal_spec. unfold firstVertex. nia. Qed.

End Cutting.

Section Emission.

Variables (st : SplatProcesser) (vertexData : text) (count v w : Z).
Hypothesis Hcount : vertexCount st = Num count.
Hypothesis count_pos : 1 <= count.
Hypothesis v_pos : 1 <= v.
Hypothesis Hlen : Z.of_nat (length vertexData) = w * count.
Hypothesis Hcount53 : count < 2 ^ 53.
Hypothesis Hbytes53 : w * count < 2 ^ 53.

Local Abbreviation vertexAt := (firstVertex count v).
Local Abbreviation byteAt := (firstByte count v w).
Local Abbreviation fileAt := (chunkFile st vertexData count v w).
Local Abbreviation total := (chunkTotal count v).

Lemma w_nonneg : 0 <= w.
Proof. nia. Qed.

Lemma firstByte_mono i : (byteAt i <= byteAt (S i))%nat.
Proof.
  unfold firstByte. pose proof (firstVertex_mono count v v_pos i).
  pose proof (firstVertex_bounds count v count_pos v_pos i). pose proof w_nonneg. nia.
Qed.

Lemma firstByte_le i : (byteAt i <= length vertexData)%nat.
Proof.
  unfold firstByte. pose proof (firstVertex_bounds count v count_pos v_pos i). pose proof w_nonneg.
  nia.
Qed.

(** The byte offset of a vertex index, computed in binary64, is exact. *)
Lemma byteIndex_exact x :
  0 <= x <= count ->
  byteIndex (Num x) (Z.of_nat (length vertexData)) (vertexCount st)
  = Num (x * w).
Proof.
  intros Hx. rewrite Hcount, Hlen.
  apply byteIndex_records; [done|lia|apply w_nonneg|exact Hbytes53].
Qed.

Lemma clampIndex_inner i :
  clampIndex (Num (vertexAt i * w)) (length vertexData) = byteAt i.
Proof.
  unfold clampIndex. pose proof (firstVertex_bounds count v count_pos v_pos i). pose proof w_nonneg.
  rewrite (proj2 (Z.ltb_ge _ 0)) by nia.
  fold (firstByte count v w i). pose proof (firstByte_le i). lia.
Qed.

(** One iteration of the emission loop writes the file of the chunk. *)
Lemma emitChunk_spec chunks i :
  (i < total)%nat ->
  emitChunk st vertexData (Num v) (chunks, Num (vertexAt i)) i
  = (<[i := fileAt i]> chunks, Num (vertexAt (S i))).
Proof.
  intros Hi. unfold emitChunk, writeChunkPly, chunkFile.
  assert (Hend : JS.min (JS.mul (Num (Z.of_nat i + 1)) (Num v)) (vertexCount st)
                 = Num (vertexAt (S i))).
  { rewrite Hcount. unfold JS.min, JS.mul, JS.lt, firstVertex.
    rewrite Nat2Z.inj_succ, <- Z.add_1_r.
    destruct (count <? _) eqn:E; f_equal; lia. }
  rewrite Hend. cbn [JS.mul JS.sub JS.neg JS.add].
  rewrite <- (firstVertex_inner count v count_pos v_pos i) by done.
  rewrite !byteIndex_exact by (by apply firstVertex_bounds).
  unfold slice. rewrite !clampIndex_inner.
  do 2 f_equal. f_equal. lia.
Qed.

(** The emission loop over an empty chunk directory. *)
Lemma emitLoop_spec k :
  (k <= total)%nat ->
  exists chunks,
    fold_left (emitChunk st vertexData (Num v)) (seq 0 k) (∅, Num 0)
    = (chunks, Num (vertexAt k))
    /\ size chunks = k
    /\ forall i, chunks !! i = if (i <? k)%nat then Some (fileAt i) else None.
Proof.
  induction k as [|k IH]; intros Hk.
  - exists ∅. split; [|split; [done|intros i; apply lookup_empty]].
    cbn [seq fold_left]. do 2 f_equal. unfold firstVertex. lia.
  - destruct IH as (chunks & Hfold & Hsize & Hlook); [lia|].
    exists (<[k := fileAt k]> chunks).
    rewrite seq_S, fold_left_app, Hfold. cbn [fold_left Nat.add].
    rewrite emitChunk_spec by lia. split; [done|]. split.
    + rewrite map_size_insert_None; [lia|].
      rewrite Hlook. by rewrite Nat.ltb_irrefl.
    + intros i. destruct (decide (i = k)) as [->|Hne].
      * rewrite lookup_insert_eq.
        by rewrite (proj2 (Nat.ltb_lt k (S k))) by lia.
      * rewrite lookup_insert_ne by done. rewrite Hlook.
        destruct (i <? k)%nat eqn:E1, (i <? S k)%nat eqn:E2; try done;
          apply Nat.ltb_lt in E1 || apply Nat.ltb_ge in E1;
          apply Nat.ltb_lt in E2 || apply Nat.ltb_ge in E2; lia.
Qed.

(** The payloads of the chunks, in order, make up the vertex payload. *)
Lemma chunk_payloads :
  concat (map (fun i => take (byteAt (S i) - byteAt i)
                          (drop (byteAt i) vertexData))
            (seq 0 total))
  = vertexData.
Proof.
  rewrite (concat_slices _ vertexData byteAt) by apply firstByte_mono.
  assert (byteAt 0 = 0%nat) as -> by (unfold firstByte, firstVertex; lia).
  rewrite Nat.sub_0_r, drop_0. apply take_ge.
  unfold firstByte. rewrite firstVertex_last by done. lia.
Qed.

End Emission.

(** ** Split, then merge everything *)

Section VertexCountLine.

Implicit Types (acc : SplatProcesser * list text) (l : text).

Lemma readLine_declares acc acc' l :
  declaresVertexCount l = true ->
  vertexCount (readLine acc l).1 = vertexCount (readLine acc' l).1.
Proof.
  destruct acc as [st e], acc' as [st' e'].
  unfold readLine, declaresVertexCount.
  destruct (Str.trim l); [done|]. by intros ->.
Qed.

Lemma readLines_vertexCount_det lines acc acc' :
  Exists (fun l => declaresVertexCount l = true) lines ->
  vertexCount (fold_left readLine lines acc).1
  = vertexCount (fold_left readLine lines acc').1.
Proof.
  revert acc acc'. induction lines as [|l lines IH]; intros acc acc' Hex.
  - by inversion Hex.
  - cbn [fold_left].
    destruct (decide (Exists (fun l => declaresVertexCount l = true) lines))
      as [Hin|Hout]; [by apply IH|].
    apply not_Exists_Forall in Hout; [|apply _].
    assert (Hf : Forall (fun l => declaresVertexCount l = false) lines).
    { eapply Forall_impl; [done|]. intros x Hx. simpl in Hx.
      by destruct (declaresVertexCount x). }
    rewrite !readLines_vertexCount by done.
    inversion Hex; subst; [by apply readLine_declares|].
    rewrite Forall_forall in Hf. rewrite Exists_exists in H0.
    destruct H0 as (x & Hx & Hd). rewrite (Hf x Hx) in Hd. done.
Qed.

End VertexCountLine.

Lemma groupIndices_all (n : nat) : groupIndices (-1) (S n) = Some [seq 0 (S n)].
Proof.
  unfold groupIndices, effectiveGroupSize. simpl Z.eqb. cbv iota.
  replace (Z.of_nat (S n) <=? 0) with false by (symmetry; apply Z.leb_gt; lia).
  rewrite andb_false_r, Nat2Z.id. cbn [groupsFrom].
  replace (0 <? S n)%nat with true by done.
  rewrite groupsFrom_done by lia. by rewrite Nat.sub_0_r, Nat.min_id.
Qed.

Lemma verticesPerChunk_cases (st : SplatProcesser) (target : Z) :
  verticesPerChunk st target = NaN \/ verticesPerChunk st target = PInf
  \/ exists v, 1 <= v /\ verticesPerChunk st target = Num v.
Proof.
  unfold verticesPerChunk. destruct (F64.floor _) as [| | |z]; simpl; auto.
  - right. right. exists 1. done.
  - right. right. destruct (1 <? z) eqn:E.
    + apply Z.ltb_lt in E. exists z. split; [lia|done].
    + exists 1. done.
Qed.

Lemma split_unfold (st : SplatProcesser) (fs : files) (target : Z) :
  split st fs target =
  let vpc := verticesPerChunk st target in
  let read := readPlyHeader st (inputFile fs) in
  let numChunks := JS.ceilDiv (vertexCount read.1) vpc in
  match iterations numChunks with
  | None => (read.1, fs, Diverged)
  | Some n =>
      let emitted :=
        fold_left (emitChunk read.1 (vertexData read.2) vpc) (seq 0 n)
          (plyChunks fs, Num 0) in
      let verified :=
        verifySplit read.1
          (mkFiles (inputFile fs) emitted.1 (plyGrouped fs) (headerInfo fs)
             (otherChunkEntries fs) (chunksMetadata fs))
          n numChunks emitted.2 in
      (read.1, verified.1, verified.2)
  end.
Proof.
  unfold split. cbv zeta. destruct (readPlyHeader st (inputFile fs)) as [st' parts].
  cbn [fst snd]. destruct (iterations _); [|done].
  destruct (fold_left _ _ _) as [chunks processed]. cbn [fst snd].
  by destruct (verifySplit _ _ _ _ _).
Qed.

Lemma assoc_In {A} (k : text) (m : list (text * A)) (x : A) :
  assoc k m = Some x -> In (k, x) m.
Proof.
  induction m as [|[k' y] m IH]; [done|]. cbn [assoc].
  destruct (decide (k' = k)) as [->|]; [intros [= ->]; by left|].
  intros H. right. by apply IH.
Qed.

Lemma getTypeSize_pos (t : text) (n : Z) : getTypeSize t = Width n -> 0 < n.
Proof.
  unfold getTypeSize. destruct (assoc t typeSizes) as [x|] eqn:E.
  - intros [= <-]. apply assoc_In in E.
    assert (Hall : Forall (fun kv : text * Z => 0 < kv.2) typeSizes)
      by (repeat constructor).
    rewrite Forall_forall in Hall. apply list_elem_of_In in E.
    by apply Hall in E.
  - destruct (bool_decide _); [discriminate|]. by intros [= <-].
Qed.

Lemma bytesPerVertex_nonneg (st : SplatProcesser) (b : Z) :
  bytesPerVertex st = Num b -> 0 <= b.
Proof.
  unfold bytesPerVertex.
  assert (H : forall types acc, 0 <= acc ->
    fold_left
      (fun sum type =>
         match sum, getTypeSize type with
         | Num s, Width n => Num (s + n)
         | _, _ => NaN
         end) types (Num acc) = Num b -> 0 <= b).
  { induction types as [|t types IH]; intros acc Hacc; cbn [fold_left].
    - by intros [= <-].
    - destruct (getTypeSize t) as [n|] eqn:Et.
      + apply getTypeSize_pos in Et. apply IH. lia.
      + intros Hnan. exfalso. clear -Hnan.
        induction types as [|t' types IH']; [done|]. by apply IH'. }
  apply H. lia.
Qed.

(** ** The listing of the chunk directory *)

Section Listing.

Implicit Types (fs : files) (names : list text).

Lemma filter_all {A} (P : A -> Prop) `{!forall x, Decision (P x)} (l : list A) :
  Forall P l -> filter P l = l.
Proof.
  induction 1 as [|x l Hx _ IH]; [done|].
  by rewrite filter_cons, decide_True, IH by done.
Qed.

Lemma filter_none {A} (P : A -> Prop) `{!forall x, Decision (P x)} (l : list A) :
  Forall (fun x => ~ P x) l -> filter P l = [].
Proof.
  induction 1 as [|x l Hx _ IH]; [done|].
  by rewrite filter_cons, decide_False, IH by done.
Qed.

Lemma chunkName_ply i : Str.endsWith (Str.lit ".ply") (chunkName i) = true.
Proof.
  apply endsWith_spec. unfold chunkName.
  exists (Str.lit "chunk_" ++ padStart 6 "0" (Str.ofZ (Z.of_nat i))).
  by rewrite <- app_assoc.
Qed.

Lemma chunkName_digit i : hasDigit (chunkName i) = true.
Proof.
  unfold hasDigit, chunkName, padStart. rewrite !existsb_app.
  assert (Str.ofZ (Z.of_nat i) = Str.ofN (Z.to_N (Z.of_nat i))) as ->
    by (pose proof (Nat2Z.is_nonneg i); destruct (Z.of_nat i); done || lia).
  pose proof (ofN_nonempty (Z.to_N (Z.of_nat i))) as Hne.
  pose proof (ofN_digits (Z.to_N (Z.of_nat i))) as Hd.
  destruct (Str.ofN _) as [|a s]; [done|]. inversion Hd; subst.
  cbn [existsb]. rewrite H1. cbn. by rewrite !orb_true_r.
Qed.

(** A chunk directory with no other file that ends in ".ply" lists its
    chunk files, which the sort accepts. *)
Lemma plyEntries_chunks fs :
  noOtherPly (otherChunkEntries fs) ->
  plyEntries fs = map chunkName (map fst (map_to_list (plyChunks fs)))
  /\ length (plyEntries fs) = size (plyChunks fs)
  /\ sortThrows (plyEntries fs) = false.
Proof.
  intros Ho. unfold plyEntries. rewrite filter_app.
  rewrite (filter_none _ (otherChunkEntries fs)), app_nil_r.
  2:{ eapply Forall_impl; [exact Ho|]. intros f Hf. cbv beta in *. congruence. }
  rewrite filter_all by (apply Forall_map, Forall_forall; intros i _;
                         apply chunkName_ply).
  split; [done|]. split.
  - by rewrite !length_map, length_map_to_list.
  - unfold sortThrows. replace (forallb hasDigit _) with true.
    + apply andb_false_r.
    + symmetry. apply forallb_forall. intros f [i [<- _]]%in_map_iff.
      apply chunkName_digit.
Qed.

End Listing.

Section RoundTrip.

Variables (loadPly : text -> bool) (hl : list text) (payload : text)
  (count w target : Z) (grouped : gmap nat text)
  (info : option SplatProcesser) (others : list text)
  (meta : option Metadata.t).

Let data := headerOf hl ++ payload.
Let fs0 := mkFiles data ∅ grouped info others meta.
Let stA := (readPlyHeader constructor data).1.
Let stB := (readPlyHeader stA data).1.

Hypothesis Hplain : Forall plainLine hl.
Hypothesis HcountA : vertexCount stA = Num count.
Hypothesis count_pos : 1 <= count.
Hypothesis Hlen : Z.of_nat (length payload) = w * count.
Hypothesis Hcount53 : count < 2 ^ 53.
Hypothesis Hbytes53 : w * count < 2 ^ 53.
Hypothesis Hothers : noOtherPly others.

Lemma header_lines :
  Str.split Str.nl (headerText data) = hl ++ [Str.lit "end_header"; []].
Proof.
  unfold data. rewrite (proj1 (headerText_headerOf hl payload Hplain)).
  by apply split_headerOf, plainLine_free.
Qed.

Lemma count_line_read :
  Exists (fun l => declaresVertexCount l = true)
    (Str.split Str.nl (headerText data)).
Proof.
  destruct (decide (Exists (fun l => declaresVertexCount l = true)
                      (Str.split Str.nl (headerText data)))) as [|Hout];
    [done|exfalso].
  apply not_Exists_Forall in Hout; [|apply _].
  assert (Hf : Forall (fun l => declaresVertexCount l = false)
                 (Str.split Str.nl (headerText data))).
  { eapply Forall_impl; [done|]. intros x Hx. simpl in Hx.
    by destruct (declaresVertexCount x). }
  pose proof HcountA as Hc. unfold stA in Hc.
  rewrite readPlyHeader_unfold in Hc. cbn [fst vertexCount] in Hc.
  rewrite readLines_vertexCount in Hc by done. cbn in Hc.
  injection Hc as Hc. lia.
Qed.

Lemma count_line :
  Exists (fun l => Str.includes (Str.lit "element vertex") l = true) hl.
Proof.
  pose proof count_line_read as Hex. rewrite header_lines in Hex.
  apply Exists_app in Hex as [Hex|Hex].
  - eapply Exists_impl; [done|]. intros l. apply includes_trim.
  - exfalso. apply Exists_cons in Hex as [H|Hex]; [by vm_compute in H|].
    apply Exists_cons in Hex as [H|Hex]; [by vm_compute in H|].
    by inversion Hex.
Qed.

Lemma stB_fields :
  originalHeader stB = headerOf hl /\ vertexCount stB = Num count
  /\ vertexData (readPlyHeader stA data).2 = payload.
Proof.
  unfold stB. destruct (readPlyHeader_parts stA data) as [-> ->].
  cbn [vertexData].
  destruct (headerText_headerOf hl payload Hplain) as [Ht Hd].
  fold data in Ht, Hd. rewrite Ht, Hd.
  split; [done|]. split; [|done].
  rewrite <- HcountA. unfold stA. rewrite !readPlyHeader_unfold.
  cbn [fst vertexCount]. apply readLines_vertexCount_det, count_line_read.
Qed.

Section WithChunkSize.

Variable v : Z.
Hypothesis v_pos : 1 <= v.

Local Abbreviation total := (chunkTotal count v).
Local Abbreviation file := (chunkFile stB payload count v w).

Lemma declaredCount_file i :
  declaredCount (file i)
  = Some (firstVertex count v (S i) - firstVertex count v i).
Proof.
  destruct stB_fields as (Hh & _ & _). unfold chunkFile.
  rewrite (createChunkHeader_headerOf stB _ hl) by done.
  apply declaredCount_chunk; [done|apply count_line|].
  unfold firstVertex. nia.
Qed.

Lemma chunkPayload_file i :
  chunkPayload (file i)
  = take (firstByte count v w (S i) - firstByte count v w i)
      (drop (firstByte count v w i) payload).
Proof.
  destruct stB_fields as (Hh & _ & _). unfold chunkFile.
  by apply (chunkPayload_chunk stB _ hl).
Qed.

Lemma readableSum_emitted chunks :
  (forall i, chunks !! i = if (i <? total)%nat then Some (file i) else None) ->
  readableSum chunks total = count.
Proof.
  intros Hlook. unfold readableSum.
  rewrite (map_ext_in _ (fun i => firstVertex count v (S i)
                                  - firstVertex count v i)).
  - rewrite sum_telescope. cbn [Nat.add].
    destruct stB_fields as (_ & Hc & _).
    rewrite (firstVertex_last count v) by done.
    unfold firstVertex. lia.
  - intros i Hi%in_seq. rewrite Hlook.
    rewrite (proj2 (Nat.ltb_lt i total)) by lia. cbn.
    by rewrite declaredCount_file.
Qed.

(** The split with chunks of [v] vertices. *)
Lemma split_emitted :
  verticesPerChunk stA target = Num v ->
  exists chunks,
    split stA fs0 target
    = (stB, mkFiles data chunks grouped (Some stB) others meta,
       Returned (mkSplitResult (Num (Z.of_nat total)) count (Num count) []))
    /\ size chunks = total
    /\ forall i, chunks !! i
                 = if (i <? total)%nat then Some (file i) else None.
Proof.
  intros Hv. destruct stB_fields as (Hh & Hc & Hd).
  destruct (emitLoop_spec stB payload count v w Hc count_pos v_pos Hlen
              Hcount53 Hbytes53 total (le_n _)) as (chunks & Hfold & Hsz & Hlook).
  exists chunks. split; [|done].
  rewrite split_unfold. cbv zeta. rewrite Hv. unfold fs0.
  cbn [inputFile plyChunks plyGrouped headerInfo otherChunkEntries
       chunksMetadata].
  fold stB. rewrite Hc, Hd.
  rewrite (ceilDiv_chunkTotal count v) by done.
  cbn [iterations]. rewrite Nat2Z.id. cbn [plyChunks].
  rewrite Hfold. cbn [fst snd plyGrouped headerInfo].
  rewrite (verifySplit_spec _ _ _ _ _ count) by done.
  cbn [plyChunks inputFile plyGrouped otherChunkEntries chunksMetadata].
  rewrite (readableSum_emitted chunks Hlook), Z.eqb_refl. cbn [fst snd].
  rewrite (firstVertex_last count v) by done.
  do 3 f_equal.
  assert (Hnil : forall l, (forall i, In i l -> (i < total)%nat) ->
            concat (map (failureOf chunks) l) = []).
  { induction l as [|i l IH]; intros Hl; [done|]. cbn [map concat].
    rewrite IH by (intros j Hj; apply Hl; by right).
    unfold failureOf. rewrite Hlook.
    rewrite (proj2 (Nat.ltb_lt i total)) by (apply Hl; by left).
    by rewrite declaredCount_file. }
  apply Hnil. intros i Hi%in_seq. lia.
Qed.

(** Merging every chunk of that split. *)
Lemma merge_emitted chunks :
  size chunks = total ->
  (forall i, chunks !! i = if (i <? total)%nat then Some (file i) else None) ->
  plyGrouped
    (createGroups loadPly stB
       (mkFiles data chunks grouped (Some stB) others meta) (-1)).1.2
    !! 0%nat
  = Some (createChunkHeader stB (Num count) ++ payload).
Proof.
  intros Hsz Hlook. destruct stB_fields as (Hh & Hc & Hd).
  destruct (chunkTotal_spec count v count_pos v_pos) as [_ Hn].
  unfold createGroups.
  destruct (originalHeader stB) as [|c h] eqn:Eh.
  { exfalso. pose proof (headerOf_length hl) as H.
    rewrite <- Hh in H. cbn [length] in H. lia. }
  destruct (plyEntries_chunks (mkFiles data chunks grouped (Some stB) others meta)
              Hothers) as (_ & -> & ->).
  cbn [plyChunks]. rewrite Hsz.
  destruct total as [|n] eqn:En; [lia|].
  rewrite groupIndices_all. cbn [imap fold_left].
  unfold groupStep.
  assert (Hmerge :
    mergeChunks stB (mkFiles data chunks grouped (Some stB) others meta)
      (seq 0 (S n)) 0
    = (mkFiles data chunks
         (<[0%nat := createChunkHeader stB (Num count) ++ payload]> grouped)
         (Some stB) others meta, Returned count)).
  { unfold mergeChunks. cbn [plyChunks].
    rewrite (mergeLoop_spec chunks (seq 0 (S n)) (map file (seq 0 (S n)))).
    - rewrite !map_map.
      rewrite (map_ext _ (fun i => firstVertex count v (S i)
                                   - firstVertex count v i))
        by (intros i; by rewrite declaredCount_file).
      rewrite (map_ext _ (fun i =>
                 take (firstByte count v w (S i) - firstByte count v w i)
                   (drop (firstByte count v w i) payload)))
        by apply chunkPayload_file.
      rewrite sum_telescope. cbn [Nat.add]. rewrite <- En.
      rewrite (chunk_payloads payload count v w) by done.
      rewrite (firstVertex_last count v) by done.
      replace (0 + (count - firstVertex count v 0)) with count
        by (unfold firstVertex; lia).
      done.
    - apply Forall2_fmap_r, Forall_Forall2_diag, Forall_forall.
      intros i Hi%elem_of_seq. rewrite Hlook, <- En.
      by rewrite (proj2 (Nat.ltb_lt i total)) by lia. }
  rewrite Hmerge. cbn [plyGrouped]. rewrite lookup_insert_eq.
  destruct (loadPly _); cbn [fst snd plyGrouped]; apply lookup_insert_eq.
Qed.

End WithChunkSize.

(** A split that returns has cut the payload into chunks of some size. *)
Lemma split_returned r :
  (split stA fs0 target).2 = Returned r ->
  exists v, 1 <= v /\ verticesPerChunk stA target = Num v.
Proof.
  intros Hr. destruct stB_fields as (Hh & Hc & Hd).
  destruct (verticesPerChunk_cases stA target) as [Hv|[Hv|Hv]]; [| |done];
    exfalso; rewrite split_unfold in Hr; cbv zeta in Hr;
    rewrite Hv in Hr; unfold fs0 in Hr;
    cbn [inputFile plyChunks plyGrouped headerInfo] in Hr; fold stB in Hr;
    rewrite Hc in Hr; cbn [JS.ceilDiv iterations] in Hr;
    change (Z.to_nat 0) with 0%nat in Hr; cbn [seq fold_left fst snd] in Hr;
    rewrite (verifySplit_spec _ _ _ _ _ count) in Hr by done;
    cbn [plyChunks readableSum seq map foldr] in Hr;
    rewrite (proj2 (Z.eqb_neq 0 count)) in Hr by lia; done.
Qed.

Lemma roundtrip v :
  1 <= v -> verticesPerChunk stA target = Num v ->
  let split_run := runSplit constructor fs0 target in
  split_run.2
  = Returned (mkSplitResult (Num (Z.of_nat (chunkTotal count v))) count
                (Num count) [])
  /\ plyGrouped (runMerge loadPly split_run.1.1 split_run.1.2 (-1)).1.2 !! 0%nat
     = Some (createChunkHeader split_run.1.1 (Num count) ++ payload)
  /\ originalHeader split_run.1.1 = headerOf hl.
Proof.
  intros Hv Hvpc.
  assert (Hrun : runSplit constructor fs0 target = split stA fs0 target).
  { unfold runSplit, fs0. cbn [inputFile]. unfold stA.
    by destruct (readPlyHeader constructor data). }
  rewrite Hrun. cbv zeta.
  destruct (split_emitted v Hv Hvpc) as (chunks & -> & Hsz & Hlook).
  cbn [fst snd]. unfold runMerge. split; [done|]. split.
  - by apply (merge_emitted v Hv).
  - apply stB_fields.
Qed.

Lemma stA_header : originalHeader stA = headerOf hl.
Proof.
  unfold stA. destruct (readPlyHeader_parts constructor data) as [_ ->].
  apply headerText_headerOf, Hplain.
Qed.

End RoundTrip.

(** ** Round trip (C2) *)

(** C2, as stated, fails for the empty payload: a file that declares 0
    vertices and has no payload byte is split into 0 chunks, the split
    returns, and the merge with groupSize = -1 then writes no file at all. *)
Lemma roundtrip_empty_payload :
  let fs0 := mkFiles (headerOf emptyCloud ++ []) ∅ ∅ None [] None in
  let split_run := runSplit constructor fs0 566 in
  let merge_run := runMerge (fun _ => true) split_run.1.1 split_run.1.2 (-1) in
  vertexCount split_run.1.1 = Num 0
  /\ bytesPerVertex split_run.1.1 = Num 4
  /\ split_run.2 = Returned (mkSplitResult (Num 0) 0 (Num 0) [])
  /\ plyGrouped merge_run.1.2 = ∅
  /\ groups <$> (match merge_run.2 with Returned g => Some g | _ => None end)
     = Some [].
Proof. vm_compute. done. Qed.

(** C2, amended: for every file made of ASCII header lines, a terminator
    line "end_header" and a non-empty payload of fewer than 2^53 bytes whose
    length is the record width times the declared vertex count, the split,
    run by a fresh processer over a chunk directory without any file that
    ends in ".ply", returns with every vertex verified and no failed chunk,
    and the merge with groupSize = -1 then writes as group 0 a file that is
    a header followed by the original payload, byte for byte; that header
    has the lines of the original header, each line that contains "element
    vertex" rewritten with the original count.  (For an empty payload no
    file is written.) *)
Theorem split_merge_roundtrip (loadPly : text -> bool) (hl : list text)
    (payload : text) (count width target : Z) (grouped : gmap nat text)
    (info : option SplatProcesser) (others : list text)
    (meta : option Metadata.t) :
  let data := headerOf hl ++ payload in
  let fs0 := mkFiles data ∅ grouped info others meta in
  let split_run := runSplit constructor fs0 target in
  let merge_run := runMerge loadPly split_run.1.1 split_run.1.2 (-1) in
  Forall plainLine hl ->
  Forall asciiText hl ->
  noOtherPly others ->
  vertexCount (readPlyHeader constructor data).1 = Num count ->
  bytesPerVertex (readPlyHeader constructor data).1 = Num width ->
  payload <> [] ->
  Z.of_nat (length payload) = width * count ->
  Z.of_nat (length payload) < 2 ^ 53 ->
  - 2 ^ 53 < target - Z.of_nat (length (headerOf hl)) < 2 ^ 53 ->
  (exists r, split_run.2 = Returned r
             /\ totalVertices r = count /\ failedChunks r = [])
  /\ exists mergedHeader : text,
       plyGrouped merge_run.1.2 !! 0%nat = Some (mergedHeader ++ payload)
       /\ chunkPayload (mergedHeader ++ payload) = payload
       /\ Str.split Str.nl mergedHeader
          = map (fun line =>
                   if Str.includes (Str.lit "element vertex") line
                   then Str.lit "element vertex " ++ Str.ofZ count
                   else line)
              (Str.split Str.nl (headerOf hl)).
Proof.
  cbv zeta. intros Hplain _ Hothers Hcount Hwidth Hne Hlen Hl53 Ht.
  pose proof (bytesPerVertex_nonneg _ _ Hwidth) as Hw0.
  assert (Hlen0 : 0 < Z.of_nat (length payload))
    by (destruct payload; [done|simpl; lia]).
  assert (Hw1 : 1 <= width)
    by (clear -Hw0 Hlen0 Hlen; destruct (Z.eq_dec width 0) as [->|]; lia).
  assert (Hc1 : 1 <= count) by (clear -Hw1 Hlen0 Hlen; nia).
  assert (Hc53 : count < 2 ^ 53) by (clear -Hw1 Hc1 Hlen Hl53; nia).
  assert (Hw : width < 2 ^ 53) by (clear -Hw1 Hc1 Hlen Hl53; nia).
  set (stA := (readPlyHeader constructor (headerOf hl ++ payload)).1) in *.
  assert (Hv : exists v, 1 <= v /\ verticesPerChunk stA target = Num v).
  { assert (Hh : headerSize stA = Z.of_nat (length (headerOf hl))).
    { unfold headerSize, stA. by rewrite (stA_header hl payload Hplain). }
    destruct (verticesPerChunk_sized stA target width Hwidth ltac:(lia))
      as [Hle Hgt]; [unfold availableSize; rewrite Hh; lia|].
    destruct (Z.le_gt_cases (availableSize stA target) 0) as [H|H].
    - exists 1. split; [lia|by apply Hle].
    - apply Hgt. lia. }
  destruct Hv as (v & Hv & Hvpc).
  destruct (roundtrip loadPly hl payload count width target grouped info
              others meta Hplain Hcount Hc1 Hlen Hc53 ltac:(lia) Hothers
              v Hv Hvpc) as (Hr & Hfile & Hheader).
  split; [eexists; split; [exact Hr|done]|].
  eexists. split; [exact Hfile|]. split.
  - by apply (chunkPayload_chunk _ _ hl).
  - rewrite createChunkHeader_lines.
    rewrite Hheader, headerOf_newline. apply app_nil_r.
Qed.

Lemma smallCloud_plain : Forall plainLine smallCloud.
Proof. repeat constructor; compute_decide. Qed.

Lemma smallCloud_ascii : Forall asciiText smallCloud.
Proof. compute_decide. Qed.

Lemma split_merge_roundtrip_witness :
  exists mergedHeader : text,
    plyGrouped
      (runMerge (fun _ => true)
         (runSplit constructor
            (mkFiles (headerOf smallCloud ++ smallPayload) ∅ ∅ None
               [Str.lit "notes.txt"] None) 120).1.1
         (runSplit constructor
            (mkFiles (headerOf smallCloud ++ smallPayload) ∅ ∅ None
               [Str.lit "notes.txt"] None) 120).1.2
         (-1)).1.2 !! 0%nat
    = Some (mergedHeader ++ smallPayload)
    /\ chunkPayload (mergedHeader ++ smallPayload) = smallPayload
    /\ Str.split Str.nl mergedHeader
       = map (fun line =>
                if Str.includes (Str.lit "element vertex") line
                then Str.lit "element vertex " ++ Str.ofZ 3
                else line)
           (Str.split Str.nl (headerOf smallCloud)).
Proof.
  apply (split_merge_roundtrip (fun _ => true) smallCloud smallPayload 3 9 120
           ∅ None [Str.lit "notes.txt"] None).
  - exact smallCloud_plain.
  - exact smallCloud_ascii.
  - repeat constructor.
  - vm_compute. reflexivity.
  - vm_compute. reflexivity.
  - discriminate.
  - vm_compute. reflexivity.
  - vm_compute. reflexivity.
  - vm_compute. split; reflexivity.
Defined.

(** * Further properties *)

(** ** What a split writes *)

Section EmissionFrame.

Implicit Types (st : SplatProcesser) (chunks : gmap nat text) (vpc : number).

Lemma emitChunk_writes st vertexData vpc chunks processed i :
  emitChunk st vertexData vpc (chunks, processed) i
  = (<[i := emittedChunk st vertexData vpc i]> chunks,
     JS.add processed (chunkVertices st vpc i)).
Proof. reflexivity. Qed.

Lemma emitLoop_files st vertexData vpc chunks processed n :
  forall i,
    (fold_left (emitChunk st vertexData vpc) (seq 0 n) (chunks, processed)).1
      !! i
    = if (i <? n)%nat then Some (emittedChunk st vertexData vpc i)
      else chunks !! i.
Proof.
  induction n as [|n IH]; intros i; [done|].
  rewrite seq_S, fold_left_app. cbn [fold_left Nat.add].
  destruct (fold_left _ (seq 0 n) _) as [chunks' processed'] eqn:E.
  rewrite emitChunk_writes. cbn [fst] in *.
  destruct (decide (i = n)) as [->|Hne].
  - rewrite lookup_insert_eq. by rewrite (proj2 (Nat.ltb_lt n (S n))) by lia.
  - rewrite lookup_insert_ne by done. rewrite IH.
    destruct (i <? n)%nat eqn:E1, (i <? S n)%nat eqn:E2; try done;
      apply Nat.ltb_lt in E1 || apply Nat.ltb_ge in E1;
      apply Nat.ltb_lt in E2 || apply Nat.ltb_ge in E2; lia.
Qed.

Lemma verifySplit_frame st fs n numChunks processed :
  let run := verifySplit st fs n numChunks processed in
  inputFile run.1 = inputFile fs /\ plyChunks run.1 = plyChunks fs
  /\ plyGrouped run.1 = plyGrouped fs
  /\ headerInfo run.1
     = match run.2 with Returned _ => Some st | _ => headerInfo fs end
  /\ otherChunkEntries run.1 = otherChunkEntries fs
  /\ chunksMetadata run.1 = chunksMetadata fs.
Proof.
  unfold verifySplit. destruct (fold_left _ _ _) as [v f].
  by destruct (JS.lt _ _).
Qed.

Lemma verifySplit_ends st fs n numChunks processed :
  (verifySplit st fs n numChunks processed).2 <> Diverged.
Proof.
  unfold verifySplit. destruct (fold_left _ _ _) as [v f].
  by destruct (JS.lt _ _).
Qed.

(** The vertices of a chunk and the indices of its first and last vertex,
    for a count and a chunk size that are numbers. *)
Lemma chunk_indices st count v i :
  vertexCount st = Num count -> 1 <= count -> 1 <= v ->
  (i < chunkTotal count v)%nat ->
  JS.mul (Num (Z.of_nat i)) (Num v) = Num (firstVertex count v i)
  /\ JS.min (JS.mul (Num (Z.of_nat i + 1)) (Num v)) (vertexCount st)
     = Num (firstVertex count v (S i))
  /\ chunkVertices st (Num v) i
     = Num (firstVertex count v (S i) - firstVertex count v i).
Proof.
  intros Hc Hc1 Hv Hi.
  assert (H1 : JS.mul (Num (Z.of_nat i)) (Num v) = Num (firstVertex count v i)).
  { cbn [JS.mul]. by rewrite (firstVertex_inner count v Hc1 Hv i Hi). }
  assert (H2 : JS.min (JS.mul (Num (Z.of_nat i + 1)) (Num v)) (vertexCount st)
               = Num (firstVertex count v (S i))).
  { rewrite Hc. unfold JS.min, JS.mul, JS.lt, firstVertex.
    rewrite Nat2Z.inj_succ, <- Z.add_1_r.
    destruct (count <? _) eqn:E; f_equal; lia. }
  split; [done|]. split; [done|].
  unfold chunkVertices. rewrite H1, H2. reflexivity.
Qed.

End EmissionFrame.

(** X1: a split of a file of fewer than 2^53 bytes with an ASCII header,
    over a count and a chunk size that are numbers, writes the chunk files
    0 .. n-1, n = ceil(count / verticesPerChunk), and nothing
    else: every other file of the chunk directory (a chunk left by an
    earlier run) is as it was, and so are the input file, the group
    directory and the manifest.  Chunk i holds a header followed by the
    bytes of the payload between the offsets of its first vertex and of
    the first vertex of the next chunk; the header has the lines of the
    header read, each line that contains "element vertex" replaced by the
    count line of the number of vertices of the chunk; the offset of
    vertex x is x * (length / count), computed in double precision,
    truncated and clamped to the payload. *)
Theorem split_writes_chunks (st : SplatProcesser) (fs : files)
    (target count v : Z) :
  let read := readPlyHeader st (inputFile fs) in
  let payload := vertexData read.2 in
  let run := split st fs target in
  let first := firstVertex count v in
  let offset x :=
    clampIndex
      (F64.trunc (F64.ofZ x * (F64.ofZ (Z.of_nat (length payload))
                               / F64.ofZ count))%float)
      (length payload) in
  asciiText (headerText (inputFile fs)) ->
  Z.of_nat (length (inputFile fs)) < 2 ^ 53 ->
  vertexCount read.1 = Num count -> 1 <= count < 2 ^ 53 ->
  verticesPerChunk st target = Num v -> 1 <= v ->
  run.2 <> Diverged
  /\ inputFile run.1.2 = inputFile fs
  /\ plyGrouped run.1.2 = plyGrouped fs
  /\ otherChunkEntries run.1.2 = otherChunkEntries fs
  /\ chunksMetadata run.1.2 = chunksMetadata fs
  /\ (forall i, (i < chunkTotal count v)%nat ->
        exists header : text,
          plyChunks run.1.2 !! i
          = Some (header ++ take (offset (first (S i)) - offset (first i))
                              (drop (offset (first i)) payload))
          /\ Str.split Str.nl header
             = map (fun line =>
                      if Str.includes (Str.lit "element vertex") line
                      then countLine (first (S i) - first i)
                      else line)
                 (Str.split Str.nl (originalHeader read.1))
               ++ (if Str.endsWith [Str.nl] (originalHeader read.1)
                   then [] else [[]]))
  /\ (forall i, (chunkTotal count v <= i)%nat ->
        plyChunks run.1.2 !! i = plyChunks fs !! i).
Proof.
  cbv zeta. intros _ _ Hc Hc1 Hv Hv1. rewrite split_unfold. cbv zeta.
  rewrite Hv, Hc, (ceilDiv_chunkTotal count v) by lia.
  cbn [iterations]. rewrite Nat2Z.id. cbn [fst snd].
  set (emitted := fold_left _ _ _).
  match goal with
  | |- context [verifySplit ?s ?f ?k ?c ?p] =>
      destruct (verifySplit_frame s f k c p) as (Hi & Hch & Hg & _ & Ho & Hm);
      pose proof (verifySplit_ends s f k c p) as He
  end.
  cbv zeta in *. rewrite Hi, Hch, Hg, Ho, Hm.
  cbn [inputFile plyChunks plyGrouped otherChunkEntries chunksMetadata].
  split; [done|]. do 4 (split; [done|]). split.
  - intros i E. unfold emitted. rewrite emitLoop_files.
    rewrite (proj2 (Nat.ltb_lt _ _) E).
    exists (createChunkHeader (readPlyHeader st (inputFile fs)).1
              (Num (firstVertex count v (S i) - firstVertex count v i))).
    split; [|apply createChunkHeader_lines].
    f_equal. unfold emittedChunk. cbv zeta.
    destruct (chunk_indices _ count v i Hc ltac:(lia) Hv1 E) as (-> & -> & ->).
    rewrite Hc. unfold slice, byteIndex. cbn [F64.ofNumber]. done.
  - intros i E. unfold emitted. rewrite emitLoop_files.
    by rewrite (proj2 (Nat.ltb_ge _ _) E).
Qed.

(** Eleven vertices over a payload of fifteen bytes: the quotient 15 / 11
    is rounded down, the last offset is truncated to 14, and the last byte
    of the payload is in no chunk. *)
Lemma split_writes_chunks_witness :
  let fs := mkFiles (headerOf oddCloud ++ oddPayload)
              {[7%nat := Str.lit "stale"]} ∅ None [] None in
  let run := split (readPlyHeader constructor (inputFile fs)).1 fs 566 in
  plyChunks run.1.2 !! 0%nat
  = Some (headerOf oddCloud ++ Str.lit "0123456789abcd")
  /\ plyChunks run.1.2 !! 7%nat = Some (Str.lit "stale").
Proof.
  intros fs run.
  pose (st := (readPlyHeader constructor (inputFile fs)).1).
  destruct (split_writes_chunks st fs 566 11 4128)
    as (_ & _ & _ & _ & _ & Hin & Hout).
  - compute_decide.
  - vm_compute. reflexivity.
  - vm_compute. reflexivity.
  - lia.
  - vm_compute. reflexivity.
  - lia.
  - split.
    + destruct (Hin 0%nat) as (header & Hf & Hl); [vm_compute; lia|].
      etransitivity; [exact Hf|].
      rewrite <- (join_split Str.nl header), Hl. vm_compute. reflexivity.
    + etransitivity; [apply (Hout 7%nat); vm_compute; lia|reflexivity].
Defined.

(** ** The grouping loop *)

Section GroupLoop.

Variables (loadPly : text -> bool) (st : SplatProcesser).

Implicit Types (fs : files) (gs : list (list nat)) (ids : list nat).

Lemma mergeChunks_mergedFile fs ids k :
  mergeChunks st fs ids k =
  match mergedFile st (plyChunks fs) ids with
  | Some file =>
      (mkFiles (inputFile fs) (plyChunks fs) (<[k := file]> (plyGrouped fs))
         (headerInfo fs) (otherChunkEntries fs) (chunksMetadata fs),
       match mergeLoop (plyChunks fs) ids 0 [] with
       | inr (total, _) => Returned total
       | inl e => Thrown e
       end)
  | None =>
      (fs, match mergeLoop (plyChunks fs) ids 0 [] with
           | inr (total, _) => Returned total
           | inl e => Thrown e
           end)
  end.
Proof.
  unfold mergeChunks, mergedFile.
  by destruct (mergeLoop _ _ _ _) as [e|[total data]].
Qed.

Lemma groupStep_spec fs metas failed k ids :
  let acc := groupStep loadPly st (fs, metas, failed) (k, ids) in
  inputFile acc.1.1 = inputFile fs /\ plyChunks acc.1.1 = plyChunks fs
  /\ headerInfo acc.1.1 = headerInfo fs
  /\ otherChunkEntries acc.1.1 = otherChunkEntries fs
  /\ chunksMetadata acc.1.1 = chunksMetadata fs
  /\ plyGrouped acc.1.1
     = match mergedFile st (plyChunks fs) ids with
       | Some file => <[k := file]> (plyGrouped fs)
       | None => plyGrouped fs
       end
  /\ acc.1.2
     = metas
       ++ (if groupSucceeds loadPly st (plyChunks fs) ids
           then [metaOf (plyChunks fs) (k, ids)] else [])
  /\ acc.2 = failed ++ (if groupSucceeds loadPly st (plyChunks fs) ids then [] else [k]).
Proof.
  cbv zeta. unfold groupStep, groupSucceeds, metaOf, mergedCount.
  rewrite mergeChunks_mergedFile. unfold mergedFile.
  destruct (mergeLoop (plyChunks fs) ids 0 []) as [e|[total data]] eqn:E.
  - cbn. by rewrite !app_nil_r.
  - cbn [plyGrouped]. rewrite lookup_insert_eq.
    destruct (loadPly _); cbn; rewrite ?E, ?app_nil_r; done.
Qed.

Lemma groupLoop_spec fs gs :
  let acc := fold_left (groupStep loadPly st) (imap (fun k g => (k, g)) gs)
               (fs, [], []) in
  inputFile acc.1.1 = inputFile fs /\ plyChunks acc.1.1 = plyChunks fs
  /\ headerInfo acc.1.1 = headerInfo fs
  /\ otherChunkEntries acc.1.1 = otherChunkEntries fs
  /\ chunksMetadata acc.1.1 = chunksMetadata fs
  /\ (forall k, plyGrouped acc.1.1 !! k
                = match gs !! k ≫= mergedFile st (plyChunks fs) with
                  | Some file => Some file
                  | None => plyGrouped fs !! k
                  end)
  /\ acc.1.2
     = map (metaOf (plyChunks fs))
         (filter (fun kg => groupSucceeds loadPly st (plyChunks fs) kg.2 = true)
            (imap (fun k g => (k, g)) gs))
  /\ acc.2
     = map fst (filter (fun kg => groupSucceeds loadPly st (plyChunks fs) kg.2 <> true)
                  (imap (fun k g => (k, g)) gs)).
Proof.
  induction gs as [|g gs IH] using rev_ind; [by cbn|].
  cbv zeta in *. rewrite imap_app, fold_left_app. cbn [imap fold_left].
  destruct (fold_left _ (imap _ gs) _) as [[fs' metas] failed].
  cbn [fst snd] in IH. destruct IH as (Hi & Hc & Hh & Ho & Hx & Hg & Hm & Hf).
  rewrite Nat.add_0_r.
  destruct (groupStep_spec fs' metas failed (length gs) g)
    as (Hi' & Hc' & Hh' & Ho' & Hx' & Hg' & Hm' & Hf').
  cbv zeta in *.
  rewrite Hi', Hc', Hh', Ho', Hx', Hg', Hm', Hf', Hi, Hc, Hh, Ho, Hx, Hm, Hf.
  rewrite !filter_app, !map_app.
  assert (Hlast : (gs ++ [g]) !! length gs = Some g)
    by (by rewrite lookup_app_r, Nat.sub_diag by lia).
  assert (Hold : forall k, (k < length gs)%nat -> (gs ++ [g]) !! k = gs !! k)
    by (intros k Hk; by rewrite lookup_app_l by lia).
  do 5 (split; [done|]). split; [|split].
  - intros k. destruct (decide (k = length gs)) as [->|Hne].
    + rewrite Hlast. cbn [mbind option_bind].
      destruct (mergedFile st (plyChunks fs) g) as [file|].
      * by rewrite lookup_insert_eq.
      * rewrite Hg. by rewrite lookup_ge_None_2.
    + assert (Hk : plyGrouped fs' !! k
                   = match (gs ++ [g]) !! k ≫= mergedFile st (plyChunks fs) with
                     | Some file => Some file
                     | None => plyGrouped fs !! k
                     end).
      { rewrite Hg. destruct (decide (k < length gs)%nat) as [Hlt|Hge].
        - by rewrite Hold.
        - by rewrite !lookup_ge_None_2 by (rewrite ?length_app; simpl; lia). }
      destruct (mergedFile st (plyChunks fs) g);
        [by rewrite lookup_insert_ne|done].
  - f_equal. rewrite filter_cons, filter_nil. cbn [snd].
    by destruct (groupSucceeds loadPly st (plyChunks fs) g); rewrite decide_bool_decide.
  - f_equal. rewrite filter_cons, filter_nil. cbn [snd].
    by destruct (groupSucceeds loadPly st (plyChunks fs) g); rewrite decide_bool_decide.
Qed.

End GroupLoop.

Lemma createGroups_loaded (loadPly : text -> bool) (st st' : SplatProcesser)
    (fs : files) (groupSize : Z) (gs : list (list nat)) :
  loadedProcesser st fs = Some st' ->
  sortThrows (plyEntries fs) = false ->
  groupIndices groupSize (length (plyEntries fs)) = Some gs ->
  let acc := fold_left (groupStep loadPly st') (imap (fun k g => (k, g)) gs)
               (fs, [], []) in
  let len := length (plyEntries fs) in
  let total :=
    JS.ceilDiv (Num (Z.of_nat len)) (Num (effectiveGroupSize groupSize len)) in
  createGroups loadPly st fs groupSize
  = (st',
     mkFiles (inputFile acc.1.1) (plyChunks acc.1.1) (plyGrouped acc.1.1)
       (headerInfo acc.1.1) (otherChunkEntries acc.1.1)
       (Some (Metadata.mk len total groupSize
                (effectiveGroupSize groupSize len) (length acc.1.2) acc.2
                acc.1.2)),
     Returned (mkGroupsResult acc.1.2 total (length acc.1.2) (length acc.2)
                 acc.2)).
Proof.
  intros Hl Hs Hg. cbv zeta. unfold createGroups.
  fold (loadedProcesser st fs). rewrite Hl, Hs, Hg.
  by destruct (fold_left _ _ _) as [[fs' metas] failed].
Qed.

Lemma createGroups_unsorted (loadPly : text -> bool) (st st' : SplatProcesser)
    (fs : files) (groupSize : Z) :
  loadedProcesser st fs = Some st' ->
  sortThrows (plyEntries fs) = true ->
  createGroups loadPly st fs groupSize = (st', fs, Thrown NullMatch).
Proof.
  intros Hl Hs. unfold createGroups. fold (loadedProcesser st fs).
  by rewrite Hl, Hs.
Qed.








(** ** The configuration and the driver *)

Section Driver.

Implicit Types (config : Config.t) (fs : files) (st : SplatProcesser).

Lemma operationIs_true config name :
  operationIs config name = true
  <-> Config.operation config = Some (Str.lit name).
Proof. unfold operationIs. apply bool_decide_eq_true. Qed.

Lemma validateConfig_split config b :
  validateConfig config = inr b ->
  operationIs config "split" || operationIs config "all" = true ->
  splitSectionOk config.
Proof.
  unfold validateConfig. destruct (_ || _); [done|]. intros H Hop.
  rewrite Hop in H. unfold splitSectionOk.
  destruct (Config.split config) as [[target file]|]; [|done].
  cbn [Config.targetSizeBytes Config.inputFile] in *.
  destruct target as [target|]; [|done]. cbn in H.
  destruct (target =? 0) eqn:E0; [done|]. cbn in H.
  destruct (target <=? 0) eqn:E1; [done|].
  destruct file as [[|c file]|]; try done.
  apply Z.leb_gt in E1. exists target, (c :: file). done.
Qed.

Lemma validateConfig_merge config b :
  validateConfig config = inr b ->
  operationIs config "merge" || operationIs config "all" = true ->
  mergeSectionOk config.
Proof.
  unfold validateConfig. destruct (_ || _); [done|]. intros H Hop.
  rewrite Hop in H. unfold mergeSectionOk.
  destruct (if operationIs config "split" || operationIs config "all"
            then _ else _); [done|].
  destruct (Config.merge config) as [[size dir]|]; [|done].
  cbn [Config.groupSize] in *.
  destruct size as [size|]; [|done]. cbn in H.
  destruct (size =? 0) eqn:E0; [done|]. cbn in H.
  exists size. split; [done|].
  destruct (bool_decide (Some size = Some (-1))) eqn:E1.
  - apply bool_decide_eq_true in E1. injection E1 as ->. by left.
  - cbn in H. destruct (size <=? 0) eqn:E2; [done|].
    apply Z.leb_gt in E2. by right.
Qed.

Lemma validateConfig_operation config b :
  validateConfig config = inr b ->
  operationIs config "split" || operationIs config "merge"
  || operationIs config "all" = true.
Proof.
  unfold validateConfig.
  destruct (operationIs config "split" || operationIs config "merge"
            || operationIs config "all"); [done|].
  by rewrite orb_true_r.
Qed.

End Driver.

(** X4: [validateConfig] accepts exactly the configurations whose operation
    is "split", "merge" or "all", whose [split] section, when the operation
    splits, has a positive size and a non-empty input path, and whose
    [merge] section, when the operation merges, has a group size that is -1
    or positive; a section that the operation does not use is not looked
    at.  It never returns anything but [true]. *)
Theorem validateConfig_accepts (config : Config.t) :
  (forall b, validateConfig config = inr b -> b = true)
  /\ (validateConfig config = inr true
      <-> (operationIs config "split" || operationIs config "merge"
           || operationIs config "all" = true)
          /\ (operationIs config "split" || operationIs config "all" = true
              -> splitSectionOk config)
          /\ (operationIs config "merge" || operationIs config "all" = true
              -> mergeSectionOk config)).
Proof.
  split.
  - intros b. unfold validateConfig.
    repeat (match goal with
            | |- context [if ?c then _ else _] => destruct c
            | |- context [match ?c with Some _ => _ | None => _ end] =>
                destruct c
            end; try done); by intros [= <-].
  - split.
    + intros H. split; [by apply (validateConfig_operation _ true)|].
      split; intros Hop;
        [by apply (validateConfig_split _ true)
        |by apply (validateConfig_merge _ true)].
    + intros (Hop & Hs & Hm). unfold validateConfig.
      assert (Ht : truthyText (Config.operation config) = true).
      { unfold operationIs in Hop.
        destruct (Config.operation config) as [[|c s]|]; try done;
          by vm_compute in Hop. }
      rewrite Ht, Hop. cbn [negb orb].
      assert (Hsplit :
        (if operationIs config "split" || operationIs config "all"
         then match Config.split config with
              | None => Some SplitMissing
              | Some section =>
                  if negb (truthyInt (Config.targetSizeBytes section))
                     || notPositive (Config.targetSizeBytes section)
                  then Some InvalidTargetSizeBytes
                  else if negb (truthyText (Config.inputFile section))
                  then Some InvalidInputFile
                  else None
              end
         else None) = None).
      { destruct (operationIs config "split" || operationIs config "all");
          [|done].
        destruct (Hs eq_refl) as (target & file & Ht' & Hpos & Hf & Hne).
        destruct (Config.split config) as [[t f]|]; [|done].
        cbn in Ht', Hf |- *. subst t f. cbn.
        rewrite (proj2 (Z.eqb_neq target 0)) by lia.
        rewrite (proj2 (Z.leb_gt target 0)) by lia. cbn.
        by destruct file. }
      rewrite Hsplit.
      destruct (operationIs config "merge" || operationIs config "all");
        [|done].
      destruct (Hm eq_refl) as (size & Hg & Hsize).
      destruct (Config.merge config) as [[g d]|]; [|done].
      cbn in Hg |- *. subst g. cbn.
      rewrite (proj2 (Z.eqb_neq size 0)) by lia. cbn.
      destruct Hsize as [->|Hpos]; [done|].
      rewrite (proj2 (Z.leb_gt size 0)) by lia. by rewrite andb_false_r.
Qed.

Lemma groupIndices_valid (groupSize : Z) (len : nat) :
  groupSize = -1 \/ 0 < groupSize ->
  exists gs, groupIndices groupSize len = Some gs.
Proof.
  intros Hg. unfold groupIndices, effectiveGroupSize.
  destruct len as [|len]; [by eexists|].
  destruct Hg as [->|Hg].
  - change (-1 =? -1) with true. cbv iota.
    rewrite (proj2 (Z.leb_gt _ 0)) by lia. by eexists.
  - rewrite (proj2 (Z.eqb_neq groupSize (-1))) by lia.
    rewrite (proj2 (Z.leb_gt _ 0)) by lia. by eexists.
Qed.

Lemma split_header_info (st : SplatProcesser) (fs : files) (target : Z) :
  let run := split st fs target in
  run.1.1 = (readPlyHeader st (inputFile fs)).1
  /\ headerInfo run.1.2
     = match run.2 with Returned _ => Some run.1.1 | _ => headerInfo fs end.
Proof.
  cbv zeta. rewrite split_unfold. cbv zeta.
  destruct (iterations _) as [n|]; [|done]. cbn [fst snd].
  split; [done|].
  match goal with
  | |- context [verifySplit ?s ?f ?k ?c ?p] =>
      destruct (verifySplit_frame s f k c p) as (_ & _ & _ & -> & _)
  end.
  by destruct (verifySplit _ _ _ _ _).2.
Qed.

Lemma runSplit_split (st : SplatProcesser) (fs : files) (target : Z) :
  runSplit st fs target = split (readPlyHeader st (inputFile fs)).1 fs target.
Proof. unfold runSplit. by destruct (readPlyHeader st (inputFile fs)). Qed.

Lemma createGroups_returns (loadPly : text -> bool) (st st' : SplatProcesser)
    (fs : files) (groupSize : Z) :
  loadedProcesser st fs = Some st' ->
  groupSize = -1 \/ 0 < groupSize ->
  (sortThrows (plyEntries fs) = true ->
   (createGroups loadPly st fs groupSize).2 = Thrown NullMatch)
  /\ (sortThrows (plyEntries fs) = false ->
      exists r, (createGroups loadPly st fs groupSize).2 = Returned r).
Proof.
  intros Hl Hg. split; intros Hs.
  - by rewrite (createGroups_unsorted _ _ st').
  - destruct (groupIndices_valid groupSize (length (plyEntries fs)) Hg)
      as [gs Hgs].
    rewrite (createGroups_loaded loadPly st st' fs groupSize gs Hl Hs Hgs).
    by eexists.
Qed.

(** X5: a grouping run by a new process after a split that returned gives
    the same files and the same result as one run by the process that
    split: the header information that [split] saves is what
    [createGroups] loads when its processer has read no header. *)
Theorem createGroups_after_split (loadPly : text -> bool)
    (st : SplatProcesser) (fs : files) (target groupSize : Z)
    (r : splitResult) :
  let done := runSplit st fs target in
  done.2 = Returned r ->
  let same := createGroups loadPly done.1.1 done.1.2 groupSize in
  let fresh := createGroups loadPly constructor done.1.2 groupSize in
  headerInfo done.1.2 = Some done.1.1
  /\ fresh.1.2 = same.1.2 /\ fresh.2 = same.2.
Proof.
  cbv zeta. rewrite runSplit_split. intros Hr.
  destruct (split_header_info (readPlyHeader st (inputFile fs)).1 fs target)
    as [_ Hinfo].
  cbv zeta in Hinfo. rewrite Hr in Hinfo. split; [done|].
  unfold createGroups. cbn [originalHeader constructor]. rewrite Hinfo.
  by destruct (originalHeader _).
Qed.

Lemma createGroups_after_split_witness :
  let fs := mkFiles (headerOf smallCloud ++ smallPayload) ∅ ∅ None [] None in
  let done := runSplit constructor fs 566 in
  (createGroups (fun _ => true) constructor done.1.2 2).2
  = (createGroups (fun _ => true) done.1.1 done.1.2 2).2.
Proof.
  intros fs done.
  eapply (createGroups_after_split (fun _ => true) constructor fs 566 2).
  vm_compute. reflexivity.
Defined.

(** X6: how [main] ends on a configuration that [validateConfig] accepts.
    With the operation "merge" it exits with code 1, the files untouched,
    when no header information was saved; otherwise it exits with code 1
    when the sort of the names of the chunk directory throws (two ".ply"
    names or more, one of them without a digit) and runs to its end when it
    does not, whatever the loader says of the groups.  With "split" the
    split alone decides: [main] runs to its end when the split returns and
    exits with code 1 when it throws.  With "all" the grouping follows a
    split that returned, over the chunk directory as the split left it, and
    ends [main] in the same two ways. *)
Theorem main_exit_status (loadPly : text -> bool) (config : Config.t)
    (fs : files) :
  validateConfig config = inr true ->
  let run := main loadPly config fs in
  let grouped fs :=
    if sortThrows (plyEntries fs) then Exited 1 else Completed in
  (operationIs config "merge" = true ->
     (headerInfo fs = None -> run = (fs, Exited 1))
     /\ (headerInfo fs <> None -> run.2 = grouped fs))
  /\ (operationIs config "split" || operationIs config "all" = true ->
      exists target,
        Config.split config ≫= Config.targetSizeBytes = Some target
        /\ run.2 = match (runSplit constructor fs target).2 with
                   | Returned _ =>
                       if operationIs config "all"
                       then grouped (runSplit constructor fs target).1.2
                       else Completed
                   | Thrown _ => Exited 1
                   | Diverged => Unfinished
                   end).
Proof.
  intros Hv. cbv zeta. unfold main. rewrite Hv. split.
  - intros Hop.
    destruct (validateConfig_merge config true Hv) as (size & Hg & Hsize);
      [by rewrite Hop|].
    apply operationIs_true in Hop.
    assert (Hs : operationIs config "split" || operationIs config "all" = false)
      by (unfold operationIs; rewrite Hop; by vm_compute).
    assert (Hm : operationIs config "merge" || operationIs config "all" = true)
      by (unfold operationIs; rewrite Hop; by vm_compute).
    rewrite Hs, Hm, Hg. unfold runMerge. split.
    + intros Hnone. unfold createGroups. cbn [originalHeader constructor].
      by rewrite Hnone.
    + intros Hsome. destruct (headerInfo fs) as [st'|] eqn:Ei; [|done].
      destruct (createGroups_returns loadPly constructor st' fs size)
        as [Hth Hr]; [unfold loadedProcesser; by rewrite Ei|done|].
      destruct (createGroups loadPly constructor fs size) as [[st'' fs''] o].
      cbn [fst snd] in *. destruct (sortThrows (plyEntries fs)).
      * by rewrite Hth.
      * by destruct (Hr eq_refl) as [r ->].
  - intros Hop.
    destruct (validateConfig_split config true Hv Hop)
      as (target & file & Ht & Hpos & _).
    exists target. split; [done|]. rewrite Hop, Ht.
    pose proof (split_header_info
                  (readPlyHeader constructor (inputFile fs)).1 fs target)
      as [_ Hinfo].
    cbv zeta in Hinfo. rewrite <- runSplit_split in Hinfo.
    destruct (runSplit constructor fs target) as [[st' fs'] o] eqn:Erun.
    cbn [fst snd] in *.
    destruct o as [r| |]; cbn [caught]; [|done|done].
    assert (Hall : operationIs config "merge" || operationIs config "all"
                   = operationIs config "all").
    { destruct (operationIs config "all") eqn:Ea; [apply orb_true_r|].
      rewrite orb_false_r in Hop |- *. apply operationIs_true in Hop.
      unfold operationIs. rewrite Hop. by vm_compute. }
    rewrite Hall. destruct (operationIs config "all") eqn:Ea; [|done].
    destruct (validateConfig_merge config true Hv) as (size & Hg & Hsize);
      [by rewrite Ea, orb_true_r|].
    rewrite Hg. unfold runMerge.
    destruct (createGroups_returns loadPly st' st' fs' size)
      as [Hth Hr]; [|done|].
    { unfold loadedProcesser. by destruct (originalHeader st'). }
    destruct (createGroups loadPly st' fs' size) as [[st'' fs''] o'].
    cbn [fst snd] in *. destruct (sortThrows (plyEntries fs')).
    + by rewrite Hth.
    + by destruct (Hr eq_refl) as [r' ->].
Qed.

(** The exported configuration over a chunk directory that holds a file
    "scene.ply": the split returns, the listing then has two names, one
    without digit, and [main] exits with code 1. *)
Lemma main_exit_status_witness :
  let fs := mkFiles (headerOf smallCloud ++ smallPayload) ∅ ∅ None
              [Str.lit "scene.ply"] None in
  (main (fun _ => true) config fs).2 = Exited 1
  /\ (main (fun _ => true) config
        (mkFiles (inputFile fs) ∅ ∅ None [] None)).2 = Completed.
Proof.
  intros fs. split.
  - destruct (main_exit_status (fun _ => true) config fs eq_refl) as [_ H].
    destruct (H eq_refl) as (target & Ht & ->).
    injection Ht as <-. vm_compute. reflexivity.
  - destruct (main_exit_status (fun _ => true) config
                (mkFiles (inputFile fs) ∅ ∅ None [] None) eq_refl) as [_ H].
    destruct (H eq_refl) as (target & Ht & ->).
    injection Ht as <-. vm_compute. reflexivity.
Defined.

(** ** The fields that [readPlyHeader] leaves *)

Section PropertyMap.

Implicit Types (k v : text) (m : list (text * text))
  (entries : list (text * text)).

Lemma assoc_mapSet k k' v m :
  assoc k (mapSet k' v m) = if decide (k' = k) then Some v else assoc k m.
Proof.
  induction m as [|[k0 v0] m IH]; cbn [mapSet assoc].
  - done.
  - destruct (decide (k0 = k')) as [->|Hne]; cbn [assoc].
    + by destruct (decide (k' = k)).
    + rewrite IH. destruct (decide (k0 = k)) as [->|]; [|done].
      by rewrite decide_False.
Qed.

Lemma mapSet_keys k v m :
  map fst (mapSet k v m)
  = if bool_decide (k ∈ map fst m) then map fst m else map fst m ++ [k].
Proof.
  induction m as [|[k0 v0] m IH]; cbn [mapSet map fst app].
  - rewrite bool_decide_false; [done|]. apply not_elem_of_nil.
  - destruct (decide (k0 = k)) as [->|Hne]; cbn [map fst].
    + rewrite bool_decide_true; [done|]. by left.
    + rewrite IH. case_bool_decide as E.
      * rewrite bool_decide_true; [done|]. by right.
      * rewrite bool_decide_false; [done|].
        intros [?|?]%elem_of_cons; congruence.
Qed.

Lemma mapSet_same k v v' m : mapSet k v (mapSet k v' m) = mapSet k v m.
Proof.
  induction m as [|[k0 v0] m IH]; cbn [mapSet].
  - by rewrite decide_True.
  - destruct (decide (k0 = k)) as [->|Hne]; cbn [mapSet].
    + by rewrite decide_True.
    + rewrite decide_False by done. by rewrite IH.
Qed.

Lemma mapSet_app_l k v m m' :
  k ∈ map fst m -> mapSet k v (m ++ m') = mapSet k v m ++ m'.
Proof.
  induction m as [|[k0 v0] m IH]; intros Hin; [by apply elem_of_nil in Hin|].
  cbn [mapSet app]. destruct (decide (k0 = k)); [done|].
  cbn [app]. rewrite IH; [done|].
  cbn in Hin. apply elem_of_cons in Hin as [?|?]; [congruence|done].
Qed.

Lemma mapSet_fresh k v m : k ∉ map fst m -> mapSet k v m = m ++ [(k, v)].
Proof.
  induction m as [|[k0 v0] m IH]; intros Hin; [done|].
  cbn in Hin. apply not_elem_of_cons in Hin as [Hne Hin].
  cbn [mapSet app]. rewrite decide_False by done. by rewrite IH.
Qed.

(** Two sets of different keys commute when one of the keys is there. *)
Lemma mapSet_comm k v k' v' m :
  k <> k' -> k' ∈ map fst m ->
  mapSet k' v' (mapSet k v m) = mapSet k v (mapSet k' v' m).
Proof.
  intros Hne Hin. induction m as [|[k0 v0] m IH];
    [by apply elem_of_nil in Hin|].
  cbn [mapSet]. destruct (decide (k0 = k)) as [->|Hk].
  - cbn [mapSet]. rewrite decide_False by done.
    rewrite decide_False by done. cbn [mapSet]. by rewrite decide_True.
  - destruct (decide (k0 = k')) as [->|Hk'].
    + cbn [mapSet]. rewrite decide_True by done. by rewrite decide_False.
    + cbn [mapSet]. rewrite !decide_False by done. rewrite IH; [done|].
      cbn in Hin. apply elem_of_cons in Hin as [?|?]; [congruence|done].
Qed.

Lemma mapSet_key_in k v m : k ∈ map fst (mapSet k v m).
Proof.
  rewrite mapSet_keys. case_bool_decide; [done|].
  apply elem_of_app. right. by left.
Qed.

Lemma mapSet_keys_mono k k' v m :
  k ∈ map fst m -> k ∈ map fst (mapSet k' v m).
Proof.
  intros H. rewrite mapSet_keys. case_bool_decide; [done|].
  apply elem_of_app. by left.
Qed.

Lemma setAll_keys entries m k :
  k ∈ map fst entries \/ k ∈ map fst m -> k ∈ map fst (setAll entries m).
Proof.
  revert m. induction entries as [|[k0 v0] entries IH]; intros m.
  - intros [H|H]; [by apply elem_of_nil in H|done].
  - cbn [map fst]. intros H. apply IH.
    destruct H as [[->|H]%elem_of_cons|H]; [|by left|].
    + right. apply mapSet_key_in.
    + right. by apply mapSet_keys_mono.
Qed.

(** Setting [k] before a run of sets whose keys are all there is undone by
    setting it after the run. *)
Lemma setAll_absorb entries k v m :
  Forall (fun kv => kv.1 ∈ map fst m) entries ->
  mapSet k v (setAll entries (mapSet k v m)) = mapSet k v (setAll entries m).
Proof.
  revert m. induction entries as [|[k0 v0] entries IH]; intros m Hall.
  - apply mapSet_same.
  - inversion Hall as [|? ? Hin Hall']; subst. cbn [setAll fold_left fst snd].
    fold (setAll entries (mapSet k0 v0 (mapSet k v m))).
    fold (setAll entries (mapSet k0 v0 m)).
    destruct (decide (k = k0)) as [->|Hne].
    + by rewrite mapSet_same.
    + rewrite mapSet_comm by done. apply IH.
      eapply Forall_impl; [done|]. intros kv. apply mapSet_keys_mono.
Qed.

(** Repeating a sequence of sets changes nothing. *)
Lemma setAll_idempotent entries m :
  setAll entries (setAll entries m) = setAll entries m.
Proof.
  induction entries as [|[k v] entries IH] using rev_ind; [done|].
  unfold setAll in *. rewrite !fold_left_app. cbn [fold_left fst snd].
  fold (setAll entries m). fold (setAll entries (mapSet k v (setAll entries m))).
  rewrite setAll_absorb.
  - fold (setAll entries (setAll entries m)). unfold setAll at 2 3.
    fold (setAll entries m). unfold setAll in IH |- *. by rewrite IH.
  - apply Forall_forall. intros kv Hkv. apply setAll_keys. left.
    by apply list_elem_of_fmap_2.
Qed.

Lemma assoc_setAll entries m k :
  assoc k (setAll entries m)
  = match last (filter (fun kv => kv.1 = k) entries) with
    | Some kv => Some kv.2
    | None => assoc k m
    end.
Proof.
  induction entries as [|[k0 v0] entries IH] using rev_ind; [done|].
  unfold setAll in *. rewrite fold_left_app. cbn [fold_left fst snd].
  rewrite assoc_mapSet, filter_app, filter_cons, filter_nil. cbn [fst].
  destruct (decide (k0 = k)) as [->|Hne].
  - by rewrite last_snoc.
  - by rewrite app_nil_r.
Qed.

End PropertyMap.

Section HeaderFields.

Implicit Types (st : SplatProcesser) (acc : SplatProcesser * list text)
  (line data : text) (lines : list text).

Lemma readLine_propertyTypes acc line :
  propertyTypes (readLine acc line).1
  = match declaredProperty line with
    | Some kv => mapSet kv.1 kv.2 (propertyTypes acc.1)
    | None => propertyTypes acc.1
    end.
Proof.
  destruct acc as [st extra]. unfold readLine, declaredProperty. cbv zeta.
  destruct (Str.trim line) as [|a t] eqn:Et; [done|].
  destruct (Str.includes _ _); [done|].
  destruct (Str.startsWith _ (a :: t)); [|done].
  destruct (_ !! 2%nat); [|done]. by destruct (_ !! 1%nat).
Qed.

Lemma readLines_propertyTypes lines acc :
  propertyTypes (fold_left readLine lines acc).1
  = setAll (omap declaredProperty lines) (propertyTypes acc.1).
Proof.
  revert acc. induction lines as [|l lines IH]; intros acc; [done|].
  cbn [fold_left omap list_omap]. rewrite IH, readLine_propertyTypes.
  by destruct (declaredProperty l).
Qed.

Lemma readLines_count_line pre l post acc :
  declaresVertexCount l = true ->
  Forall (fun l' => declaresVertexCount l' = false) post ->
  vertexCount (fold_left readLine (pre ++ l :: post) acc).1 = countOfLine l.
Proof.
  intros Hl Hpost. rewrite fold_left_app. cbn [fold_left].
  rewrite readLines_vertexCount by done.
  destruct (fold_left readLine pre acc) as [st extra].
  unfold readLine, countOfLine. unfold declaresVertexCount in Hl.
  destruct (Str.trim l); [done|]. by rewrite Hl.
Qed.

Lemma shDegree_idempotent (n : nat) (d : Z) :
  shDegree n (shDegree n d) = shDegree n d.
Proof. unfold shDegree. by repeat destruct (_ =? _)%nat. Qed.

Lemma readPlyHeader_propertyTypes st data :
  propertyTypes (readPlyHeader st data).1
  = setAll (omap declaredProperty (Str.split Str.nl (headerText data)))
      (propertyTypes st).
Proof. rewrite readPlyHeader_unfold. cbn. by rewrite readLines_propertyTypes. Qed.

Lemma readPlyHeader_vertexCount_acc st st' data :
  vertexCount st = vertexCount st' ->
  vertexCount (readPlyHeader st data).1 = vertexCount (readPlyHeader st' data).1.
Proof.
  intros Hc. rewrite !readPlyHeader_unfold. cbn [fst vertexCount].
  set (lines := Str.split Str.nl (headerText data)).
  destruct (decide (Exists (fun l => declaresVertexCount l = true) lines))
    as [Hin|Hout]; [by apply readLines_vertexCount_det|].
  apply not_Exists_Forall in Hout; [|apply _].
  assert (Hf : Forall (fun l => declaresVertexCount l = false) lines).
  { eapply Forall_impl; [done|]. intros x Hx. simpl in Hx.
    by destruct (declaresVertexCount x). }
  by rewrite !readLines_vertexCount.
Qed.

End HeaderFields.

Lemma readPlyHeader_again (st : SplatProcesser) (data : text) :
  readPlyHeader (readPlyHeader st data).1 data = readPlyHeader st data.
Proof.
  apply injective_projections.
  - pose proof (readPlyHeader_propertyTypes (readPlyHeader st data).1 data)
      as Hp.
    rewrite (readPlyHeader_propertyTypes st data), setAll_idempotent in Hp.
    rewrite <- (readPlyHeader_propertyTypes st data) in Hp.
    pose proof (readPlyHeader_degree (readPlyHeader st data).1 data) as Hd.
    rewrite (readPlyHeader_degree st data), shDegree_idempotent in Hd.
    rewrite <- (readPlyHeader_degree st data) in Hd.
    destruct (readPlyHeader_parts (readPlyHeader st data).1 data) as [_ Hh].
    destruct (readPlyHeader_parts st data) as [_ Hh'].
    rewrite <- Hh' in Hh.
    assert (Hc : vertexCount (readPlyHeader (readPlyHeader st data).1 data).1
                 = vertexCount (readPlyHeader st data).1).
    { set (lines := Str.split Str.nl (headerText data)).
      destruct (decide (Exists (fun l => declaresVertexCount l = true) lines))
        as [Hin|Hout].
      - rewrite !readPlyHeader_unfold. cbn [fst vertexCount].
        by apply readLines_vertexCount_det.
      - apply not_Exists_Forall in Hout; [|apply _].
        assert (Hf : Forall (fun l => declaresVertexCount l = false) lines).
        { eapply Forall_impl; [done|]. intros x Hx. simpl in Hx.
          by destruct (declaresVertexCount x). }
        rewrite (readPlyHeader_unfold (readPlyHeader st data).1).
        cbn [fst vertexCount]. by rewrite readLines_vertexCount. }
    destruct (readPlyHeader (readPlyHeader st data).1 data).1,
      (readPlyHeader st data).1. cbn in *. congruence.
  - destruct (readPlyHeader_parts (readPlyHeader st data).1 data) as [-> _].
    by destruct (readPlyHeader_parts st data) as [-> _].
Qed.

(** X7: reading the header of the same file a second time changes nothing:
    the fields and the returned parts are those of the first reading.  So
    the driver, which reads the header and then calls [split], which reads
    it again, sizes the chunks with the fields of the file, and ends with
    the processer in the state that the first reading left. *)
Theorem readPlyHeader_idempotent (st : SplatProcesser) (fs : files)
    (target : Z) :
  let first := readPlyHeader st (inputFile fs) in
  readPlyHeader first.1 (inputFile fs) = first
  /\ runSplit st fs target = split first.1 fs target
  /\ (runSplit st fs target).1.1 = first.1.
Proof.
  cbv zeta. split; [apply readPlyHeader_again|]. split.
  - unfold runSplit. by destruct (readPlyHeader st (inputFile fs)).
  - unfold runSplit.
    destruct (readPlyHeader st (inputFile fs)) as [st1 parts] eqn:E.
    rewrite split_unfold. cbv zeta.
    replace st1 with (readPlyHeader st (inputFile fs)).1 by (by rewrite E).
    rewrite readPlyHeader_again, E. cbn [fst].
    by destruct (iterations _).
Qed.

(** X8: the vertex count that [readPlyHeader] leaves is read from the last
    header line that contains "element vertex", comment lines included: it
    is [parseInt] of the third space-separated word of that line, trimmed
    (NaN when there is none or it is no numeral); without such a line the
    count is left as it was. *)
Theorem readPlyHeader_vertex_count (st : SplatProcesser) (data : text) :
  let lines := Str.split Str.nl (headerText data) in
  (Forall (fun l => declaresVertexCount l = false) lines ->
   vertexCount (readPlyHeader st data).1 = vertexCount st)
  /\ (forall pre l post,
        lines = pre ++ l :: post ->
        declaresVertexCount l = true ->
        Forall (fun l' => declaresVertexCount l' = false) post ->
        vertexCount (readPlyHeader st data).1 = countOfLine l).
Proof.
  cbv zeta. split.
  - intros Hf. rewrite readPlyHeader_unfold. cbn [fst vertexCount].
    by rewrite readLines_vertexCount.
  - intros pre l post Hlines Hl Hpost. rewrite readPlyHeader_unfold.
    cbn [fst vertexCount]. rewrite Hlines.
    by apply readLines_count_line.
Qed.

Lemma readPlyHeader_vertex_count_witness :
  vertexCount (readPlyHeader constructor trailingComment).1 = NaN.
Proof.
  destruct (readPlyHeader_vertex_count constructor trailingComment) as [_ H].
  apply (H (map Str.lit ["ply"; "element vertex 2"]%string)
           (Str.lit "comment element vertex count is above")
           (map Str.lit ["property float x"; "end_header"; ""]%string)).
  - vm_compute. reflexivity.
  - vm_compute. reflexivity.
  - repeat constructor.
Defined.

(** X9: the property map that [readPlyHeader] leaves gives every property
    name the type of its last declaration in the header, and a name that
    the header does not declare keeps the type it had. *)
Theorem readPlyHeader_property_types (st : SplatProcesser) (data name : text) :
  assoc name (propertyTypes (readPlyHeader st data).1)
  = match lastDeclared name (Str.split Str.nl (headerText data)) with
    | Some type => Some type
    | None => assoc name (propertyTypes st)
    end.
Proof.
  rewrite readPlyHeader_propertyTypes, assoc_setAll. unfold lastDeclared.
  by destruct (last _).
Qed.

Lemma indexOf_first (p s : text) (i : nat) :
  Str.indexOf p s = Some i ->
  (exists rest, drop i s = p ++ rest)
  /\ (i <= length s)%nat
  /\ forall j, (j < i)%nat -> Str.startsWith p (drop j s) = false.
Proof.
  revert i. induction s as [|a s IH]; intros i; rewrite indexOf_unfold.
  - destruct (Str.startsWith p []) eqn:E; [|done]. intros [= <-].
    apply startsWith_spec in E. split; [done|]. split; [done|]. lia.
  - destruct (Str.startsWith p (a :: s)) eqn:E.
    + intros [= <-]. apply startsWith_spec in E.
      split; [done|]. split; [simpl; lia|]. lia.
    + destruct (Str.indexOf p s) as [k|] eqn:Ek; [|done].
      intros [= <-]. destruct (IH k eq_refl) as (Hr & Hk & Hj).
      split; [done|]. split; [simpl; lia|].
      intros [|j] Hlt; [done|]. cbn [drop]. apply Hj. lia.
Qed.

(** X10: on a file whose header part is made of ASCII bytes,
    [readPlyHeader] loses no byte: the header text that it stores followed
    by the vertex data that it returns is the file.  When the file holds
    the terminator "end_header" with its line feed, the header is the text
    up to and including its first occurrence, wherever in a line that
    occurrence starts. *)
Theorem readPlyHeader_header_payload (st : SplatProcesser) (data : text) :
  let run := readPlyHeader st data in
  asciiText (headerText data) ->
  originalHeader run.1 ++ vertexData run.2 = data
  /\ forall i,
       Str.indexOf end_header data = Some i ->
       originalHeader run.1 = take i data ++ end_header
       /\ headerEndIndex run.2 = Z.of_nat i + 11
       /\ forall j, (j < i)%nat ->
            Str.startsWith end_header (drop j data) = false.
Proof.
  cbv zeta. intros _. destruct (readPlyHeader_parts st data) as [-> ->].
  cbn [vertexData headerEndIndex]. unfold headerText. split.
  - apply take_drop.
  - intros i Hi. unfold headerEnd. rewrite Hi.
    destruct (indexOf_first _ _ _ Hi) as ([rest Hr] & Hle & Hj).
    split; [|split; [done|exact Hj]].
    replace (Z.to_nat (Z.of_nat i + 11)) with (i + 11)%nat by lia.
    rewrite <- (take_drop i data) at 1. rewrite Hr.
    rewrite take_app_add' by (rewrite length_take; lia).
    by f_equal.
Qed.

Lemma readPlyHeader_header_payload_witness :
  let data := trailingComment ++ Str.lit "abcdefgh" in
  let run := readPlyHeader constructor data in
  originalHeader run.1 ++ vertexData run.2 = data.
Proof.
  intros data run.
  apply (readPlyHeader_header_payload constructor data). compute_decide.
Defined.

(** ** Splits without vertices, and of any payload *)

Lemma split_empty (st : SplatProcesser) (fs : files) (target : Z) :
  let read := readPlyHeader st (inputFile fs) in
  vertexCount read.1 = Num 0 \/ vertexCount read.1 = NaN ->
  let numChunks := JS.ceilDiv (vertexCount read.1) (verticesPerChunk st target) in
  split st fs target
  = (read.1,
     mkFiles (inputFile fs) (plyChunks fs) (plyGrouped fs) (Some read.1)
       (otherChunkEntries fs) (chunksMetadata fs),
     Returned (mkSplitResult numChunks 0 (Num 0) []))
  /\ (numChunks = Num 0 \/ numChunks = NaN).
Proof.
  cbv zeta. intros Hc. rewrite split_unfold. cbv zeta.
  set (read := readPlyHeader st (inputFile fs)) in *.
  assert (Hn : JS.ceilDiv (vertexCount read.1) (verticesPerChunk st target)
               = Num 0
               \/ JS.ceilDiv (vertexCount read.1) (verticesPerChunk st target)
                  = NaN).
  { destruct Hc as [-> | ->]; [|by right].
    destruct (verticesPerChunk_cases st target) as [->|[->|(v & Hv & ->)]];
      [by right|by left|left].
    unfold JS.ceilDiv. by rewrite (proj2 (Z.eqb_neq v 0)) by lia. }
  split; [|done].
  assert (Hi : iterations
                 (JS.ceilDiv (vertexCount read.1) (verticesPerChunk st target))
               = Some 0%nat) by (by destruct Hn as [-> | ->]).
  rewrite Hi. cbn [seq fold_left fst snd]. unfold verifySplit.
  cbn [seq fold_left plyChunks inputFile plyGrouped headerInfo].
  by destruct Hc as [-> | ->].
Qed.

Lemma split_negative (st : SplatProcesser) (fs : files) (target c : Z) :
  vertexCount (readPlyHeader st (inputFile fs)).1 = Num c -> c < 0 ->
  split st fs target
  = ((readPlyHeader st (inputFile fs)).1, fs,
     Thrown (VertexCountMismatch (Num c) 0)).
Proof.
  intros Hc Hneg. rewrite split_unfold. cbv zeta. rewrite Hc.
  assert (Hi : iterations (JS.ceilDiv (Num c) (verticesPerChunk st target))
               = Some 0%nat).
  { destruct (verticesPerChunk_cases st target) as [->|[->|(v & Hv & ->)]];
      [done|done|].
    unfold JS.ceilDiv. rewrite (proj2 (Z.eqb_neq v 0)) by lia.
    cbn [iterations]. f_equal.
    pose proof (Z.div_pos (- c) v ltac:(lia) ltac:(lia)). lia. }
  rewrite Hi. cbn [seq fold_left fst snd].
  rewrite (verifySplit_spec _ _ _ _ _ c) by done.
  cbn [plyChunks readableSum seq map foldr].
  rewrite (proj2 (Z.eqb_neq 0 c)) by lia. cbn [fst snd]. by destruct fs.
Qed.

(** X11: a file whose header leaves a vertex count that is not positive is
    split into no chunk, and the chunk directory is left as it is.  With a
    count of 0 (a count line with 0, or, for a new processer, no count line
    at all) or NaN (a count that is no numeral) the split still returns,
    reports no failure and saves the header information; with a negative
    count it throws the mismatch error. *)
Theorem split_no_vertices (st : SplatProcesser) (fs : files) (target : Z) :
  let read := readPlyHeader st (inputFile fs) in
  let run := split st fs target in
  vertexCount read.1 = NaN
  \/ (exists c, vertexCount read.1 = Num c /\ c <= 0) ->
  plyChunks run.1.2 = plyChunks fs
  /\ (vertexCount read.1 = Num 0 \/ vertexCount read.1 = NaN ->
      exists numChunks,
        run = (read.1,
               mkFiles (inputFile fs) (plyChunks fs) (plyGrouped fs)
                 (Some read.1) (otherChunkEntries fs) (chunksMetadata fs),
               Returned (mkSplitResult numChunks 0 (Num 0) []))
        /\ (numChunks = Num 0 \/ numChunks = NaN))
  /\ (forall c, vertexCount read.1 = Num c -> c < 0 ->
      run = (read.1, fs, Thrown (VertexCountMismatch (Num c) 0))).
Proof.
  cbv zeta. intros Hc. split; [|split].
  - destruct Hc as [Hc|(c & Hc & Hle)].
    + by destruct (split_empty st fs target (or_intror Hc)) as [-> _].
    + destruct (Z.eq_dec c 0) as [->|Hne].
      * by destruct (split_empty st fs target (or_introl Hc)) as [-> _].
      * by rewrite (split_negative st fs target c Hc) by lia.
  - intros Hz. destruct (split_empty st fs target Hz) as [Hs Hn].
    cbv zeta in Hs, Hn. eexists. split; [exact Hs|exact Hn].
  - intros c Hc' Hneg. by apply split_negative.
Qed.

Lemma split_no_vertices_witness :
  let fs := mkFiles (headerOf unreadableCount ++ smallPayload) ∅ ∅ None
              [] None in
  exists numChunks,
    (split constructor fs 566).2
    = Returned (mkSplitResult numChunks 0 (Num 0) []).
Proof.
  intros fs.
  destruct (split_no_vertices constructor fs 566) as (_ & H & _).
  - left. vm_compute. reflexivity.
  - destruct H as (n & H & _); [right; vm_compute; reflexivity|].
    exists n. by rewrite H.
Defined.

Section AnyPayload.

Variables (hl : list text) (payload : text) (count v target : Z)
  (chunks0 grouped : gmap nat text) (info : option SplatProcesser)
  (others : list text) (meta : option Metadata.t).

Let data := headerOf hl ++ payload.
Let st := (readPlyHeader constructor data).1.

Hypothesis Hplain : Forall plainLine hl.
Hypothesis Hcount : vertexCount st = Num count.
Hypothesis count_pos : 1 <= count.
Hypothesis v_pos : 1 <= v.





End AnyPayload.



Section Records.

Variables (loadPly : text -> bool) (hl : list text) (payload : text)
  (count w v target : Z) (grouped : gmap nat text)
  (info : option SplatProcesser) (others : list text)
  (meta : option Metadata.t).

Let data := headerOf hl ++ payload.
Let stA := (readPlyHeader constructor data).1.
Let stB := (readPlyHeader stA data).1.

Hypothesis Hplain : Forall plainLine hl.
Hypothesis HcountA : vertexCount stA = Num count.
Hypothesis count_pos : 1 <= count.
Hypothesis Hlen : Z.of_nat (length payload) = w * count.
Hypothesis Hcount53 : count < 2 ^ 53.
Hypothesis Hbytes53 : w * count < 2 ^ 53.
Hypothesis v_pos : 1 <= v.

Local Abbreviation total := (chunkTotal count v).
Local Abbreviation file := (chunkFile stB payload count v w).
Local Abbreviation vertices :=
  (fun i => firstVertex count v (S i) - firstVertex count v i).
Local Abbreviation bytes :=
  (fun i => take (firstByte count v w (S i) - firstByte count v w i)
              (drop (firstByte count v w i) payload)).

Lemma vertices_bounds i : (i < total)%nat -> 1 <= vertices i <= v.
Proof.
  intros Hi. cbv beta. pose proof (chunkTotal_spec count v count_pos v_pos).
  rewrite (firstVertex_inner count v count_pos v_pos i Hi).
  unfold firstVertex. nia.
Qed.

Lemma vertices_inner i : (S i < total)%nat -> vertices i = v.
Proof.
  intros Hi. cbv beta.
  rewrite (firstVertex_inner count v count_pos v_pos (S i) Hi).
  rewrite (firstVertex_inner count v count_pos v_pos i) by lia. lia.
Qed.

Lemma bytes_length i : Z.of_nat (length (bytes i)) = w * vertices i.
Proof.
  cbv beta.
  pose proof (firstByte_mono payload count v w count_pos v_pos Hlen i) as Hm.
  pose proof (firstByte_le payload count v w count_pos v_pos Hlen (S i)) as Hl.
  rewrite length_take, length_drop.
  pose proof (firstVertex_bounds count v count_pos v_pos i).
  pose proof (firstVertex_bounds count v count_pos v_pos (S i)).
  pose proof (firstVertex_mono count v v_pos i).
  pose proof (w_nonneg payload count w count_pos Hlen) as Hw.
  unfold firstByte in *. nia.
Qed.

Lemma file_count i : declaredCount (file i) = Some (vertices i).
Proof.
  exact (declaredCount_file hl payload count w Hplain HcountA count_pos
           v v_pos i).
Qed.

Lemma file_payload i : chunkPayload (file i) = bytes i.
Proof.
  exact (chunkPayload_file hl payload count w Hplain HcountA count_pos v i).
Qed.

Lemma stB_stA : stB = stA.
Proof. unfold stB, stA. by rewrite readPlyHeader_again. Qed.

(** The chunk directory after the split, as a list of files. *)
Lemma split_chunk_list :
  verticesPerChunk stA target = Num v ->
  exists chunks,
    runSplit constructor (mkFiles data ∅ grouped info others meta) target
    = (stB, mkFiles data chunks grouped (Some stB) others meta,
       Returned (mkSplitResult (Num (Z.of_nat total)) count (Num count) []))
    /\ size chunks = total
    /\ forall i, chunks !! i = map file (seq 0 total) !! i.
Proof.
  intros Hv.
  destruct (split_emitted hl payload count w target grouped info others meta
              Hplain HcountA count_pos Hlen Hcount53 Hbytes53 v v_pos Hv)
    as (chunks & Hs & Hsize & Hl).
  exists chunks. rewrite runSplit_split. cbn [inputFile]. fold data stA.
  split; [exact Hs|]. split; [done|]. intros i. rewrite Hl.
  destruct (i <? total)%nat eqn:E.
  - apply Nat.ltb_lt in E. symmetry. apply list_lookup_fmap_Some.
    exists i. split; [done|]. apply lookup_seq. lia.
  - apply Nat.ltb_ge in E. symmetry. apply lookup_ge_None_2.
    rewrite length_map, length_seq. lia.
Qed.

Lemma chunk_list_records :
  Forall (fun f => exists c, declaredCount f = Some c /\ 1 <= c <= v
                    /\ Z.of_nat (length (chunkPayload f)) = w * c)
    (map file (seq 0 total))
  /\ concat (map chunkPayload (map file (seq 0 total))) = payload
  /\ forall i f, map file (seq 0 total) !! i = Some f ->
       (S i < total)%nat -> declaredCount f = Some v.
Proof.
  split; [|split].
  - apply Forall_map, Forall_forall. intros i Hi%elem_of_seq.
    exists (vertices i). cbn beta. rewrite file_count, file_payload.
    split; [done|]. split; [apply vertices_bounds; lia|apply bytes_length].
  - rewrite map_map.
    rewrite (map_ext _ bytes) by apply file_payload.
    by apply (chunk_payloads payload count v w).
  - intros i f Hf Hi. apply list_lookup_fmap_Some in Hf as (j & -> & Hj).
    apply lookup_seq in Hj as [-> _]. cbn [Nat.add].
    by rewrite file_count, vertices_inner.
Qed.

(** The merge of chunk indices below the total. *)
Lemma mergedFile_emitted chunks ids :
  (forall i, chunks !! i = map file (seq 0 total) !! i) ->
  Forall (fun i => (i < total)%nat) ids ->
  mergedFile stB chunks ids
  = Some (createChunkHeader stB (Num (foldr Z.add 0 (map vertices ids)))
          ++ concat (map bytes ids)).
Proof.
  intros Hl Hids. unfold mergedFile.
  rewrite (mergeLoop_spec chunks ids (map file ids)).
  - rewrite !map_map.
    rewrite (map_ext _ vertices) by (intros i; by rewrite file_count).
    rewrite (map_ext _ bytes) by apply file_payload.
    by rewrite Z.add_0_l.
  - apply Forall2_fmap_r, Forall_Forall2_diag.
    eapply Forall_impl; [exact Hids|]. intros i Hi. cbn in Hi |- *. rewrite Hl.
    apply list_lookup_fmap_Some. exists i. split; [done|].
    apply lookup_seq. lia.
Qed.

Lemma group_sums ids :
  Forall (fun i => (i < total)%nat) ids ->
  0 <= foldr Z.add 0 (map vertices ids)
  /\ Z.of_nat (length (concat (map bytes ids)))
     = w * foldr Z.add 0 (map vertices ids).
Proof.
  induction 1 as [|i ids Hi _ IH]; [cbn; lia|].
  cbn [map foldr concat]. rewrite length_app, Nat2Z.inj_add, bytes_length.
  pose proof (vertices_bounds i Hi). lia.
Qed.

Lemma group_record ids :
  ids <> [] -> Forall (fun i => (i < total)%nat) ids ->
  let f := createChunkHeader stB (Num (foldr Z.add 0 (map vertices ids)))
           ++ concat (map bytes ids) in
  declaredCount f = Some (foldr Z.add 0 (map vertices ids))
  /\ 1 <= foldr Z.add 0 (map vertices ids)
  /\ chunkPayload f = concat (map bytes ids)
  /\ Z.of_nat (length (concat (map bytes ids)))
     = w * foldr Z.add 0 (map vertices ids).
Proof.
  intros Hne Hids. cbv zeta.
  destruct (stB_fields hl payload count Hplain HcountA count_pos)
    as (Hh & _ & _). fold data stA stB in Hh.
  pose proof (group_sums ids Hids) as Hsum.
  assert (Hpos : 1 <= foldr Z.add 0 (map vertices ids)).
  { destruct Hids as [|i ids Hi Hids]; [done|]. cbn [map foldr].
    pose proof (vertices_bounds i Hi).
    pose proof (group_sums ids Hids). lia. }
  split; [|split; [done|split; [|apply Hsum]]].
  - rewrite (createChunkHeader_headerOf stB _ hl) by done.
    apply declaredCount_chunk;
      [done|by apply (count_line hl payload count)|apply Hsum].
  - by apply (chunkPayload_chunk stB _ hl).
Qed.

End Records.

(** ** Chunks and groups of whole records *)

Lemma concat_concat_map {A B} (f : A -> list B) (ls : list (list A)) :
  concat (map (fun l => concat (map f l)) ls) = concat (map f (concat ls)).
Proof.
  induction ls as [|l ls IH]; [done|].
  cbn [map concat]. by rewrite map_app, concat_app, IH.
Qed.

Lemma sum_concat_map {A} (f : A -> Z) (ls : list (list A)) :
  foldr Z.add 0 (map (fun l => foldr Z.add 0 (map f l)) ls)
  = foldr Z.add 0 (map f (concat ls)).
Proof.
  induction ls as [|l ls IH]; [done|].
  cbn [map concat foldr]. rewrite IH, map_app. clear IH.
  induction l as [|x l IHl]; [done|]. cbn [map app foldr]. lia.
Qed.

(** What the hypotheses of the round trip give: a count and a width that
    are positive, sizes below 2^53, and an integer chunk size. *)
Lemma records_setting (hl : list text) (payload : text)
    (count width target : Z) :
  let st := (readPlyHeader constructor (headerOf hl ++ payload)).1 in
  Forall plainLine hl ->
  bytesPerVertex st = Num width ->
  payload <> [] ->
  Z.of_nat (length payload) = width * count ->
  Z.of_nat (length payload) < 2 ^ 53 ->
  - 2 ^ 53 < target - Z.of_nat (length (headerOf hl)) < 2 ^ 53 ->
  1 <= count < 2 ^ 53 /\ 1 <= width /\ width * count < 2 ^ 53
  /\ exists v, 1 <= v /\ verticesPerChunk st target = Num v.
Proof.
  cbv zeta. intros Hplain Hwidth Hne Hlen Hl53 Ht.
  pose proof (bytesPerVertex_nonneg _ _ Hwidth) as Hw0.
  assert (Hlen0 : 0 < Z.of_nat (length payload))
    by (destruct payload; [done|simpl; lia]).
  assert (Hw1 : 1 <= width)
    by (clear -Hw0 Hlen0 Hlen; destruct (Z.eq_dec width 0) as [->|]; lia).
  assert (Hc1 : 1 <= count) by (clear -Hw1 Hlen0 Hlen; nia).
  assert (Hc53 : count < 2 ^ 53) by (clear -Hw1 Hc1 Hlen Hl53; nia).
  assert (Hw : width < 2 ^ 53) by (clear -Hw1 Hc1 Hlen Hl53; nia).
  split; [done|]. split; [done|]. split; [lia|].
  set (st := (readPlyHeader constructor (headerOf hl ++ payload)).1) in *.
  assert (Hh : headerSize st = Z.of_nat (length (headerOf hl))).
  { unfold headerSize, st. by rewrite (stA_header hl payload Hplain). }
  destruct (verticesPerChunk_sized st target width Hwidth ltac:(lia))
    as [Hle Hgt]; [unfold availableSize; rewrite Hh; lia|].
  destruct (Z.le_gt_cases (availableSize st target) 0) as [H|H].
  - exists 1. split; [lia|by apply Hle].
  - by apply Hgt.
Qed.

(** X13: the split of a well-formed file cuts the payload between vertex
    records.  The header lines are ASCII, so that the index of the
    terminator in the decoded text is its byte offset, and the payload has
    fewer than 2^53 bytes.  The chunk directory then holds exactly the
    chunks 0 .. n-1, n = ceil(count / verticesPerChunk); every chunk
    declares a count between 1 and the chunk size, all but the last declare
    exactly the chunk size, the payload of each has the record width times
    its count bytes, and the payloads in order make up the payload of the
    file. *)
Theorem split_chunks_whole_records (hl : list text) (payload : text)
    (count width target : Z) (grouped : gmap nat text)
    (info : option SplatProcesser) (others : list text)
    (meta : option Metadata.t) :
  let data := headerOf hl ++ payload in
  let split_run :=
    runSplit constructor (mkFiles data ∅ grouped info others meta) target in
  Forall plainLine hl ->
  Forall asciiText hl ->
  vertexCount (readPlyHeader constructor data).1 = Num count ->
  bytesPerVertex (readPlyHeader constructor data).1 = Num width ->
  payload <> [] ->
  Z.of_nat (length payload) = width * count ->
  Z.of_nat (length payload) < 2 ^ 53 ->
  - 2 ^ 53 < target - Z.of_nat (length (headerOf hl)) < 2 ^ 53 ->
  exists (v : Z) (chunkFiles : list text),
    verticesPerChunk split_run.1.1 target = Num v /\ 1 <= v
    /\ (forall i, plyChunks split_run.1.2 !! i = chunkFiles !! i)
    /\ Z.of_nat (length chunkFiles) = - (- count / v)
    /\ Forall (fun f => exists c, declaredCount f = Some c /\ 1 <= c <= v
                         /\ Z.of_nat (length (chunkPayload f)) = width * c)
         chunkFiles
    /\ (forall i f, chunkFiles !! i = Some f ->
          (S i < length chunkFiles)%nat -> declaredCount f = Some v)
    /\ concat (map chunkPayload chunkFiles) = payload.
Proof.
  cbv zeta. intros Hplain _ Hcount Hwidth Hne Hlen Hl53 Ht.
  destruct (records_setting hl payload count width target Hplain Hwidth Hne
              Hlen Hl53 Ht) as ([Hc1 Hc53] & Hw1 & Hb53 & v & Hv & Hvpc).
  destruct (split_chunk_list hl payload count width v target grouped info
              others meta Hplain Hcount Hc1 Hlen Hc53 Hb53 Hv Hvpc)
    as (chunks & -> & Hsize & Hl).
  cbn [fst snd plyChunks].
  destruct (chunk_list_records hl payload count width v Hplain Hcount Hc1
              Hlen Hc53 Hb53 Hv) as (Hall & Hcat & Hinner).
  exists v. eexists. rewrite stB_stA.
  split; [exact Hvpc|]. split; [done|]. split; [exact Hl|].
  split; [|split; [exact Hall|split; [|exact Hcat]]].
  - rewrite length_map, length_seq. unfold chunkTotal.
    pose proof (chunkTotal_spec count v Hc1 Hv) as [_ H].
    unfold chunkTotal in H. lia.
  - intros i f Hf Hi. rewrite length_map, length_seq in Hi.
    by apply (Hinner i f).
Qed.

Lemma split_chunks_whole_records_witness :
  let split_run :=
    runSplit constructor
      (mkFiles (headerOf smallCloud ++ smallPayload) ∅ ∅ None [] None) 566 in
  exists chunkFiles : list text,
    (forall i, plyChunks split_run.1.2 !! i = chunkFiles !! i)
    /\ concat (map chunkPayload chunkFiles) = smallPayload.
Proof.
  intros split_run.
  destruct (split_chunks_whole_records smallCloud smallPayload 3 9 566 ∅ None
              [] None)
    as (v & chunkFiles & _ & _ & Hl & _ & _ & _ & Hcat).
  - apply smallCloud_plain.
  - apply smallCloud_ascii.
  - vm_compute. reflexivity.
  - vm_compute. reflexivity.
  - discriminate.
  - vm_compute. reflexivity.
  - vm_compute. reflexivity.
  - vm_compute. done.
  - exists chunkFiles. split; [exact Hl|exact Hcat].
Defined.

Lemma groupsFrom_members (egs len : nat) (ids : list nat) :
  (1 <= egs)%nat -> ids ∈ groupsFrom len 0 egs len ->
  ids <> [] /\ Forall (fun i => (i < len)%nat) ids.
Proof.
  intros He [k Hk]%list_elem_of_lookup.
  apply (groupsFrom_lookup egs len He len 0 k ids) in Hk as [-> Hlt]; [|lia].
  split.
  - destruct (egs `min` (len - (0 + k * egs)))%nat eqn:E; [lia|done].
  - apply Forall_forall. intros i Hi%elem_of_seq. lia.
Qed.

(** X14: split, then group by any valid group size.  For a well-formed
    file with ASCII header lines and fewer than 2^53 payload bytes, and a
    chunk directory without other ".ply" entries, the grouping writes the group files 0 .. m-1 and no other; every
    group file declares a count of at least 1 and carries the record width
    times that count payload bytes; the payloads of the group files in
    order make up the payload of the original file, and their counts add up
    to its vertex count.  The loader's verdict on a group does not change
    what is written. *)
Theorem split_group_roundtrip (loadPly : text -> bool) (hl : list text)
    (payload : text) (count width target groupSize : Z)
    (grouped : gmap nat text) (info : option SplatProcesser)
    (others : list text) (meta : option Metadata.t) :
  let data := headerOf hl ++ payload in
  let split_run :=
    runSplit constructor (mkFiles data ∅ grouped info others meta) target in
  let merge_run :=
    runMerge loadPly split_run.1.1 split_run.1.2 groupSize in
  Forall plainLine hl ->
  Forall asciiText hl ->
  noOtherPly others ->
  vertexCount (readPlyHeader constructor data).1 = Num count ->
  bytesPerVertex (readPlyHeader constructor data).1 = Num width ->
  payload <> [] ->
  Z.of_nat (length payload) = width * count ->
  Z.of_nat (length payload) < 2 ^ 53 ->
  - 2 ^ 53 < target - Z.of_nat (length (headerOf hl)) < 2 ^ 53 ->
  groupSize = -1 \/ 1 <= groupSize ->
  exists groupFiles : list text,
    (forall k, plyGrouped merge_run.1.2 !! k
               = match groupFiles !! k with
                 | Some f => Some f
                 | None => grouped !! k
                 end)
    /\ Forall (fun f => exists c, declaredCount f = Some c /\ 1 <= c
                         /\ Z.of_nat (length (chunkPayload f)) = width * c)
         groupFiles
    /\ concat (map chunkPayload groupFiles) = payload
    /\ foldr Z.add 0 (map (fun f => default 0 (declaredCount f)) groupFiles)
       = count.
Proof.
  cbv zeta. intros Hplain _ Hothers Hcount Hwidth Hne Hlen Hl53 Ht Hg.
  destruct (records_setting hl payload count width target Hplain Hwidth Hne
              Hlen Hl53 Ht) as ([Hc1 Hc53] & Hw1 & Hb53 & v & Hv & Hvpc).
  destruct (split_chunk_list hl payload count width v target grouped info
              others meta Hplain Hcount Hc1 Hlen Hc53 Hb53 Hv Hvpc)
    as (chunks & -> & Hsize & Hl).
  cbn [fst snd]. unfold runMerge.
  set (data := headerOf hl ++ payload) in *.
  set (stB := (readPlyHeader (readPlyHeader constructor data).1 data).1) in *.
  set (fs := mkFiles data chunks grouped (Some stB) others meta).
  destruct (plyEntries_chunks fs Hothers) as (_ & Hentries & Hsort).
  set (total := chunkTotal count v) in *.
  pose proof (chunkTotal_spec count v Hc1 Hv) as [_ Htotal]. fold total in Htotal.
  set (egs := Z.to_nat (effectiveGroupSize groupSize total)).
  assert (Hegs : (1 <= egs)%nat).
  { unfold egs, effectiveGroupSize. destruct Hg as [->|Hg].
    - change (-1 =? -1) with true. cbv iota. lia.
    - rewrite (proj2 (Z.eqb_neq groupSize (-1))) by lia. lia. }
  assert (Hgs : groupIndices groupSize (length (plyEntries fs))
                = Some (groupsFrom total 0 egs total)).
  { rewrite Hentries. unfold fs. cbn [plyChunks]. rewrite Hsize.
    unfold groupIndices.
    fold egs. replace (effectiveGroupSize groupSize total <=? 0) with false.
    - by rewrite andb_false_r.
    - symmetry. apply Z.leb_gt. unfold egs in Hegs. lia. }
  assert (Hload : loadedProcesser stB fs = Some stB).
  { unfold loadedProcesser, fs. cbn [headerInfo]. by destruct (originalHeader _). }
  assert (Hfiles : forall k,
            plyGrouped (createGroups loadPly stB fs groupSize).1.2 !! k
            = match groupsFrom total 0 egs total !! k
                    ≫= mergedFile stB (plyChunks fs) with
              | Some file => Some file
              | None => plyGrouped fs !! k
              end).
  { rewrite (createGroups_loaded loadPly stB stB fs groupSize _ Hload Hsort
               Hgs).
    cbn [fst snd plyGrouped]. apply groupLoop_spec. }
  set (gs := groupsFrom total 0 egs total) in *.
  set (vertices := fun i => firstVertex count v (S i) - firstVertex count v i).
  set (bytes := fun i => take (firstByte count v width (S i)
                               - firstByte count v width i)
                           (drop (firstByte count v width i) payload)).
  set (merged := fun ids =>
         createChunkHeader stB (Num (foldr Z.add 0 (map vertices ids)))
         ++ concat (map bytes ids)).
  assert (Hmembers : forall ids, ids ∈ gs ->
            ids <> [] /\ Forall (fun i => (i < total)%nat) ids)
    by (intros ids; by apply groupsFrom_members).
  assert (Hmerged : forall ids, ids ∈ gs ->
            mergedFile stB chunks ids = Some (merged ids)).
  { intros ids [_ Hids]%Hmembers.
    by apply (mergedFile_emitted hl payload count width v). }
  assert (Hrecord : forall ids, ids ∈ gs ->
            declaredCount (merged ids) = Some (foldr Z.add 0 (map vertices ids))
            /\ 1 <= foldr Z.add 0 (map vertices ids)
            /\ chunkPayload (merged ids) = concat (map bytes ids)
            /\ Z.of_nat (length (concat (map bytes ids)))
               = width * foldr Z.add 0 (map vertices ids)).
  { intros ids [Hnil Hids]%Hmembers.
    by apply (group_record hl payload count width v). }
  exists (map merged gs). split; [|split; [|split]].
  - intros k. rewrite Hfiles. unfold fs. cbn [plyChunks plyGrouped].
    rewrite list_lookup_fmap. destruct (gs !! k) as [ids|] eqn:Ek; [|done].
    cbn. rewrite Hmerged; [done|]. by apply list_elem_of_lookup_2 in Ek.
  - apply Forall_map, Forall_forall. intros ids Hin.
    destruct (Hrecord ids Hin) as (Hd & Hpos & Hp & Hlength).
    exists (foldr Z.add 0 (map vertices ids)). cbn beta.
    rewrite Hp. done.
  - rewrite map_map.
    rewrite (map_ext_in _ (fun ids => concat (map bytes ids)))
      by (intros ids Hin%list_elem_of_In; by apply Hrecord).
    rewrite concat_concat_map. unfold gs.
    rewrite groupsFrom_concat by (done || lia). rewrite Nat.sub_0_r.
    by apply (chunk_payloads payload count v width).
  - rewrite map_map.
    rewrite (map_ext_in _ (fun ids => foldr Z.add 0 (map vertices ids))).
    + rewrite sum_concat_map. unfold gs.
      rewrite groupsFrom_concat by (done || lia). rewrite Nat.sub_0_r.
      unfold vertices. rewrite sum_telescope. cbn [Nat.add]. fold total.
      unfold total. rewrite (firstVertex_last count v) by done.
      unfold firstVertex. lia.
    + intros ids Hin%list_elem_of_In.
      destruct (Hrecord ids Hin) as (-> & _). done.
Qed.

Lemma split_group_roundtrip_witness :
  let split_run :=
    runSplit constructor
      (mkFiles (headerOf smallCloud ++ smallPayload) ∅ ∅ None
         [Str.lit "notes.txt"] None) 200 in
  let merge_run :=
    runMerge (fun _ => false) split_run.1.1 split_run.1.2 2 in
  exists groupFiles : list text,
    (forall k, plyGrouped merge_run.1.2 !! k
               = match groupFiles !! k with
                 | Some f => Some f
                 | None => (∅ : gmap nat text) !! k
                 end)
    /\ concat (map chunkPayload groupFiles) = smallPayload.
Proof.
  intros split_run merge_run.
  destruct (split_group_roundtrip (fun _ => false) smallCloud smallPayload
              3 9 200 2 ∅ None [Str.lit "notes.txt"] None)
    as (groupFiles & Hl & _ & Hcat & _).
  - apply smallCloud_plain.
  - apply smallCloud_ascii.
  - repeat constructor.
  - vm_compute. reflexivity.
  - vm_compute. reflexivity.
  - discriminate.
  - vm_compute. reflexivity.
  - vm_compute. reflexivity.
  - vm_compute. done.
  - right. lia.
  - exists groupFiles. split; [exact Hl|exact Hcat].
Defined.

(** ** Missing chunks, written chunks, inherited types *)

(** X15: when a chunk file is missing, [mergeChunks] throws the error of
    the first missing index of its list (the read of that file fails) and
    writes nothing: the group file of that id is left as it was. *)
Theorem mergeChunks_missing_chunk (st : SplatProcesser) (fs : files)
    (pre post : list nat) (i groupId : nat) :
  Forall (fun j => is_Some (plyChunks fs !! j)) pre ->
  plyChunks fs !! i = None ->
  mergeChunks st fs (pre ++ i :: post) groupId = (fs, Thrown (ENOENT i)).
Proof.
  intros Hpre Hi. unfold mergeChunks.
  enough (H : forall total merged,
            mergeLoop (plyChunks fs) (pre ++ i :: post) total merged
            = inl (ENOENT i)) by (by rewrite H).
  induction Hpre as [|j pre [d Hj] _ IH]; intros total merged.
  - cbn [app mergeLoop]. by rewrite Hi.
  - cbn [app mergeLoop]. rewrite Hj. apply IH.
Qed.

Lemma mergeChunks_missing_chunk_witness :
  let fs := mkFiles []
              {[0%nat := chunkWithCount; 2%nat := chunkWithoutCount]}
              ∅ None [] None in
  mergeChunks constructor fs [0; 1; 2]%nat 0 = (fs, Thrown (ENOENT 1)).
Proof.
  intros fs. apply (mergeChunks_missing_chunk constructor fs [0%nat] [2%nat]).
  - repeat constructor. by eexists.
  - reflexivity.
Defined.

(** X16: [writeChunkPly] and the readers of a chunk agree.  For a header of
    plain ASCII lines with a vertex-count line and a count from 0 to below
    2^53 (a count that is written out in full), the file that
    [writeChunkPly] writes gives back the chunk data through [readChunkPly]
    and the count through the pattern of the verification pass, whatever
    the data bytes are; no other file of the directory changes. *)
Theorem writeChunkPly_read_back (st : SplatProcesser) (hl : list text)
    (chunks : gmap nat text) (i : nat) (chunkData : text) (numVertices : Z) :
  originalHeader st = headerOf hl ->
  Forall plainLine hl ->
  Forall asciiText hl ->
  Exists (fun l => Str.includes (Str.lit "element vertex") l = true) hl ->
  0 <= numVertices < 2 ^ 53 ->
  exists file,
    writeChunkPly st chunks i chunkData (Num numVertices) !! i = Some file
    /\ vertexData (readChunkPly file) = chunkData
    /\ declaredCount file = Some numVertices
    /\ forall j, j <> i ->
         writeChunkPly st chunks i chunkData (Num numVertices) !! j
         = chunks !! j.
Proof.
  intros Hh Hplain _ Hex [Hn _]. unfold writeChunkPly. eexists.
  split; [apply lookup_insert_eq|]. split; [|split].
  - by apply (chunkPayload_chunk st _ hl).
  - rewrite (createChunkHeader_headerOf st _ hl) by done.
    by apply declaredCount_chunk.
  - intros j Hj. by rewrite lookup_insert_ne.
Qed.

Lemma writeChunkPly_read_back_witness :
  let st := (readPlyHeader constructor (headerOf smallCloud)).1 in
  exists file,
    writeChunkPly st ∅ 4 (Str.lit "element vertex 77") (Num 2) !! 4%nat
    = Some file
    /\ declaredCount file = Some 2.
Proof.
  intros st.
  destruct (writeChunkPly_read_back st smallCloud ∅ 4
              (Str.lit "element vertex 77") 2)
    as (file & Hf & _ & Hd & _).
  - vm_compute. reflexivity.
  - apply smallCloud_plain.
  - apply smallCloud_ascii.
  - apply Exists_cons_tl, Exists_cons_tl, Exists_cons_hd. reflexivity.
  - lia.
  - exists file. split; [exact Hf|exact Hd].
Defined.

Section DegenerateSchema.

Implicit Types (st : SplatProcesser) (fs : files).

Lemma bytesPerVertex_NaN_fold types :
  fold_left
    (fun sum type =>
       match sum, getTypeSize type with
       | Num s, Width n => Num (s + n)
       | _, _ => NaN
       end) types NaN = NaN.
Proof. induction types as [|t types IH]; [done|]. apply IH. Qed.

Lemma bytesPerVertex_inherited st :
  Exists (fun type => getTypeSize type = Inherited)
    (map snd (propertyTypes st)) ->
  bytesPerVertex st = NaN.
Proof.
  unfold bytesPerVertex. generalize (map snd (propertyTypes st)) (Num 0).
  intros types acc Hex. revert acc.
  induction Hex as [t types Ht|t types _ IH]; intros acc; cbn [fold_left].
  - rewrite Ht. destruct acc; apply bytesPerVertex_NaN_fold.
  - apply IH.
Qed.

Lemma verticesPerChunk_NaN st target :
  bytesPerVertex st = NaN -> verticesPerChunk st target = NaN.
Proof.
  intros Hb. unfold verticesPerChunk, F64.floor. rewrite Hb.
  rewrite FloatAxioms.div_spec. unfold SF64div.
  rewrite FloatAxioms.mul_spec. unfold SF64mul.
  rewrite FloatAxioms.mul_spec. unfold SF64mul.
  cbn [F64.ofNumber]. change (Prim2SF PrimFloat.nan) with S754_nan.
  cbn [SFmul]. by destruct (Prim2SF (F64.ofZ _)).
Qed.

End DegenerateSchema.

(** X17: a property whose type is the name of a member that every object
    inherits ("constructor", "toString", ...) makes the byte width of a
    vertex a non-number.  The split then writes no chunk: it leaves the
    files as they are and throws the mismatch error (expected the count,
    got 0) for every count other than 0. *)
Theorem split_inherited_type (st : SplatProcesser) (fs : files)
    (target count : Z) :
  Exists (fun type => type ∈ objectPrototypeMembers)
    (map snd (propertyTypes st)) ->
  vertexCount (readPlyHeader st (inputFile fs)).1 = Num count ->
  count <> 0 ->
  bytesPerVertex st = NaN
  /\ verticesPerChunk st target = NaN
  /\ split st fs target
     = ((readPlyHeader st (inputFile fs)).1, fs,
        Thrown (VertexCountMismatch (Num count) 0)).
Proof.
  intros Hex Hc Hne.
  assert (Hb : bytesPerVertex st = NaN).
  { apply bytesPerVertex_inherited. eapply Exists_impl; [exact Hex|].
    intros type Hin. unfold getTypeSize.
    destruct (assoc type typeSizes) as [n|] eqn:E.
    - assert (Hdisj : Forall (fun k => assoc k typeSizes = None)
                        objectPrototypeMembers) by compute_decide.
      rewrite Forall_forall in Hdisj. rewrite (Hdisj _ Hin) in E. done.
    - by rewrite bool_decide_true. }
  split; [done|]. split; [by apply verticesPerChunk_NaN|].
  rewrite split_unfold. cbv zeta. rewrite (verticesPerChunk_NaN _ _ Hb), Hc.
  cbn [JS.ceilDiv iterations seq fold_left fst snd].
  rewrite (verifySplit_spec _ _ _ _ _ count) by done.
  cbn [plyChunks readableSum seq map foldr].
  rewrite (proj2 (Z.eqb_neq 0 count)) by lia. cbn [fst snd].
  by destruct fs.
Qed.

Lemma split_inherited_type_witness :
  let fs := mkFiles (headerOf inheritedType ++ smallPayload) ∅ ∅ None []
              None in
  let st := (readPlyHeader constructor (inputFile fs)).1 in
  (split st fs 566).2 = Thrown (VertexCountMismatch (Num 3) 0).
Proof.
  intros fs st.
  destruct (split_inherited_type st fs 566 3) as (_ & _ & ->).
  - apply Exists_cons_hd. compute_decide.
  - vm_compute. reflexivity.
  - lia.
  - reflexivity.
Defined.

(** ** Running the split again; widths; one group *)

Section Rerun.

Implicit Types (st : SplatProcesser) (fs : files) (chunks : gmap nat text).

Lemma emitLoop_processed_any st vertexData vpc chunks chunks' processed n :
  (fold_left (emitChunk st vertexData vpc) (seq 0 n) (chunks, processed)).2
  = (fold_left (emitChunk st vertexData vpc) (seq 0 n) (chunks', processed)).2.
Proof.
  induction n as [|n IH]; [done|].
  rewrite !seq_S, !fold_left_app. cbn [fold_left Nat.add].
  destruct (fold_left _ (seq 0 n) (chunks, _)) as [c1 p1].
  destruct (fold_left _ (seq 0 n) (chunks', _)) as [c2 p2].
  cbn [snd] in IH. subst p2. by rewrite !emitChunk_writes.
Qed.

Lemma emitLoop_again st vertexData vpc chunks processed processed' n :
  (fold_left (emitChunk st vertexData vpc) (seq 0 n)
     ((fold_left (emitChunk st vertexData vpc) (seq 0 n)
         (chunks, processed)).1, processed')).1
  = (fold_left (emitChunk st vertexData vpc) (seq 0 n) (chunks, processed)).1.
Proof.
  apply map_eq. intros i. rewrite !emitLoop_files.
  by destruct (i <? n)%nat.
Qed.

End Rerun.

(** X18: running the split again changes nothing.  A second run over the
    files that a first run left (by a processer in the same state, such as
    the new processer of another process) ends as the first did and leaves
    the same files: the same chunks are written over themselves. *)
Theorem runSplit_rerun (st : SplatProcesser) (fs : files) (target : Z) :
  let first := runSplit st fs target in
  first.2 <> Diverged ->
  runSplit st first.1.2 target = first.
Proof.
  cbv zeta. rewrite !runSplit_split.
  set (stA := (readPlyHeader st (inputFile fs)).1).
  rewrite split_unfold. cbv zeta.
  set (read := readPlyHeader stA (inputFile fs)).
  set (vpc := verticesPerChunk stA target).
  destruct (iterations (JS.ceilDiv (vertexCount read.1) vpc)) as [n|] eqn:En;
    [|done].
  intros _. cbn [fst snd].
  set (emitted := fold_left _ _ _).
  set (fs1 := (verifySplit read.1
                 (mkFiles (inputFile fs) emitted.1 (plyGrouped fs)
                    (headerInfo fs) (otherChunkEntries fs)
                    (chunksMetadata fs))
                 n (JS.ceilDiv (vertexCount read.1) vpc) emitted.2)).
  assert (Hfs1 : inputFile fs1.1 = inputFile fs
                 /\ plyChunks fs1.1 = emitted.1
                 /\ plyGrouped fs1.1 = plyGrouped fs
                 /\ otherChunkEntries fs1.1 = otherChunkEntries fs
                 /\ chunksMetadata fs1.1 = chunksMetadata fs).
  { destruct (verifySplit_frame read.1
                (mkFiles (inputFile fs) emitted.1 (plyGrouped fs)
                   (headerInfo fs) (otherChunkEntries fs)
                   (chunksMetadata fs))
                n (JS.ceilDiv (vertexCount read.1) vpc) emitted.2)
      as (Hi & Hc & Hg & _ & Ho & Hm). done. }
  destruct Hfs1 as (Hi & Hc & Hg & Ho & Hm).
  rewrite Hi. fold stA. rewrite split_unfold. cbv zeta.
  rewrite Hi. fold read vpc. rewrite En, Hc, Hg, Ho, Hm. cbn [fst snd].
  assert (He1 : (fold_left (emitChunk read.1 (vertexData read.2) vpc)
                   (seq 0 n) (emitted.1, Num 0)).1 = emitted.1)
    by apply emitLoop_again.
  assert (He2 : (fold_left (emitChunk read.1 (vertexData read.2) vpc)
                   (seq 0 n) (emitted.1, Num 0)).2 = emitted.2)
    by apply emitLoop_processed_any.
  rewrite He1, He2.
  unfold fs1. unfold verifySplit.
  cbn [plyChunks inputFile plyGrouped headerInfo otherChunkEntries
       chunksMetadata].
  destruct (fold_left (verifyStep emitted.1) (seq 0 n) (0, [])) as [verified failed].
  destruct (JS.lt _ _); cbn [fst snd headerInfo]; done.
Qed.

Lemma runSplit_rerun_witness :
  let fs := mkFiles (headerOf smallCloud ++ smallPayload) ∅ ∅ None [] None in
  runSplit constructor (runSplit constructor fs 200).1.2 200
  = runSplit constructor fs 200.
Proof.
  intros fs. apply (runSplit_rerun constructor fs 200).
  vm_compute. discriminate.
Defined.

(** X19: every type has a width of 1 to 8 bytes unless its name is that of
    an inherited member; so a schema without such a name has a byte width
    between the number of its properties and eight times that number, and
    the width is 0 only for a schema without properties. *)
Theorem bytesPerVertex_bounds (st : SplatProcesser) :
  Forall (fun type => type ∉ objectPrototypeMembers)
    (map snd (propertyTypes st)) ->
  exists b,
    bytesPerVertex st = Num b
    /\ Z.of_nat (length (propertyTypes st)) <= b
       <= 8 * Z.of_nat (length (propertyTypes st)).
Proof.
  unfold bytesPerVertex. rewrite <- (length_map snd (propertyTypes st)).
  generalize (map snd (propertyTypes st)). intros types Hall.
  enough (H : forall acc, exists b,
            fold_left
              (fun sum type =>
                 match sum, getTypeSize type with
                 | Num s, Width n => Num (s + n)
                 | _, _ => NaN
                 end) types (Num acc) = Num b
            /\ acc + Z.of_nat (length types) <= b
               <= acc + 8 * Z.of_nat (length types)).
  { destruct (H 0) as (b & Hb & Hr). exists b. split; [done|lia]. }
  induction Hall as [|t types Ht _ IH]; intros acc.
  - exists acc. cbn. split; [done|lia].
  - cbn [fold_left length].
    assert (Hw : exists n, getTypeSize t = Width n /\ 1 <= n <= 8).
    { unfold getTypeSize. destruct (assoc t typeSizes) as [n|] eqn:E.
      - exists n. split; [done|]. apply assoc_In in E.
        assert (Hall : Forall (fun kv : text * Z => 1 <= kv.2 <= 8) typeSizes)
          by (repeat constructor; cbn; lia).
        rewrite Forall_forall in Hall. apply list_elem_of_In in E.
        by apply Hall in E.
      - rewrite bool_decide_false by done. exists 4. split; [done|lia]. }
    destruct Hw as (n & -> & Hn).
    destruct (IH (acc + n)) as (b & Hb & Hr). exists b. split; [done|lia].
Qed.

Lemma bytesPerVertex_bounds_witness :
  exists b, bytesPerVertex scenario = Num b /\ 8 <= b <= 64.
Proof.
  destruct (bytesPerVertex_bounds scenario) as (b & Hb & Hr).
  - compute_decide.
  - exists b. split; [exact Hb|]. cbn in Hr. lia.
Defined.

(** X20: a group size that is at least the number of ".ply" entries of the
    chunk directory acts as the group size -1, but for two fields of the
    manifest.  Either way the grouping makes the single group of all the
    chunks and ends in the same way, with the same report, the same
    processer and the same input, chunk and group files and header
    information.  When the runs return, the manifests record the same
    counts, failures and groups; [groupSize] and [nodesPerGroup] are the
    given size in the one, and -1 and the number of entries in the other.
    When they throw, neither run writes a manifest. *)
Theorem createGroups_single_group (loadPly : text -> bool)
    (st : SplatProcesser) (fs : files) (groupSize : Z) :
  let len := length (plyEntries fs) in
  let sized := createGroups loadPly st fs groupSize in
  let whole := createGroups loadPly st fs (-1) in
  (1 <= len)%nat ->
  Z.of_nat len <= groupSize ->
  groupIndices groupSize len = Some [seq 0 len]
  /\ sized.1.1 = whole.1.1
  /\ sized.2 = whole.2
  /\ inputFile sized.1.2 = inputFile whole.1.2
  /\ plyChunks sized.1.2 = plyChunks whole.1.2
  /\ plyGrouped sized.1.2 = plyGrouped whole.1.2
  /\ headerInfo sized.1.2 = headerInfo whole.1.2
  /\ otherChunkEntries sized.1.2 = otherChunkEntries whole.1.2
  /\ match whole.2 with
     | Returned r =>
         chunksMetadata whole.1.2
         = Some (Metadata.mk len (Num 1) (-1) (Z.of_nat len)
                   (statsSuccess r) (failedGroups r) (groups r))
         /\ chunksMetadata sized.1.2
            = Some (Metadata.mk len (Num 1) groupSize groupSize
                      (statsSuccess r) (failedGroups r) (groups r))
     | _ =>
         chunksMetadata whole.1.2 = chunksMetadata fs
         /\ chunksMetadata sized.1.2 = chunksMetadata fs
     end.
Proof.
  cbv zeta. intros Hlen Hg.
  destruct (length (plyEntries fs)) as [|n] eqn:En; [lia|].
  assert (Hgs : groupIndices groupSize (S n) = Some [seq 0 (S n)]).
  { unfold groupIndices, effectiveGroupSize.
    rewrite (proj2 (Z.eqb_neq groupSize (-1))) by lia.
    rewrite (proj2 (Z.leb_gt groupSize 0)) by lia. rewrite andb_false_r.
    cbn [groupsFrom]. rewrite (proj2 (Nat.ltb_lt 0 (S n))) by lia.
    rewrite groupsFrom_done by lia. do 3 f_equal. lia. }
  assert (Hc : forall z, Z.of_nat (S n) <= z ->
            JS.ceilDiv (Num (Z.of_nat (S n))) (Num z) = Num 1).
  { intros z Hz. unfold JS.ceilDiv. rewrite (proj2 (Z.eqb_neq z 0)) by lia.
    f_equal. assert (- Z.of_nat (S n) / z = -1); [|lia].
    symmetry. apply (Z.div_unique_pos _ _ _ (z - Z.of_nat (S n))); lia. }
  assert (He : effectiveGroupSize groupSize (S n) = groupSize).
  { unfold effectiveGroupSize.
    by rewrite (proj2 (Z.eqb_neq groupSize (-1))) by lia. }
  assert (Ha : effectiveGroupSize (-1) (S n) = Z.of_nat (S n)) by done.
  split; [done|].
  destruct (loadedProcesser st fs) as [st'|] eqn:El.
  - destruct (sortThrows (plyEntries fs)) eqn:Es.
    + rewrite !(createGroups_unsorted loadPly st st' fs _ El Es). done.
    + rewrite (createGroups_loaded loadPly st st' fs groupSize
                 [seq 0 (S n)] El Es ltac:(by rewrite En)).
      rewrite (createGroups_loaded loadPly st st' fs (-1)
                 [seq 0 (S n)] El Es
                 ltac:(rewrite En; apply groupIndices_all)).
      rewrite En, He, Ha, !Hc by lia. done.
  - unfold createGroups. fold (loadedProcesser st fs). rewrite El. done.
Qed.

Lemma createGroups_single_group_witness :
  let st := mkProcesser (Num 3) [] 0
              (Str.lit "element vertex 3" ++ Str.nl :: end_header) in
  let fs := mkFiles []
              {[0%nat := chunkWithCount; 1%nat := chunkWithoutCount]}
              ∅ None [] None in
  let sized := createGroups (fun _ => true) st fs 500 in
  let whole := createGroups (fun _ => true) st fs (-1) in
  sized.2 = whole.2
  /\ plyGrouped sized.1.2 = plyGrouped whole.1.2
  /\ Metadata.groupSize <$> chunksMetadata sized.1.2 = Some 500
  /\ Metadata.groupSize <$> chunksMetadata whole.1.2 = Some (-1).
Proof.
  intros st fs sized whole.
  destruct (createGroups_single_group (fun _ => true) st fs 500)
    as (_ & _ & Hr & _ & _ & Hg & _ & _ & Hm).
  - vm_compute. lia.
  - vm_compute. discriminate.
  - split; [exact Hr|]. split; [exact Hg|].
    destruct (createGroups (fun _ => true) st fs (-1)).2 as [r| |] eqn:Er;
      [|vm_compute in Er; discriminate..].
    destruct Hm as [Hw Hs]. fold sized in Hs. fold whole in Hw.
    by rewrite Hs, Hw.
Defined.

(** ** The chunk size in closed form *)

Section ClosedForm.

Implicit Types (a b m N P K G T U W : Z).

(** A mantissa of 53 bits within half a unit of [N / P] is within a
    relative 2^-53 of it. *)
Lemma nearest_relative m P N :
  2 ^ 52 <= m -> 0 < P -> 2 * Z.abs (m * P - N) <= P ->
  (2 ^ 53 - 1) * (m * P) <= 2 ^ 53 * N
  /\ 2 ^ 53 * N <= (2 ^ 53 + 1) * (m * P).
Proof.
  intros Hm HP Hn.
  assert (2 ^ 52 * P <= m * P) by (apply Z.mul_le_mono_nonneg_r; lia).
  lia.
Qed.

(** The divisor [b * (1 - 0.9) * 1.25], with its two roundings, is below
    [b / 8] and within a relative 2^-51 of it. *)
Lemma divisor_bounds mb m1 m2 P1 P2 :
  0 < mb -> 2 ^ 52 <= m1 -> 2 ^ 52 <= m2 -> 0 < P1 -> 0 < P2 ->
  2 * Z.abs (m1 * P1 - mb * 7205759403792792) <= P1 ->
  2 * Z.abs (m2 * P2 - m1 * 5629499534213120) <= P2 ->
  m2 * P2 * P1 < 2 ^ 105 * mb
  /\ 2 ^ 159 * (2 ^ 52 - 1) * mb <= (2 ^ 53 + 1) * (2 ^ 53 + 1) * (m2 * P2 * P1).
Proof.
  intros Hmb Hm1 Hm2 HP1 HP2 H1 H2.
  destruct (nearest_relative _ _ _ Hm1 HP1 H1) as [Ha1 Ha2].
  destruct (nearest_relative _ _ _ Hm2 HP2 H2) as [Hb1 Hb2].
  assert (Hc1 : (2 ^ 53 - 1) * (m2 * P2) * P1
                <= 2 ^ 53 * (m1 * 5629499534213120) * P1)
    by (apply Z.mul_le_mono_nonneg_r; lia).
  assert (Hc2 : 2 ^ 53 * (m1 * 5629499534213120) * P1
                <= (2 ^ 53 + 1) * (m2 * P2) * P1)
    by (apply Z.mul_le_mono_nonneg_r; lia).
  lia.
Qed.

Lemma shiftl_quotient m t u :
  0 <= t -> 0 <= u -> Z.shiftl m (t - u) = m * 2 ^ t / 2 ^ u.
Proof.
  intros Ht Hu. destruct (Z.le_gt_cases u t).
  - rewrite Z.shiftl_mul_pow2 by lia.
    replace t with (t - u + u) at 2 by lia.
    rewrite Z.pow_add_r, Z.mul_assoc, Z.div_mul by lia. done.
  - replace (t - u) with (- (u - t)) by lia.
    rewrite Z.shiftl_opp_r, Z.shiftr_div_pow2 by lia.
    replace u with (u - t + t) at 2 by lia.
    rewrite Z.pow_add_r, Z.div_mul_cancel_r by lia. done.
Qed.

(** The rounded quotient lies between [8a / b] rounded down and the next
    integer. *)
Lemma quotient_bounds a b al be m1 m2 mq P1 P2 P3 G :
  1 <= a < 2 ^ 47 -> 1 <= b ->
  0 < al -> 0 < be ->
  2 ^ 52 <= m1 -> 2 ^ 52 <= m2 -> 2 ^ 52 <= mq ->
  0 < P1 -> 0 < P2 -> 0 < P3 -> 1 <= G ->
  2 * Z.abs (m1 * P1 - b * be * 7205759403792792) <= P1 ->
  2 * Z.abs (m2 * P2 - m1 * 5629499534213120) <= P2 ->
  2 * Z.abs (mq * (P3 * m2) - a * al * 2 ^ 53) <= P3 * m2 ->
  let T := be * 2 ^ 55 * P3 in
  let U := al * P1 * P2 in
  T = U * G \/ U = T * G ->
  8 * a / b * U <= mq * T /\ mq * T < (8 * a / b + 1) * U.
Proof.
  intros Ha Hb Hal Hbe Hm1 Hm2 Hmq HP1 HP2 HP3 HG H1 H2 H3 T U HTU.
  assert (Hmb : 0 < b * be) by (apply Z.mul_pos_pos; lia).
  destruct (divisor_bounds _ _ _ _ _ Hmb Hm1 Hm2 HP1 HP2 H1 H2) as [HWu HWl].
  set (W := m2 * P2 * P1) in *.
  assert (HW : 0 < W) by (unfold W; repeat apply Z.mul_pos_pos; lia).
  pose proof (Z.mul_div_le (8 * a) b ltac:(lia)) as HK1.
  pose proof (Z.mul_succ_div_gt (8 * a) b ltac:(lia)) as HK2.
  assert (HK0 : 0 <= 8 * a / b) by (apply Z.div_pos; lia).
  set (K := 8 * a / b) in *.
  assert (HT : 0 < T) by (unfold T; repeat apply Z.mul_pos_pos; lia).
  assert (HU : 0 < U) by (unfold U; repeat apply Z.mul_pos_pos; lia).
  assert (HX : 0 < P3 * m2) by (apply Z.mul_pos_pos; lia).
  assert (HKa : K <= 8 * a).
  { assert (K * 1 <= K * b) by (apply Z.mul_le_mono_nonneg_l; lia). lia. }
  split.
  - destruct (Z.le_gt_cases (K * U) (mq * T)) as [|Hlt]; [done|exfalso].
    destruct HTU as [HTU|HTU].
    + assert (mq * U <= mq * T)
        by (rewrite HTU; apply Z.mul_le_mono_nonneg_l; [lia|];
            rewrite <- (Z.mul_1_r U) at 1;
            apply Z.mul_le_mono_nonneg_l; lia).
      assert (2 ^ 52 * U <= mq * U) by (apply Z.mul_le_mono_nonneg_r; lia).
      assert (K * U <= 2 ^ 50 * U) by (apply Z.mul_le_mono_nonneg_r; lia).
      lia.
    + assert (Hs1 : mq + 1 <= K * G).
      { rewrite HTU in Hlt.
        assert (mq * T < K * G * T) by lia.
        apply Z.mul_lt_mono_pos_r in H; lia. }
      assert (Hs2 : (mq + 1) * (P3 * m2) <= K * G * (P3 * m2))
        by (apply Z.mul_le_mono_nonneg_r; lia).
      assert (Hs3 : a * al * 2 ^ 53 < K * G * (P3 * m2)) by lia.
      assert (Hs4 : a * al * 2 ^ 53 * (be * 2 ^ 55)
                    < K * G * (P3 * m2) * (be * 2 ^ 55))
        by (apply Z.mul_lt_mono_pos_r; lia).
      assert (Hs5 : K * G * (P3 * m2) * (be * 2 ^ 55) = K * al * W).
      { transitivity (K * m2 * (T * G)); [unfold T; ring|].
        rewrite <- HTU. unfold U, W. ring. }
      assert (Hs6 : K * W <= K * (2 ^ 105 * (b * be)))
        by (apply Z.mul_le_mono_nonneg_l; lia).
      assert (Hs7 : K * b * (2 ^ 105 * be) <= 8 * a * (2 ^ 105 * be))
        by (apply Z.mul_le_mono_nonneg_r; lia).
      assert (Hs8 : K * W * al <= 8 * a * (2 ^ 105 * be) * al)
        by (apply Z.mul_le_mono_nonneg_r; lia).
      lia.
  - destruct (Z.le_gt_cases ((K + 1) * U) (mq * T)) as [Hge|]; [exfalso|done].
    assert (Hh0 : 2 ^ 52 * (P3 * m2) <= mq * (P3 * m2))
      by (apply Z.mul_le_mono_nonneg_r; lia).
    assert (Hh1 : (2 ^ 53 - 1) * (mq * (P3 * m2)) <= 2 ^ 106 * (a * al))
      by lia.
    assert (Hh2 : (K + 1) * U * ((2 ^ 53 - 1) * (P3 * m2))
                  <= mq * T * ((2 ^ 53 - 1) * (P3 * m2)))
      by (apply Z.mul_le_mono_nonneg_r; lia).
    assert (Hh3 : T * ((2 ^ 53 - 1) * (mq * (P3 * m2)))
                  <= T * (2 ^ 106 * (a * al)))
      by (apply Z.mul_le_mono_nonneg_l; lia).
    assert (Hh4 : (K + 1) * W * (2 ^ 53 - 1) * (al * P3)
                  <= 2 ^ 161 * (a * be) * (al * P3)).
    { transitivity (T * (2 ^ 106 * (a * al))); [|unfold T; lia].
      etransitivity; [|exact Hh3].
      etransitivity; [|etransitivity; [exact Hh2|]]; unfold U, W; lia. }
    apply Z.mul_le_mono_pos_r in Hh4; [|lia].
    assert (Hh5 : (K + 1) * (2 ^ 53 - 1) * (2 ^ 159 * (2 ^ 52 - 1) * (b * be))
                  <= (K + 1) * (2 ^ 53 - 1)
                     * ((2 ^ 53 + 1) * (2 ^ 53 + 1) * W))
      by (apply Z.mul_le_mono_nonneg_l; lia).
    assert (Hh6 : (8 * a + 1) * be <= (K + 1) * b * be)
      by (apply Z.mul_le_mono_nonneg_r; lia).
    assert (Hh7 : a * be < 2 ^ 47 * be)
      by (apply Z.mul_lt_mono_pos_r; lia).
    lia.
Qed.

End ClosedForm.

Section ChunkSize.

Implicit Types (st : SplatProcesser) (a b target : Z).

(** The floor of the sizing quotient, for a positive available size below
    2^47 and a positive record width below 2^53. *)
Lemma quotient_floor a b :
  1 <= a < 2 ^ 47 -> 1 <= b < 2 ^ 53 ->
  F64.floor
    (F64.ofZ a /
     (F64.ofZ b * (1 - EXPECTED_COMPRESSION_RATE) * BASE64_OVERHEAD))%float
  = Num (8 * a / b).
Proof.
  intros Ha Hb. unfold F64.floor.
  rewrite FloatAxioms.div_spec, !FloatAxioms.mul_spec.
  rewrite rate_value, overhead_value.
  destruct (ofZ_exact a ltac:(unfold prec; lia))
    as (ma & ea & -> & Hda & Hea & Hma).
  destruct (ofZ_exact b ltac:(unfold prec; lia))
    as (mb & eb & -> & Hdb & Heb & Hmb).
  unfold SF64mul, SF64div.
  destruct (SFmul_nearest false false mb eb 7205759403792792 (-56) Hdb
              ltac:(done)
              ltac:(unfold prec, emin, emax in *; lia)
              ltac:(unfold prec, emin, emax in *; lia))
    as (m1 & e1 & k1 & -> & Hd1 & He1 & Hk1 & Hn1).
  cbn [xorb].
  destruct (SFmul_nearest false false m1 e1 5629499534213120 (-52) Hd1
              ltac:(done)
              ltac:(unfold prec, emin, emax in *; lia)
              ltac:(unfold prec, emin, emax in *; lia))
    as (m2 & e2 & k2 & -> & Hd2 & He2 & Hk2 & Hn2).
  cbn [xorb].
  destruct (SFdiv_nearest false false ma ea m2 e2 Hda Hd2
              ltac:(unfold prec, emin, emax in *; lia)
              ltac:(unfold prec, emin, emax in *; lia))
    as (mq & eq & k3 & -> & Hdq & Heq & Hk3 & Hn3).
  cbn [xorb F64.floorSF cond_Zopp]. f_equal.
  pose proof (normal_bounds _ Hd1) as [Hm1 _].
  pose proof (normal_bounds _ Hd2) as [Hm2 _].
  pose proof (normal_bounds _ Hdq) as [Hmq _].
  unfold prec in *.
  replace eq with ((- eb + 55 + k3) - (- ea + k1 + k2)) by lia.
  rewrite shiftl_quotient by lia.
  set (t := - eb + 55 + k3). set (u := - ea + k1 + k2).
  assert (HT : 2 ^ t = 2 ^ (- eb) * 2 ^ 55 * 2 ^ k3)
    by (unfold t; rewrite !Z.pow_add_r by lia; done).
  assert (HU : 2 ^ u = 2 ^ (- ea) * 2 ^ k1 * 2 ^ k2)
    by (unfold u; rewrite !Z.pow_add_r by lia; done).
  assert (HG : exists G, 1 <= G /\ (2 ^ t = 2 ^ u * G \/ 2 ^ u = 2 ^ t * G)).
  { destruct (Z.le_gt_cases u t).
    - exists (2 ^ (t - u)). split; [pose proof (Z.pow_pos_nonneg 2 (t - u)); lia|].
      left. rewrite <- Z.pow_add_r by (unfold t, u in *; lia). f_equal. lia.
    - exists (2 ^ (u - t)). split; [pose proof (Z.pow_pos_nonneg 2 (u - t)); lia|].
      right. rewrite <- Z.pow_add_r by (unfold t, u in *; lia). f_equal. lia. }
  destruct HG as (G & HG1 & HG).
  rewrite HT, HU in HG |- *.
  rewrite Hma in Hn3. rewrite Hmb in Hn1.
  pose proof (Z.pow_pos_nonneg 2 (- ea) ltac:(lia) ltac:(lia)) as Hal.
  pose proof (Z.pow_pos_nonneg 2 (- eb) ltac:(lia) ltac:(lia)) as Hbe.
  pose proof (Z.pow_pos_nonneg 2 k1 ltac:(lia) ltac:(lia)) as HP1.
  pose proof (Z.pow_pos_nonneg 2 k2 ltac:(lia) ltac:(lia)) as HP2.
  pose proof (Z.pow_pos_nonneg 2 k3 ltac:(lia) ltac:(lia)) as HP3.
  destruct (quotient_bounds a b (2 ^ (- ea)) (2 ^ (- eb)) (Zpos m1) (Zpos m2)
              (Zpos mq) (2 ^ k1) (2 ^ k2) (2 ^ k3) G
              Ha ltac:(lia) Hal Hbe Hm1 Hm2 Hmq HP1 HP2 HP3 HG1 Hn1 Hn2 Hn3 HG)
    as [Hlo Hhi].
  symmetry. apply Z.div_unique_pos with
    (r := Zpos mq * (2 ^ (- eb) * 2 ^ 55 * 2 ^ k3)
          - 8 * a / b * (2 ^ (- ea) * 2 ^ k1 * 2 ^ k2)); lia.
Qed.

(** With nothing available the quotient is zero or negative, and the chunk
    size is 1; otherwise it is the floor of [8a / b], or 1 when that is 0. *)
Lemma sizing_max a b :
  - 2 ^ 63 < a < 2 ^ 47 -> 1 <= b < 2 ^ 53 ->
  JS.max (Num 1)
    (F64.floor
       (F64.ofZ a /
        (F64.ofZ b * (1 - EXPECTED_COMPRESSION_RATE) * BASE64_OVERHEAD))%float)
  = Num (Z.max 1 (8 * a / b)).
Proof.
  intros Ha Hb. destruct (Z.lt_trichotomy a 0) as [Hneg|[->|Hpos]].
  - assert (8 * a / b <= 0) by (apply Z.div_le_upper_bound; lia).
    replace (Z.max 1 (8 * a / b)) with 1 by lia.
    unfold F64.floor. rewrite FloatAxioms.div_spec. unfold SF64div.
    pose proof (SFdiv_normal true false 1 64 (-3) 66 _ _
                  (ofZ_neg a ltac:(lia)) (divisor_normal b ltac:(lia))
                  ltac:(unfold emin, prec, emax; lia)
                  ltac:(unfold emax; lia)) as Hq.
    cbn [F64.ofNumber] in Hq.
    apply floorSF_sign in Hq as (z & -> & Hz). cbn in Hz |- *.
    by rewrite (proj2 (Z.ltb_ge 1 z)) by lia.
  - unfold F64.floor. rewrite FloatAxioms.div_spec. unfold SF64div.
    destruct (divisor_normal b ltac:(lia)) as (m & e & Hd & _ & _).
    cbn [F64.ofNumber] in Hd. rewrite Hd. reflexivity.
  - rewrite quotient_floor by lia.
    assert (0 <= 8 * a / b) by (apply Z.div_pos; lia).
    set (K := 8 * a / b) in *.
    unfold JS.max, JS.lt. destruct (Z.ltb_spec 1 K); f_equal; lia.
Qed.

End ChunkSize.

(** X21: when every declared type has a width, the widths sum to b with
    1 <= b < 2^53, and the target leaves fewer than 2^47 bytes after the
    header (and more than -2^63), the double-precision chunk size is exactly
    max(1, floor(8 * (targetSizeBytes - headerSize) / b)): the three
    roundings of the quotient never move its floor. *)
Theorem verticesPerChunk_closed_form (st : SplatProcesser) (target b : Z) :
  bytesPerVertex st = Num b -> 1 <= b < 2 ^ 53 ->
  - 2 ^ 63 < availableSize st target < 2 ^ 47 ->
  verticesPerChunk st target
  = Num (Z.max 1 (8 * availableSize st target / b)).
Proof.
  intros Hb Hrange Ha. unfold verticesPerChunk. rewrite Hb.
  cbn [F64.ofNumber]. by apply sizing_max.
Qed.

Lemma verticesPerChunk_closed_form_witness :
  verticesPerChunk scenario 566 = Num (Z.max 1 (8 * 446 / 32)).
Proof.
  apply (verticesPerChunk_closed_form scenario 566 32);
    [reflexivity|lia|vm_compute; split; reflexivity].
Defined.

(** X22: under the same bounds, the chunk size grows with the target and
    shrinks with the record width: of two processers with the same header,
    the one with the larger target and the narrower records never gets the
    smaller chunks, and both sizes are integers of at least 1. *)
Theorem verticesPerChunk_monotone (st st' : SplatProcesser)
    (target target' b b' : Z) :
  bytesPerVertex st = Num b -> bytesPerVertex st' = Num b' ->
  headerSize st = headerSize st' ->
  1 <= b' <= b -> b < 2 ^ 53 ->
  target <= target' ->
  - 2 ^ 63 < availableSize st target -> availableSize st' target' < 2 ^ 47 ->
  exists z z',
    verticesPerChunk st target = Num z
    /\ verticesPerChunk st' target' = Num z'
    /\ 1 <= z <= z'.
Proof.
  intros Hb Hb' Hh Hbb Hb53 Ht Hlo Hhi.
  assert (Ha : availableSize st target <= availableSize st' target')
    by (unfold availableSize; lia).
  unfold verticesPerChunk. rewrite Hb, Hb'. cbn [F64.ofNumber].
  rewrite !sizing_max by lia. eexists _, _. split; [done|]. split; [done|].
  split; [lia|].
  set (a := availableSize st target) in *.
  set (a' := availableSize st' target') in *.
  destruct (Z.le_gt_cases a 0) as [Hneg|Hpos].
  - assert (8 * a / b <= 0) by (apply Z.div_le_upper_bound; lia). lia.
  - apply Z.max_le_compat_l. transitivity (8 * a / b').
    + apply Z.div_le_compat_l; lia.
    + apply Z.div_le_mono; lia.
Qed.

Lemma verticesPerChunk_monotone_witness :
  exists z z',
    verticesPerChunk scenario 566 = Num z
    /\ verticesPerChunk scenario 1000 = Num z'
    /\ 1 <= z <= z'.
Proof.
  apply (verticesPerChunk_monotone scenario scenario 566 1000 32 32);
    try reflexivity; try lia; vm_compute; done.
Defined.
